(** * Eleventy: incremental render scheduling and the template caches

    A shallow embedding of the build-orchestration core of Eleventy:
    - [TemplateContent] (class TemplateContent, in these sources the part
      of scripts/release.sh from its imports on): reset types, the
      front-matter reader, the compiled-template cache and the relevance
      test used by incremental builds;
    - [EleventyFiles] (class EleventyFiles, in unnamed/part_002): the shape
      of the changed file;
    - [TemplateWriter] (src/TemplateWriter.js): the incremental scheduler
      and the generation pass;
    - [Compatibility] (src/Util/Compatibility.js): the identifiers of the
      version check.

    Line numbers in comments are those of src/TemplateWriter.js.

    JavaScript objects that are shared and mutated (the template instances
    cached per input path, the static caches of [TemplateContent]) are
    modelled as explicit stores threaded through the functions; promises
    are modelled by the value they settle to, and the points at which an
    [async] function suspends are modelled as separate steps. *)

From Stdlib Require Import String Ascii List ZArith Bool Lia.
From stdpp Require Import base option list strings gmap functions.

Open Scope string_scope.
Open Scope list_scope.

(** ** JavaScript values, as far as truthiness and [===] are concerned *)

Module Js.

Inductive value : Type :=
| Undefined
| Null
| Bool (b : bool)
| Num (n : Z)        (* a number with an integral value *)
| NaN
| Str (s : string)
| Obj (ref : nat).   (* an object (array, function, Buffer, ...), by identity *)

#[global] Instance value_eq_dec : EqDecision value.
Proof. solve_decision. Defined.

(** ToBoolean. *)
Definition truthy (v : value) : bool :=
  match v with
  | Undefined | Null | NaN => false
  | Bool b => b
  | Num n => negb (n =? 0)%Z
  | Str s => negb (String.eqb s "")
  | Obj _ => true
  end.

(** [a === b]. *)
Definition strict_eq (a b : value) : bool :=
  match a, b with
  | Undefined, Undefined | Null, Null => true
  | Bool x, Bool y => Bool.eqb x y
  | Num x, Num y => (x =? y)%Z
  | Str x, Str y => String.eqb x y
  | Obj x, Obj y => Nat.eqb x y
  | _, _ => false
  end.

Definition is_string (v : value) : bool :=
  match v with Str _ => true | _ => false end.

End Js.

(** ** Exceptions and rejected promises *)

Inductive error : Type :=
| TemplateRenderNotInitialized (inputPath : string)
| HostError (message : string)
| TemplateContentFrontMatterError (message : string) (cause : error)
| TemplateContentCompileError (message : string) (cause : error)
| EleventyTemplateError (message : string) (cause : error).

Inductive except (A : Type) : Type :=
| Ok (a : A)
| Throw (e : error).
Arguments Ok {A} a.
Arguments Throw {A} e.

Definition bind {A B} (m : except A) (k : A -> except B) : except B :=
  match m with
  | Ok a => k a
  | Throw e => Throw e
  end.

Notation "'do' x <- m ; k" := (bind m (fun x => k))
  (at level 10, x name, m at level 100, k at level 200).

(** ** TemplateContent.js *)

Module TemplateContent.

(** *** Collaborators (interfaces only) *)

(** The [this] an extension entry's [isIncrementalMatch] is called with. *)
Record IncrementalMatchThis : Type := {
  this_inputPath : string;
  this_isFullTemplate : Js.value;
  isFileRelevantToInputPath : bool;
  doesFileHaveDependencies : bool;
}.

Record ExtensionEntry : Type := {
  (* [None]: the entry has no [isIncrementalMatch] property *)
  isIncrementalMatch : option (IncrementalMatchThis -> Js.value -> bool);
}.

(** The template engine of a document. *)
Record Engine : Type := {
  hasDependencies : Js.value -> bool;
  isFileRelevantTo : string -> Js.value -> bool;
  extensionEntries : list ExtensionEntry;
  cacheable : bool;
  getCompileCacheKey : string -> string -> bool * string; (* {useCache, key} *)
  needsCompilation : string -> bool;
  needsToReadFileContents : bool;
}.

Record TemplateRender : Type := {
  engine_of : Engine;
  useMarkdown : bool;
}.

(** The second argument of [isFileRelevantToThisTemplate]; [{}] by default. *)
Record Metadata : Type := {
  isFullTemplate : Js.value;
}.

Definition metadata_default : Metadata := {| isFullTemplate := Js.Undefined |}.

(** Front matter as the parser returns it: [{ data, content, excerpt }]. *)
Definition Data : Type := list (string * Js.value).

Record FrontMatter : Type := {
  data : Data;
  content : string;
  excerpt : string;
}.

(** [config.frontMatterParsingOptions], the fields [read] looks at. *)
Record FrontMatterOptions : Type := {
  opt_excerpt : bool;                   (* truthiness of [options.excerpt] *)
  excerpt_separator : option string;
  excerpt_alias : option string;
}.

Record VirtualTemplate : Type := {
  vt_content : Js.value;
  vt_data : Data;
}.

(** The [TemplateConfig] a template is constructed with: the unique id of
    its [userConfig], and the entries of [getConfig()] and [directories]
    used here. *)
Record TemplateConfig : Type := {
  _getUniqueId : string;
  useTemplateCache : bool;
  frontMatterParsingOptions : option FrontMatterOptions;
  virtualTemplates : gmap string VirtualTemplate;
  getInputPathRelativeToInputDirectory : string -> string;
}.

(** What lives outside this module: the front-matter parser (gray-matter),
    the file system, [os.EOL], [String.prototype.trim], [lodash.set],
    [TemplatePath.absolutePath] and the [TemplateRender] class. *)
Record Host : Type := {
  matter : Js.value -> FrontMatterOptions -> string -> except FrontMatter;
  readFile : string -> except string;
  EOL : string;
  trim : string -> string;
  lodashSet : Data -> string -> string -> Data;
  absolutePath : string -> string;
  newTemplateRender : string -> TemplateConfig -> except TemplateRender;
  setEngineOverride : TemplateRender -> Js.value -> bool -> except TemplateRender;
}.

(** [this.inputContent] holds either a value given to [setInputContent] or
    the promise returned by [getInputContent()], modelled by its outcome. *)
Inductive InputContent : Type :=
| ContentValue (v : Js.value)
| ContentPromise (settled : except Js.value).

(** An instance of the class. *)
Record t : Type := {
  inputPath : string;
  eleventyConfig : TemplateConfig;
  _templateRender : option TemplateRender;
  readingPromise : option (except FrontMatter);
  inputContent : option InputContent;
  _frontMatter : option FrontMatter;
  frontMatterOverride : option FrontMatter;
  _frontMatterDataCache : option (except Data);
}.

(** [constructor(inputPath, templateConfig)]. *)
Definition new (inputPath : string) (templateConfig : TemplateConfig) : t :=
  {| inputPath := inputPath;
     eleventyConfig := templateConfig;
     _templateRender := None;
     readingPromise := None;
     inputContent := None;
     _frontMatter := None;
     frontMatterOverride := None;
     _frontMatterDataCache := None |}.

Definition set_templateRender (this : t) (tr : TemplateRender) : t :=
  {| inputPath := inputPath this;
     eleventyConfig := eleventyConfig this;
     _templateRender := Some tr;
     readingPromise := readingPromise this;
     inputContent := inputContent this;
     _frontMatter := _frontMatter this;
     frontMatterOverride := frontMatterOverride this;
     _frontMatterDataCache := _frontMatterDataCache this |}.

(** [setInputContent(content)] and the assignment in [read]. *)
Definition set_inputContent (this : t) (c : InputContent) : t :=
  {| inputPath := inputPath this;
     eleventyConfig := eleventyConfig this;
     _templateRender := _templateRender this;
     readingPromise := readingPromise this;
     inputContent := Some c;
     _frontMatter := _frontMatter this;
     frontMatterOverride := frontMatterOverride this;
     _frontMatterDataCache := _frontMatterDataCache this |}.

Definition set_readingPromise (this : t) (r : except FrontMatter) : t :=
  {| inputPath := inputPath this;
     eleventyConfig := eleventyConfig this;
     _templateRender := _templateRender this;
     readingPromise := Some r;
     inputContent := inputContent this;
     _frontMatter := _frontMatter this;
     frontMatterOverride := frontMatterOverride this;
     _frontMatterDataCache := _frontMatterDataCache this |}.

Definition set_frontMatter (this : t) (fm : FrontMatter) : t :=
  {| inputPath := inputPath this;
     eleventyConfig := eleventyConfig this;
     _templateRender := _templateRender this;
     readingPromise := readingPromise this;
     inputContent := inputContent this;
     _frontMatter := Some fm;
     frontMatterOverride := frontMatterOverride this;
     _frontMatterDataCache := _frontMatterDataCache this |}.

(** *** Reset types *)

Record ResetTypes : Type := {
  reset_data : bool;
  reset_read : bool;
  reset_render : bool;
}.

(** The object literal passed to [resetCaches]: each key may be absent. *)
Record ResetTypesArg : Type := {
  arg_data : option bool;
  arg_read : option bool;
  arg_render : option bool;
}.

(** [getResetTypes(types)]: [Object.assign] over all-false defaults when an
    argument is given, all three kinds otherwise. *)
Definition getResetTypes (types : option ResetTypesArg) : ResetTypes :=
  match types with
  | Some types =>
      {| reset_data := default false (arg_data types);
         reset_read := default false (arg_read types);
         reset_render := default false (arg_render types) |}
  | None =>
      {| reset_data := true; reset_read := true; reset_render := true |}
  end.

(** [resetCaches(types)]. [delete this.frontMatter] removes no own
    property (the class only defines the accessor pair), so [_frontMatter]
    and [frontMatterOverride] stay. *)
Definition resetCaches (this : t) (types : option ResetTypesArg) : t :=
  let types := getResetTypes types in
  if reset_read types then
    {| inputPath := inputPath this;
       eleventyConfig := eleventyConfig this;
       _templateRender := _templateRender this;
       readingPromise := None;
       inputContent := None;
       _frontMatter := _frontMatter this;
       frontMatterOverride := frontMatterOverride this;
       _frontMatterDataCache := None |}
  else this.

(** *** The engine *)

(** [get engine()], through [get templateRender()]: throws while the
    template render has not been initialized. *)
Definition engine (this : t) : except Engine :=
  match _templateRender this with
  | Some tr => Ok (engine_of tr)
  | None => Throw (TemplateRenderNotInitialized (inputPath this))
  end.

(** [async getTemplateRender()]: creates and initializes it on first use. *)
Definition getTemplateRender (host : Host) (this : t) : except (TemplateRender * t) :=
  match _templateRender this with
  | Some tr => Ok (tr, this)
  | None =>
      do tr <- newTemplateRender host (inputPath this) (eleventyConfig this);
      Ok (tr, set_templateRender this tr)
  end.

(** *** Relevance of a changed file *)

Definition hasIncrementalMatch (entry : ExtensionEntry) : bool :=
  match isIncrementalMatch entry with Some _ => true | None => false end.

(** The [for] loop over the filtered extension entries: [true] at the first
    entry whose [isIncrementalMatch] call is truthy, [false] after the
    last. *)
Fixpoint anyIncrementalMatch (entries : list ExtensionEntry)
    (this : IncrementalMatchThis) (incrementalFile : Js.value) : bool :=
  match entries with
  | [] => false
  | entry :: rest =>
      match isIncrementalMatch entry with
      | Some f =>
          if f this incrementalFile then true
          else anyIncrementalMatch rest this incrementalFile
      | None => anyIncrementalMatch rest this incrementalFile
      end
  end.

(** The [this] of the [isIncrementalMatch] calls. *)
Definition matchThis (this : t) (eng : Engine) (incrementalFile : Js.value)
    (metadata : Metadata) : IncrementalMatchThis :=
  {| this_inputPath := inputPath this;
     this_isFullTemplate := isFullTemplate metadata;
     isFileRelevantToInputPath := isFileRelevantTo eng (inputPath this) incrementalFile;
     doesFileHaveDependencies := hasDependencies eng incrementalFile |}.

(** [isFileRelevantToThisTemplate(incrementalFile, metadata = {})]. *)
Definition isFileRelevantToThisTemplate
    (this : t) (incrementalFile : Js.value) (metadata : Metadata) : except bool :=
  (* always relevant if incremental file not set (build everything) *)
  if negb (Js.truthy incrementalFile) then Ok true
  else
    do eng <- engine this;
    let hasDependencies := hasDependencies eng incrementalFile in
    let isRelevant := isFileRelevantTo eng (inputPath this) incrementalFile in
    let extensionEntries := List.filter hasIncrementalMatch (extensionEntries eng) in
    if negb (length extensionEntries =? 0)%nat then
      Ok (anyIncrementalMatch extensionEntries
            (matchThis this eng incrementalFile metadata) incrementalFile)
    else if isRelevant then Ok true
    (* only return true here if dependencies are not known *)
    else if negb hasDependencies && negb (Js.truthy (isFullTemplate metadata)) then Ok true
    else Ok false.

(** *** Static state and calls to the parser *)

(** A function object produced by [compile]. *)
Inductive CompiledFn : Type :=
| ReturnsStr (str : string)   (* [async function () { return str; }] *)
| EngineFn (ref : nat).       (* what [tr.getCompiledTemplate(str)] resolved to *)

(** A promise created by [new Promise((resolve) => { res = resolve; })]. *)
Inductive PromiseState : Type :=
| Pending
| Resolved (fn : CompiledFn).

(** [TemplateContent._inputCache], [TemplateContent._compileCache] with the
    promises it holds, the two benchmark counters of [compile], and the
    arguments the front-matter parser has been called with so far. *)
Record Statics : Type := {
  _inputCache : gmap string Js.value;
  _compileCache : gmap string (gmap string nat);
  promises : list PromiseState;
  compileCacheHit : nat;
  compileCacheMiss : nat;
  matterCalls : list Js.value;
}.

Definition set_inputCache (w : Statics) (c : gmap string Js.value) : Statics :=
  {| _inputCache := c;
     _compileCache := _compileCache w;
     promises := promises w;
     compileCacheHit := compileCacheHit w;
     compileCacheMiss := compileCacheMiss w;
     matterCalls := matterCalls w |}.

Definition set_compileCache (w : Statics) (c : gmap string (gmap string nat)) : Statics :=
  {| _inputCache := _inputCache w;
     _compileCache := c;
     promises := promises w;
     compileCacheHit := compileCacheHit w;
     compileCacheMiss := compileCacheMiss w;
     matterCalls := matterCalls w |}.

Definition set_promises (w : Statics) (ps : list PromiseState) : Statics :=
  {| _inputCache := _inputCache w;
     _compileCache := _compileCache w;
     promises := ps;
     compileCacheHit := compileCacheHit w;
     compileCacheMiss := compileCacheMiss w;
     matterCalls := matterCalls w |}.

Definition incrementHit (w : Statics) : Statics :=
  {| _inputCache := _inputCache w;
     _compileCache := _compileCache w;
     promises := promises w;
     compileCacheHit := S (compileCacheHit w);
     compileCacheMiss := compileCacheMiss w;
     matterCalls := matterCalls w |}.

Definition incrementMiss (w : Statics) : Statics :=
  {| _inputCache := _inputCache w;
     _compileCache := _compileCache w;
     promises := promises w;
     compileCacheHit := compileCacheHit w;
     compileCacheMiss := S (compileCacheMiss w);
     matterCalls := matterCalls w |}.

Definition logMatterCall (w : Statics) (content : Js.value) : Statics :=
  {| _inputCache := _inputCache w;
     _compileCache := _compileCache w;
     promises := promises w;
     compileCacheHit := compileCacheHit w;
     compileCacheMiss := compileCacheMiss w;
     matterCalls := matterCalls w ++ [content] |}.

(** [static cache(path, content)], [static getCached(path)],
    [static deleteFromInputCache(path)]. *)
Definition cache (host : Host) (path : string) (content : Js.value) (w : Statics) : Statics :=
  set_inputCache w (<[absolutePath host path := content]> (_inputCache w)).

Definition getCached (host : Host) (path : string) (w : Statics) : Js.value :=
  default Js.Undefined (_inputCache w !! absolutePath host path).

Definition deleteFromInputCache (host : Host) (path : string) (w : Statics) : Statics :=
  set_inputCache w (delete (absolutePath host path) (_inputCache w)).

(** *** Reading the content and its front matter *)

Definition getVirtualTemplateDefinition (this : t) : option VirtualTemplate :=
  virtualTemplates (eleventyConfig this)
    !! getInputPathRelativeToInputDirectory (eleventyConfig this) (inputPath this).

(** [async getInputContent()]: the settled value of the promise, the
    instance and the static state afterwards. *)
Definition getInputContent (host : Host) (this : t) (w : Statics)
  : except Js.value * t * Statics :=
  match getTemplateRender host this with
  | Throw e => (Throw e, this, w)
  | Ok (tr, this) =>
      if negb (needsToReadFileContents (engine_of tr)) then (Ok (Js.Str ""), this, w)
      else
        match getVirtualTemplateDefinition this with
        | Some virtualTemplateDefinition =>
            (Ok (vt_content virtualTemplateDefinition), this, w)
        | None =>
            let content :=
              if useTemplateCache (eleventyConfig this)
              then getCached host (inputPath this) w
              else Js.Undefined in
            if negb (Js.truthy content) && negb (Js.strict_eq content (Js.Str "")) then
              match readFile host (inputPath this) with
              | Throw e => (Throw e, this, w)
              | Ok content =>
                  (Ok (Js.Str content), this,
                   if useTemplateCache (eleventyConfig this)
                   then cache host (inputPath this) (Js.Str content) w
                   else w)
              end
            else (Ok content, this, w)
        end
  end.

(** [!this.inputContent]. *)
Definition inputContentMissing (this : t) : bool :=
  match inputContent this with
  | None => true
  | Some (ContentValue v) => negb (Js.truthy v)
  | Some (ContentPromise _) => false
  end.

(** [await this.inputContent]. *)
Definition awaitInputContent (this : t) : except Js.value :=
  match inputContent this with
  | None => Ok Js.Undefined
  | Some (ContentValue v) => Ok v
  | Some (ContentPromise settled) => settled
  end.

Definition newline : string := String (ascii_of_nat 10) EmptyString.

(** [s.slice(n)] for [0 <= n]. *)
Definition slice (s : string) (n : nat) : string :=
  String.substring n (String.length s - n) s.

Definition defaultFrontMatterOptions : FrontMatterOptions :=
  {| opt_excerpt := false; excerpt_separator := None; excerpt_alias := None |}.

(** [value || fallback] for an optional string. *)
Definition orString (value : option string) (fallback : string) : string :=
  match value with
  | Some s => if String.eqb s "" then fallback else s
  | None => fallback
  end.

(** The excerpt handling of [read] on a parsed front matter. *)
Definition applyExcerpt (host : Host) (options : FrontMatterOptions) (fm : FrontMatter)
  : FrontMatter :=
  if opt_excerpt options && negb (String.eqb (excerpt fm) "") then
    let excerptString := excerpt fm +:+ orString (excerpt_separator options) "---" in
    let content :=
      if String.prefix (excerptString +:+ EOL host) (content fm) then
        (* with an os-specific newline after excerpt separator *)
        trim host (excerpt fm) +:+ newline
          +:+ slice (content fm) (String.length (excerptString +:+ EOL host))
      else if String.prefix (excerptString +:+ newline) (content fm) then
        (* with a newline (\n) after excerpt separator; the source takes
           [(excerptString + 1).length], the length with the digit appended *)
        trim host (excerpt fm) +:+ newline
          +:+ slice (content fm) (String.length (excerptString +:+ "1"))
      else if String.prefix excerptString (content fm) then
        (* no newline after excerpt separator *)
        excerpt fm +:+ slice (content fm) (String.length excerptString)
      else content fm in
    (* alias, defaults to page.excerpt *)
    let alias := orString (excerpt_alias options) "page.excerpt" in
    {| data := lodashSet host (data fm) alias (excerpt fm);
       content := content;
       excerpt := excerpt fm |}
  else fm.

Definition emptyFrontMatter : FrontMatter :=
  {| data := []; content := ""; excerpt := "" |}.

(** The executor of the promise created in [read]: the value it settles
    to, together with the instance and the static state afterwards. *)
Definition readContent (host : Host) (this : t) (w : Statics)
  : except FrontMatter * t * Statics :=
  match awaitInputContent this with
  | Throw e => (Throw e, this, w)
  | Ok content =>
      if Js.truthy content || Js.strict_eq content (Js.Str "") then
        let options :=
          default defaultFrontMatterOptions (frontMatterParsingOptions (eleventyConfig this)) in
        let w := logMatterCall w content in
        match matter host content options (inputPath this) with
        | Throw e =>
            (Throw (TemplateContentFrontMatterError
                      ("Having trouble reading front matter from template " +:+ inputPath this) e),
             this, w)
        | Ok fm =>
            let fm := applyExcerpt host options fm in
            (Ok fm, set_frontMatter this fm, w)
        end
      else (Ok emptyFrontMatter, this, w)
  end.

(** [if (!this.inputContent) { this.inputContent = this.getInputContent(); }] *)
Definition ensureInputContent (host : Host) (this : t) (w : Statics) : t * Statics :=
  if inputContentMissing this then
    (* cache the promise *)
    let '(settled, this, w) := getInputContent host this w in
    (set_inputContent this (ContentPromise settled), w)
  else (this, w).

(** [async read()]. *)
Definition read (host : Host) (this : t) (w : Statics)
  : except FrontMatter * t * Statics :=
  match readingPromise this with
  | Some settled => (settled, this, w)
  | None =>
      let '(this, w) := ensureInputContent host this w in
      let '(settled, this, w) := readContent host this w in
      (settled, set_readingPromise this settled, w)
  end.

(** *** The compiled-template cache *)

(** [tr.setUseMarkdown(flag)]. *)
Definition setUseMarkdown (tr : TemplateRender) (flag : bool) : TemplateRender :=
  {| engine_of := engine_of tr; useMarkdown := flag |}.

(** The map stored under [inputPath] in [_compileCache]. *)
Definition inputPathMap (path : string) (w : Statics) : gmap string nat :=
  default ∅ (_compileCache w !! path).

(** The first lines of [_getCompileCache]: the map of an input path is
    created when [_compileCache] has none. *)
Definition ensureMap (path : string) (w : Statics) : Statics :=
  match _compileCache w !! path with
  | Some _ => w
  | None => set_compileCache w (<[path := ∅]> (_compileCache w))
  end.

(** The key [_getCompileCache] returns: the engine's key, tied to the
    UserConfig instance by its unique id. *)
Definition cacheKey (this : t) (eng : Engine) (str : string) : string :=
  _getUniqueId (eleventyConfig this) +:+ (getCompileCacheKey eng str (inputPath this)).2.

Definition usesCache (this : t) (eng : Engine) (str : string) : bool :=
  (getCompileCacheKey eng str (inputPath this)).1.

(** [_getCompileCache(str)]: [[cacheable, key, inputPathMap, useCache]].
    The map is shared, so it is named by the input path it is stored under
    and read through [inputPathMap]. *)
Definition _getCompileCache (this : t) (str : string) (w : Statics)
  : except (bool * string * bool) * Statics :=
  let w := ensureMap (inputPath this) w in
  match engine this with
  | Throw e => (Throw e, w)
  | Ok eng => (Ok (cacheable eng, cacheKey this eng str, usesCache this eng str), w)
  end.

(** [cache.has(key)] followed by [cache.get(key)]. *)
Definition cacheGet (path key : string) (w : Statics) : option nat :=
  inputPathMap path w !! key.

(** [cache.set(key, promise)]. *)
Definition cacheSet (path key : string) (promise : nat) (w : Statics) : Statics :=
  set_compileCache w (<[path := <[key := promise]> (inputPathMap path w)]> (_compileCache w)).

(** [cache.delete(key)]. *)
Definition cacheDelete (path key : string) (w : Statics) : Statics :=
  set_compileCache w (<[path := delete key (inputPathMap path w)]> (_compileCache w)).

(** [new Promise((resolve) => { res = resolve; })]. *)
Definition newPromise (w : Statics) : nat * Statics :=
  (length (promises w), set_promises w (promises w ++ [Pending])).

(** [res(fn)]: settles a pending promise, does nothing to a settled one. *)
Definition resolve (promise : nat) (fn : CompiledFn) (w : Statics) : Statics :=
  match promises w !! promise with
  | Some Pending => set_promises w (<[promise := Resolved fn]> (promises w))
  | _ => w
  end.

Definition keyTruthy (key : string) : bool := negb (String.eqb key "").

Definition compileErrorMessage (this : t) : string :=
  "Having trouble compiling template " +:+ inputPath this.

(** The [catch] block of [compile]. *)
Definition compile_catch (this : t) (str : string) (e : error) (w : Statics)
  : error * Statics :=
  match _getCompileCache this str w with
  | (Throw e', w) => (e', w)
  | (Ok (cacheable, key, _), w) =>
      let w := if cacheable && keyTruthy key then cacheDelete (inputPath this) key w else w in
      (TemplateContentCompileError (compileErrorMessage this) e, w)
  end.

(** Where [compile] stands when it first gives up control. *)
Inductive CompileStep : Type :=
| Return (fn : CompiledFn)
| ReturnCached (promise : nat)
| AwaitCompiledTemplate (res : option nat).

(** The [try] block of [compile] up to [await tr.getCompiledTemplate(str)].
    Between reading the cache and storing the placeholder promise there is
    no [await]. *)
Definition compile_try (this : t) (str : string) (w : Statics)
  : except CompileStep * Statics :=
  if useTemplateCache (eleventyConfig this) then
    match _getCompileCache this str w with
    | (Throw e, w) =>
        let '(e, w) := compile_catch this str e w in (Throw e, w)
    | (Ok (cacheable, key, useCache), w) =>
        if cacheable && keyTruthy key then
          match (if useCache then cacheGet (inputPath this) key w else None) with
          | Some promise => (Ok (ReturnCached promise), incrementHit w)
          | None =>
              let w := incrementMiss w in
              (* Compilation is async, so we eagerly cache a Promise that
                 eventually resolves to the compiled function *)
              let '(res, w) := newPromise w in
              let w := cacheSet (inputPath this) key res w in
              (Ok (AwaitCompiledTemplate (Some res)), w)
          end
        else (Ok (AwaitCompiledTemplate None), w)
    end
  else (Ok (AwaitCompiledTemplate None), w).

(** The choice of engine at the start of [compile]. *)
Definition applyEngineOverride (host : Host) (tr : TemplateRender)
    (bypassMarkdown : bool) (engineOverride : Js.value) : except TemplateRender :=
  if negb (Js.strict_eq engineOverride Js.Undefined)
  then setEngineOverride host tr engineOverride bypassMarkdown
  else Ok (setUseMarkdown tr (negb bypassMarkdown)).

(** [async compile(str, bypassMarkdown, engineOverride)], up to
    [await tr.getCompiledTemplate(str)]. *)
Definition compile_start (host : Host) (this : t) (str : string)
    (bypassMarkdown : bool) (engineOverride : Js.value) (w : Statics)
  : except CompileStep * t * Statics :=
  match getTemplateRender host this with
  | Throw e => (Throw e, this, w)
  | Ok (tr, this) =>
      match applyEngineOverride host tr bypassMarkdown engineOverride with
      | Throw e => (Throw e, this, w)
      | Ok tr =>
          let this := set_templateRender this tr in
          if bypassMarkdown && negb (needsCompilation (engine_of tr) str) then
            (Ok (Return (ReturnsStr str)), this, w)
          else
            let '(step, w) := compile_try this str w in (step, this, w)
      end
  end.

(** [compile] from the point where [tr.getCompiledTemplate(str)] settled,
    with [compiled] what it settled to. *)
Definition compile_finish (this : t) (str : string) (res : option nat)
    (compiled : except CompiledFn) (w : Statics) : except CompiledFn * Statics :=
  match compiled with
  | Ok fn =>
      let w :=
        match res with
        | Some promise =>
            if useTemplateCache (eleventyConfig this) then resolve promise fn w else w
        | None => w
        end in
      (Ok fn, w)
  | Throw e =>
      let '(e, w) := compile_catch this str e w in (Throw e, w)
  end.

(** What the promise returned by [compile] settles to: the function it
    returns, or whatever the cached promise it returns settles to. *)
Inductive CompileResult : Type :=
| Compiled (fn : CompiledFn)
| FromCache (promise : nat).

(** A call of [compile] that nothing else interleaves with. *)
Definition compile (host : Host) (this : t) (str : string)
    (bypassMarkdown : bool) (engineOverride : Js.value)
    (compiled : except CompiledFn) (w : Statics)
  : except CompileResult * t * Statics :=
  match compile_start host this str bypassMarkdown engineOverride w with
  | (Throw e, this, w) => (Throw e, this, w)
  | (Ok (Return fn), this, w) => (Ok (Compiled fn), this, w)
  | (Ok (ReturnCached promise), this, w) => (Ok (FromCache promise), this, w)
  | (Ok (AwaitCompiledTemplate res), this, w) =>
      match compile_finish this str res compiled w with
      | (Ok fn, w) => (Ok (Compiled fn), this, w)
      | (Throw e, w) => (Throw e, this, w)
      end
  end.

(** The listeners on the event bus. [addLeadingDotSlash] is
    [TemplatePath.addLeadingDotSlash]. *)
Definition on_resourceModified (host : Host) (addLeadingDotSlash : string -> string)
    (path : string) (w : Statics) : Statics :=
  (* delete from input cache *)
  let w := deleteFromInputCache host path w in
  (* delete from compile cache *)
  let normalized := addLeadingDotSlash path in
  match _compileCache w !! normalized with
  | Some _ => set_compileCache w (<[normalized := ∅]> (_compileCache w))
  | None => w
  end.

Definition on_compileCacheReset (w : Statics) : Statics :=
  set_compileCache w ∅.

(** *** The front matter, for monkey patchers *)

(** The [Error] the [frontMatter] getter throws. *)
Definition monkeyPatched : error :=
  HostError "Unfortunately you’re using code that monkey patched some Eleventy internals and it isn’t async-friendly. Change your code to use the async `read()` method on the template instead!".

(** [get frontMatter()]. *)
Definition get_frontMatter (this : t) : except FrontMatter :=
  match frontMatterOverride this with
  | Some contentOverride => Ok contentOverride
  | None =>
      match _frontMatter this with
      | Some fm => Ok fm
      | None => Throw monkeyPatched
      end
  end.

(** *** Calls of [compile] in flight *)

(** A call of [compile] that is waiting for [tr.getCompiledTemplate(str)]:
    the instance, the content, and the [res] of the placeholder promise it
    stored, if it stored one. *)
Record Request : Type := {
  request_this : t;
  request_str : string;
  request_res : option nat;
}.

(** The calls in flight after [compile_start] returned [step]. *)
Definition inFlightAfter (step : except CompileStep) (this : t) (str : string)
    (inFlight : list Request) : list Request :=
  match step with
  | Ok (AwaitCompiledTemplate res) =>
      {| request_this := this; request_str := str; request_res := res |} :: inFlight
  | _ => inFlight
  end.

(** What happens to the static state of the class, one job at a time: a
    call of [compile] runs up to its [await]; a call in flight resumes
    with the outcome of the compilation; a template is read; a path is
    cached or deleted; one of the two events of the event bus arrives. *)
Inductive step (host : Host) (addLeadingDotSlash : string -> string)
  : Statics * list Request -> Statics * list Request -> Prop :=
| step_compile_start this str bypassMarkdown engineOverride w inFlight :
    let started := compile_start host this str bypassMarkdown engineOverride w in
    step host addLeadingDotSlash (w, inFlight)
      (started.2, inFlightAfter started.1.1 started.1.2 str inFlight)
| step_compile_finish request compiled w before after :
    step host addLeadingDotSlash (w, before ++ request :: after)
      ((compile_finish (request_this request) (request_str request)
          (request_res request) compiled w).2,
       before ++ after)
| step_read this w inFlight :
    step host addLeadingDotSlash (w, inFlight) ((read host this w).2, inFlight)
| step_getInputContent this w inFlight :
    step host addLeadingDotSlash (w, inFlight) ((getInputContent host this w).2, inFlight)
| step_cache path content w inFlight :
    step host addLeadingDotSlash (w, inFlight) (cache host path content w, inFlight)
| step_deleteFromInputCache path w inFlight :
    step host addLeadingDotSlash (w, inFlight) (deleteFromInputCache host path w, inFlight)
| step_resourceModified path w inFlight :
    step host addLeadingDotSlash (w, inFlight)
      (on_resourceModified host addLeadingDotSlash path w, inFlight)
| step_compileCacheReset w inFlight :
    step host addLeadingDotSlash (w, inFlight) (on_compileCacheReset w, inFlight).

(** The placeholder promises of the calls in flight; they are distinct
    and pending. *)
Definition placeholders (inFlight : list Request) : list nat :=
  omap request_res inFlight.

Definition wellFormed (s : Statics * list Request) : Prop :=
  NoDup (placeholders s.2)
  /\ forall r, r ∈ placeholders s.2 -> promises s.1 !! r = Some Pending.

End TemplateContent.

(** ** Plain objects used as lookup tables *)

Module JsObject.

(** An object literal whose properties all hold [true]: its own keys, in
    the order they were created. *)
Definition t : Type := list string.

Definition empty : t := [].

Definition hasOwn (o : t) (key : string) : bool := bool_decide (key ∈ o).

(** Defining the own property [key]: an existing key keeps its place. *)
Definition define (o : t) (key : string) : t :=
  if hasOwn o key then o else o ++ [key].

(** [o[key] = true]. Assigning to ["__proto__"] runs the setter inherited
    from [Object.prototype], which ignores a value that is not an object,
    so no own property appears. *)
Definition set (o : t) (key : string) : t :=
  if String.eqb key "__proto__" then o else define o key.

(** [Object.fromEntries(entries)] for entries [[key, true]]:
    own properties are defined without consulting the prototype. *)
Definition fromEntries (keys : list string) : t :=
  fold_left define keys empty.

(** The names [Object.prototype] defines, each holding a truthy value. *)
Definition inherited : list string :=
  [ "constructor"; "hasOwnProperty"; "isPrototypeOf"; "propertyIsEnumerable";
    "toLocaleString"; "toString"; "valueOf"; "__proto__";
    "__defineGetter__"; "__defineSetter__"; "__lookupGetter__"; "__lookupSetter__" ].

(** Truthiness of [o[key]]: an own property, or one found on the prototype. *)
Definition getTruthy (o : t) (key : string) : bool :=
  hasOwn o key || bool_decide (key ∈ inherited).

Definition isDigit (c : ascii) : bool :=
  (48 <=? nat_of_ascii c)%nat && (nat_of_ascii c <=? 57)%nat.

Fixpoint digitsValue (s : string) (acc : N) : option N :=
  match s with
  | EmptyString => Some acc
  | String c rest =>
      if isDigit c
      then digitsValue rest (acc * 10 + N.of_nat (nat_of_ascii c - 48))%N
      else None
  end.

(** The array index a property key denotes, if any: a canonical decimal
    numeral below [2^32 - 1]. *)
Definition arrayIndex (key : string) : option N :=
  match key with
  | EmptyString => None
  | String c rest =>
      if Ascii.eqb c "0" && negb (String.eqb rest "") then None
      else match digitsValue key 0 with
           | Some n => if (n <? 2 ^ 32 - 1)%N then Some n else None
           | None => None
           end
  end.

Fixpoint insertIndex (n : N) (key : string) (sorted : list (N * string)) : list (N * string) :=
  match sorted with
  | [] => [(n, key)]
  | (m, k) :: rest =>
      if (n <? m)%N then (n, key) :: sorted else (m, k) :: insertIndex n key rest
  end.

Fixpoint indexKeys (o : t) : list (N * string) :=
  match o with
  | [] => []
  | key :: rest =>
      match arrayIndex key with
      | Some n => insertIndex n key (indexKeys rest)
      | None => indexKeys rest
      end
  end.

Definition isNamedKey (key : string) : bool :=
  match arrayIndex key with Some _ => false | None => true end.

(** [Object.keys(o)]: array indices in ascending order, then the other keys
    in creation order. *)
Definition keys (o : t) : list string :=
  (List.map snd (indexKeys o) ++ List.filter isNamedKey o)%list.

End JsObject.

(** ** Sets *)

Module JsSet.

Section elements.

Context {A : Type} `{EqDecision A}.

(** The elements of a [Set], in insertion order. *)
Definition t : Type := list A.

Definition empty : t := [].

(** [set.add(x)]: an element already in the set keeps its place. *)
Definition add (s : t) (x : A) : t :=
  if bool_decide (x ∈ s) then s else s ++ [x].

(** [for (let x of xs) { set.add(x); }], and [new Set(xs)] from [empty]. *)
Definition addAll (s : t) (xs : list A) : t := fold_left add xs s.

Definition fromList (xs : list A) : t := addAll empty xs.

(** [set.size]. *)
Definition size (s : t) : nat := length s.

(** [Array.from(set)]. *)
Definition toArray (s : t) : list A := s.

End elements.

End JsSet.

(** ** EleventyFiles.js *)

Module EleventyFiles.

(** The return values of [getFileShape]. *)
Inductive FileShape : Type :=
| ShapeCopy        (* "copy" *)
| ShapeTemplate    (* "template" *)
| ShapeUndefined.  (* include/layout/unknown *)

Definition isTemplateShape (shape : FileShape) : bool :=
  match shape with ShapeTemplate => true | _ => false end.

(** [isFullTemplateFile(paths, filePath)]. *)
Fixpoint isFullTemplateFile_loop (paths : list string) (filePath : Js.value) : bool :=
  match paths with
  | [] => false
  | path :: rest =>
      if Js.strict_eq (Js.Str path) filePath then true
      else isFullTemplateFile_loop rest filePath
  end.

Definition isFullTemplateFile (paths : list string) (filePath : Js.value) : bool :=
  if negb (Js.truthy filePath) then false
  else isFullTemplateFile_loop paths filePath.

(** [getFileShape(paths, filePath)]; [isPassthroughCopyFile] is the
    passthrough manager's. *)
Definition getFileShape (isPassthroughCopyFile : list string -> Js.value -> bool)
    (paths : list string) (filePath : Js.value) : FileShape :=
  if negb (Js.truthy filePath) then ShapeUndefined
  else if isPassthroughCopyFile paths filePath then ShapeCopy
  else if isFullTemplateFile paths filePath then ShapeTemplate
  else ShapeUndefined.

(** *** Ignore files and ignore globs *)

(** [TemplateGlob], [TemplatePath], [String.prototype.trim] and the file
    system, as the ignore files are read with them. [env_normalizePath
    dir line] is [TemplateGlob.normalizePath(dir, "/", line)];
    [env_isDirectory] is [statSync(path).isDirectory()], [None] when
    [statSync] throws. *)
Record IgnoreEnv : Type := {
  env_trim : string -> string;
  env_normalizePath : string -> string -> string;
  env_relativePath : string -> string;
  env_addLeadingDotSlash : string -> string;
  env_isDirectory : string -> option bool;
}.

(** [s.split("\n")]. *)
Fixpoint splitLines (s : string) : list string :=
  match s with
  | EmptyString => [EmptyString]
  | String c rest =>
      if Ascii.eqb c (ascii_of_nat 10) then EmptyString :: splitLines rest
      else match splitLines rest with
           | line :: lines => String c line :: lines
           | [] => [String c EmptyString]
           end
  end.

(** [line.charAt(0) === c]. *)
Definition startsWithChar (c : ascii) (line : string) : bool :=
  match line with
  | String c' _ => Ascii.eqb c' c
  | EmptyString => false
  end.

(** The callback of [filter]: empty lines or comments get filtered out,
    and so do negative patterns. *)
Definition keepsLine (line : string) : bool :=
  negb (String.length line =? 0)%nat
  && negb (startsWithChar "#" line) && negb (startsWithChar "!" line).

(** The callback of the second [map]. *)
Definition ignoreGlob (env : IgnoreEnv) (dir line : string) : string :=
  let path := env_normalizePath env dir line in
  let path := env_addLeadingDotSlash env (env_relativePath env path) in
  (* Note these folders must exist to get /** suffix *)
  match env_isDirectory env path with
  | Some true => path +:+ "/**"
  | _ => path
  end.

(** [static normalizeIgnoreContent(dir, ignoreContent)]. *)
Definition normalizeIgnoreContent (env : IgnoreEnv) (dir ignoreContent : string)
  : list string :=
  if negb (String.eqb ignoreContent "") then
    List.map (ignoreGlob env dir)
      (List.filter keepsLine (List.map (env_trim env) (splitLines ignoreContent)))
  else [].

(** [normalizeIgnoreEntry(entry)]; [normalizePath root entry] is
    [TemplateGlob.normalizePath(root, entry)]. *)
Definition normalizeIgnoreEntry (normalizePath : string -> string -> string)
    (localPathRoot : option string) (entry : string) : string :=
  if negb (String.prefix "**/" entry)
  then normalizePath (TemplateContent.orString localPathRoot ".") entry
  else entry.

(** [getIgnoreGlobs()], from [this.fileIgnores], [this.extraIgnores] and
    the entries of [this.config.ignores] in the order of that set. *)
Definition getIgnoreGlobs (normalizePath : string -> string -> string)
    (localPathRoot : option string) (fileIgnores extraIgnores configIgnores : list string)
  : list string :=
  let uniqueIgnores := JsSet.addAll JsSet.empty fileIgnores in
  let uniqueIgnores := JsSet.addAll uniqueIgnores extraIgnores in
  (* Placing the config ignores last here is important to the tests *)
  let uniqueIgnores :=
    JsSet.addAll uniqueIgnores
      (List.map (normalizeIgnoreEntry normalizePath localPathRoot) configIgnores) in
  JsSet.toArray uniqueIgnores.

(** [this.dirs]: the input, includes and data directories, and the layouts
    directory when one is set. *)
Record Dirs : Type := {
  dirs_input : string;
  dirs_includes : string;
  dirs_layouts : option string;
  dirs_data : string;
}.

(** [getIncludesAndDataDirs()]; [globMap] is [TemplateGlob.map]. *)
Definition getIncludesAndDataDirs (globMap : string -> string) (dirs : Dirs) : list string :=
  let rawPaths := JsSet.add JsSet.empty (dirs_includes dirs) in
  let rawPaths :=
    match dirs_layouts dirs with
    | Some layoutsDir =>
        if negb (String.eqb layoutsDir "") then JsSet.add rawPaths layoutsDir else rawPaths
    | None => rawPaths
    end in
  let rawPaths := JsSet.add rawPaths (dirs_data dirs) in
  List.map (fun entry => globMap (entry +:+ "**"))
    (List.filter
       (* never ignore the input directory (even if config file returns ""
          for these) *)
       (fun entry => negb (String.eqb entry "") && negb (String.eqb entry (dirs_input dirs)))
       (JsSet.toArray rawPaths)).

End EleventyFiles.

(** ** TemplateWriter.js: the incremental scheduler *)

Module TemplateWriter.

Import EleventyFiles.

(** Modelled from the spec: [Template] (Template.js, which extends
    [TemplateContent]) is not among the sources. A document carries a
    three-valued renderable override, [undefined] (render, the default),
    ["optional"] or [false] (skip), its resolved data and its cached render
    output; the flag set by [setDryRunViaIncremental] is kept as written. *)
Record Template : Type := {
  templateContent : TemplateContent.t;
  _renderableOverride : Js.value;
  _dataCache : option TemplateContent.Data;
  _renderCache : option string;
  isDryRunViaIncremental : option bool;
}.

Definition inputPath (tmpl : Template) : string :=
  TemplateContent.inputPath (templateContent tmpl).

(** Modelled from the spec: [setRenderableOverride] stores the override. *)
Definition setRenderableOverride (tmpl : Template) (renderableOverride : Js.value) : Template :=
  {| templateContent := templateContent tmpl;
     _renderableOverride := renderableOverride;
     _dataCache := _dataCache tmpl;
     _renderCache := _renderCache tmpl;
     isDryRunViaIncremental := isDryRunViaIncremental tmpl |}.

(** Modelled from the spec: the convenience predicates on the override;
    [false] is skip and ["optional"] is optional. *)
Definition isRenderableDisabled (tmpl : Template) : bool :=
  Js.strict_eq (_renderableOverride tmpl) (Js.Bool false).

Definition isRenderableOptional (tmpl : Template) : bool :=
  Js.strict_eq (_renderableOverride tmpl) (Js.Str "optional").

(** Modelled from the spec: [Template.resetCaches(kinds)] resets the kinds
    given, all three when none is given: [read] clears the cached raw
    content and parsed metadata (this is [TemplateContent.resetCaches]),
    [data] clears the resolved data, [render] drops the cached render
    output. *)
Definition resetCaches (tmpl : Template) (types : option TemplateContent.ResetTypesArg)
  : Template :=
  let kinds := TemplateContent.getResetTypes types in
  {| templateContent := TemplateContent.resetCaches (templateContent tmpl) types;
     _renderableOverride := _renderableOverride tmpl;
     _dataCache := if TemplateContent.reset_data kinds then None else _dataCache tmpl;
     _renderCache := if TemplateContent.reset_render kinds then None else _renderCache tmpl;
     isDryRunViaIncremental := isDryRunViaIncremental tmpl |}.

(** Modelled from the spec: [setDryRunViaIncremental] records the flag. *)
Definition setDryRunViaIncremental (tmpl : Template) (flag : bool) : Template :=
  {| templateContent := templateContent tmpl;
     _renderableOverride := _renderableOverride tmpl;
     _dataCache := _dataCache tmpl;
     _renderCache := _renderCache tmpl;
     isDryRunViaIncremental := Some flag |}.

(** [this.config.uses], the global dependency graph, by the two queries
    the scheduler makes, and [TemplatePath.addLeadingDotSlash]. *)
Record Uses : Type := {
  isFileUsedBy : Js.value -> string -> bool;
  getTemplatesRelevantToTemplateList : list string -> list string;
  addLeadingDotSlash : string -> string;
}.

(** The template instances are shared objects ([_templatePathCache] hands
    out the same instance for the same path): they live in a heap and the
    writer's arrays hold references. *)
Abbreviation Heap := (nat -> Template).

Record t : Type := {
  heap : Heap;
  incrementalFile : Js.value;
  isRunInitialBuild : bool;
  skippedCount : nat;
}.

Definition set_heap (this : t) (h : Heap) : t :=
  {| heap := h;
     incrementalFile := incrementalFile this;
     isRunInitialBuild := isRunInitialBuild this;
     skippedCount := skippedCount this |}.

Definition incrementSkippedCount (this : t) : t :=
  {| heap := heap this;
     incrementalFile := incrementalFile this;
     isRunInitialBuild := isRunInitialBuild this;
     skippedCount := S (skippedCount this) |}.

(** A method call on the template behind a reference. *)
Definition update (this : t) (tmpl : nat) (f : Template -> Template) : t :=
  set_heap this (<[tmpl := f (heap this tmpl)]> (heap this)).

(** [incrementalFileShape === "template" && tmpl.inputPath === this.incrementalFile]. *)
Definition isIncrementalFile (this : t) (incrementalFileShape : FileShape) (tmpl : nat) : bool :=
  isTemplateShape incrementalFileShape
  && Js.strict_eq (Js.Str (inputPath (heap this tmpl))) (incrementalFile this).

(** [tmpl.isFileRelevantToThisTemplate(this.incrementalFile,
    { isFullTemplate: incrementalFileShape === "template" })]. *)
Definition isRelevant (this : t) (incrementalFileShape : FileShape) (tmpl : nat) : except bool :=
  TemplateContent.isFileRelevantToThisTemplate
    (templateContent (heap this tmpl)) (incrementalFile this)
    {| TemplateContent.isFullTemplate := Js.Bool (isTemplateShape incrementalFileShape) |}.

(** Lines 258-260: always disable render for [--ignore-initial]. *)
Fixpoint disableAll (templates : list nat) (this : t) : t :=
  match templates with
  | [] => this
  | tmpl :: rest =>
      disableAll rest (update this tmpl (fun o => setRenderableOverride o (Js.Bool false)))
  end.

(** Lines 264-283: the renderable override of every template, and the
    lookup of the templates the changed file is relevant to. *)
Fixpoint classify (uses : Uses) (incrementalFileShape : FileShape) (templates : list nat)
    (this : t) (secondOrderRelevantLookup : JsObject.t) : except (t * JsObject.t) :=
  match templates with
  | [] => Ok (this, secondOrderRelevantLookup)
  | tmpl :: rest =>
      if isIncrementalFile this incrementalFileShape tmpl then
        (* unset, probably render *)
        classify uses incrementalFileShape rest
          (update this tmpl (fun o => setRenderableOverride o Js.Undefined))
          secondOrderRelevantLookup
      else
        do relevant <- isRelevant this incrementalFileShape tmpl;
        if relevant then
          (* changed file is used by template *)
          classify uses incrementalFileShape rest
            (update this tmpl (fun o => setRenderableOverride o Js.Undefined))
            (JsObject.set secondOrderRelevantLookup (inputPath (heap this tmpl)))
        else if isFileUsedBy uses (incrementalFile this) (inputPath (heap this tmpl)) then
          (* changed file uses this template *)
          classify uses incrementalFileShape rest
            (update this tmpl (fun o => setRenderableOverride o (Js.Str "optional")))
            secondOrderRelevantLookup
        else
          (* For incremental, always disable render on irrelevant templates *)
          classify uses incrementalFileShape rest
            (update this tmpl (fun o => setRenderableOverride o (Js.Bool false)))
            secondOrderRelevantLookup
  end.

(** Lines 285-290: the lookup of second-order templates. *)
Definition secondOrderTemplates (uses : Uses) (secondOrderRelevantLookup : JsObject.t)
  : JsObject.t :=
  let secondOrderRelevantArray :=
    List.map (addLeadingDotSlash uses)
      (getTemplatesRelevantToTemplateList uses (JsObject.keys secondOrderRelevantLookup)) in
  JsObject.fromEntries secondOrderRelevantArray.

(** Lines 292-299: second order templates must also be rendered if not yet
    already rendered at least once and available in cache. *)
Fixpoint upgradeSecondOrder (secondOrderTemplates : JsObject.t) (templates : list nat)
    (this : t) : t :=
  match templates with
  | [] => this
  | tmpl :: rest =>
      if JsObject.getTruthy secondOrderTemplates (inputPath (heap this tmpl)) then
        if isRenderableDisabled (heap this tmpl) then
          upgradeSecondOrder secondOrderTemplates rest
            (update this tmpl (fun o => setRenderableOverride o (Js.Str "optional")))
        else upgradeSecondOrder secondOrderTemplates rest this
      else upgradeSecondOrder secondOrderTemplates rest this
  end.

Definition dataAndRender : option TemplateContent.ResetTypesArg :=
  Some {| TemplateContent.arg_data := Some true;
          TemplateContent.arg_read := None;
          TemplateContent.arg_render := Some true |}.

Definition dataOnly : option TemplateContent.ResetTypesArg :=
  Some {| TemplateContent.arg_data := Some true;
          TemplateContent.arg_read := None;
          TemplateContent.arg_render := None |}.

(** Lines 302-325: the caches to reset and the dry-run flag, by final state. *)
Fixpoint resetByState (incrementalFileShape : FileShape) (templates : list nat) (this : t) : t :=
  match templates with
  | [] => this
  | tmpl :: rest =>
      if isIncrementalFile this incrementalFileShape tmpl then
        (* Cache is reset above (to invalidate data cache at the right time) *)
        resetByState incrementalFileShape rest
          (update this tmpl (fun o => setDryRunViaIncremental o false))
      else if negb (isRenderableDisabled (heap this tmpl))
              && negb (isRenderableOptional (heap this tmpl)) then
        (* Related to the template but not the template
           (reset the render cache, not the read cache) *)
        resetByState incrementalFileShape rest
          (update this tmpl
             (fun o => setDryRunViaIncremental (resetCaches o dataAndRender) false))
      else
        (* During incremental we only reset the data cache for non-matching
           templates. Keep caches for read/render *)
        resetByState incrementalFileShape rest
          (incrementSkippedCount
             (update this tmpl
                (fun o => setDryRunViaIncremental (resetCaches o dataOnly) true)))
  end.

(** Lines 231-240, in the first loop: before the data of a template is
    generated, all caches of the changed file, and of a template the
    changed file is relevant to, are reset. *)
Definition resetBeforeData (this : t) (incrementalFileShape : FileShape) (tmpl : nat)
  : except t :=
  if isIncrementalFile this incrementalFileShape tmpl then
    Ok (update this tmpl (fun o => resetCaches o None))
  else
    do relevant <- isRelevant this incrementalFileShape tmpl;
    if relevant then Ok (update this tmpl (fun o => resetCaches o None))
    else Ok this.

(** [_addToTemplateMapIncrementalBuild(incrementalFileShape, paths, to)]
    from line 256 on. [templates] is the array built by the first loop,
    which creates (or takes from [_templatePathCache]) the template of each
    path, initializes it, resets its caches as in [resetBeforeData]
    and adds it to the template map, where its data is generated; after
    the loop the relationships have been written to [uses]. A call that
    throws is modelled by the exception alone. *)
Definition _addToTemplateMapIncrementalBuild (uses : Uses)
    (incrementalFileShape : FileShape) (templates : list nat) (this : t) : except t :=
  (* Render overrides are only used when `--ignore-initial` is in play and
     an initial build is not run *)
  let ignoreInitialBuild := negb (isRunInitialBuild this) in
  if ignoreInitialBuild then Ok (disableAll templates this)
  else
    do classified <- classify uses incrementalFileShape templates this JsObject.empty;
    let '(this, secondOrderRelevantLookup) := classified in
    let this :=
      upgradeSecondOrder (secondOrderTemplates uses secondOrderRelevantLookup) templates this in
    Ok (resetByState incrementalFileShape templates this).

(** [getFileShape(paths, incrementalFile)]: everything is a template when
    no [EleventyFiles] instance is set. *)
Definition getFileShape (eleventyFiles : option (list string -> Js.value -> bool))
    (paths : list string) (incrementalFile : Js.value) : FileShape :=
  match eleventyFiles with
  | None => ShapeTemplate
  | Some isPassthroughCopyFile =>
      EleventyFiles.getFileShape isPassthroughCopyFile paths incrementalFile
  end.

(** *** The loops in closed form

    What each loop of the scheduler does to one document, and the tests it
    makes, as functions of the document. *)

(** The template render of the document has been initialized (the first
    loop awaits [asyncTemplateInitialization] for this). *)
Definition initialized (o : Template) : Prop :=
  TemplateContent._templateRender (templateContent o) <> None.

(** The tests of the loops, on the document itself. *)
Definition isChanged (file : Js.value) (shape : FileShape) (doc : TemplateContent.t) : bool :=
  isTemplateShape shape && Js.strict_eq (Js.Str (TemplateContent.inputPath doc)) file.

Definition relevantTo (file : Js.value) (shape : FileShape) (doc : TemplateContent.t)
  : except bool :=
  TemplateContent.isFileRelevantToThisTemplate doc file
    {| TemplateContent.isFullTemplate := Js.Bool (isTemplateShape shape) |}.

(** The override the classification gives a document. *)
Definition decision (uses : Uses) (file : Js.value) (shape : FileShape)
    (doc : TemplateContent.t) : Js.value :=
  if isChanged file shape doc then Js.Undefined
  else match relevantTo file shape doc with
       | Ok false =>
           if isFileUsedBy uses file (TemplateContent.inputPath doc)
           then Js.Str "optional" else Js.Bool false
       | _ => Js.Undefined
       end.

(** The documents recorded in [secondOrderRelevantLookup]. *)
Definition firstOrder (file : Js.value) (shape : FileShape) (doc : TemplateContent.t) : bool :=
  negb (isChanged file shape doc)
  && match relevantTo file shape doc with Ok true => true | _ => false end.

(** The fields of the writer a heap update leaves alone. *)
Definition sameWriter (this this' : t) : Prop :=
  incrementalFile this' = incrementalFile this
  /\ isRunInitialBuild this' = isRunInitialBuild this
  /\ skippedCount this' = skippedCount this.

Definition classified (uses : Uses) (file : Js.value) (shape : FileShape) (o : Template)
  : Template :=
  setRenderableOverride o (decision uses file shape (templateContent o)).

Definition upgraded (secondOrderTemplates : JsObject.t) (o : Template) : Template :=
  if JsObject.getTruthy secondOrderTemplates (inputPath o) && isRenderableDisabled o
  then setRenderableOverride o (Js.Str "optional")
  else o.

Definition isRenderState (o : Template) : bool :=
  negb (isRenderableDisabled o) && negb (isRenderableOptional o).

(** What the third loop does to a document. *)
Definition resetFor (file : Js.value) (shape : FileShape) (o : Template) : Template :=
  if isChanged file shape (templateContent o) then setDryRunViaIncremental o false
  else if isRenderState o
       then setDryRunViaIncremental (resetCaches o dataAndRender) false
       else setDryRunViaIncremental (resetCaches o dataOnly) true.

(** The visits that count as skipped. *)
Definition countsAsSkipped (file : Js.value) (shape : FileShape) (o : Template) : bool :=
  negb (isChanged file shape (templateContent o)) && negb (isRenderState o).

(** *** generateTemplates *)

Record Page : Type := {
  outputPath : string;
}.

(** An entry of [this.templateMap.getMap()]; [mapEntry_outputPath] is what
    [mapEntry.outputPath] prints as in a template literal. *)
Record MapEntry : Type := {
  mapEntry_inputPath : string;
  mapEntry_outputPath : string;
  _pages : list Page;
}.

(** [_generateTemplate(mapEntry, to)] by what its promise settles to at
    its n-th call, and [EleventyErrorUtil.isPrematureTemplateContentError]. *)
Record Generator : Type := {
  generateMapEntry : nat -> MapEntry -> except (list Page);
  isPrematureTemplateContentError : error -> bool;
}.

(** What a promise of the returned array settles to; a handler that
    returns nothing fulfills it with [undefined]. *)
Inductive Settled : Type :=
| Fulfilled (pages : option (list Page))
| Rejected (e : error).

(** The callback given to [catch] in the first and in the second loop,
    waiting for the promise of [_generateTemplate] it is attached to. A
    callback of a promise never runs before the code that attached it has
    run to completion: it is a job of its own. *)
Inductive Reaction : Type :=
| FirstPass (promise : nat) (mapEntry : MapEntry) (outcome : except (list Page))
| SecondPass (promise : nat) (mapEntry : MapEntry) (outcome : except (list Page)).

Record Generation : Type := {
  usedTemplateContentTooEarlyMap : list MapEntry;
  generated : list MapEntry;         (* the calls of [_generateTemplate], in order *)
  reactions : list Reaction;         (* the jobs waiting to run *)
  promises : list (option Settled);  (* the array returned; [None] while pending *)
}.

Definition emptyGeneration : Generation :=
  {| usedTemplateContentTooEarlyMap := [];
     generated := [];
     reactions := [];
     promises := [] |}.

(** [promises.push(this._generateTemplate(mapEntry, to).catch(handler))]. *)
Definition pushGenerate (g : Generator)
    (handler : nat -> MapEntry -> except (list Page) -> Reaction)
    (mapEntry : MapEntry) (st : Generation) : Generation :=
  let outcome := generateMapEntry g (length (generated st)) mapEntry in
  {| usedTemplateContentTooEarlyMap := usedTemplateContentTooEarlyMap st;
     generated := generated st ++ [mapEntry];
     reactions := reactions st ++ [handler (length (promises st)) mapEntry outcome];
     promises := promises st ++ [None] |}.

(** The first loop, over [this.templateMap.getMap()]. *)
Fixpoint firstLoop (g : Generator) (map : list MapEntry) (st : Generation) : Generation :=
  match map with
  | [] => st
  | mapEntry :: rest => firstLoop g rest (pushGenerate g FirstPass mapEntry st)
  end.

(** The second loop, over [usedTemplateContentTooEarlyMap]: its body never
    pushes to that array, so it visits the entries the array holds when
    the loop starts. *)
Fixpoint secondLoop (g : Generator) (tooEarly : list MapEntry) (st : Generation) : Generation :=
  match tooEarly with
  | [] => st
  | mapEntry :: rest => secondLoop g rest (pushGenerate g SecondPass mapEntry st)
  end.

(** [async generateTemplates(paths, to)] after
    [await this._createTemplateMap(paths, to)], up to [return promises]:
    there is no [await] between the two loops. *)
Definition generateTemplates_loops (g : Generator) (map : list MapEntry) : Generation :=
  let st := firstLoop g map emptyGeneration in
  secondLoop g (usedTemplateContentTooEarlyMap st) st.

Definition dquote : string := String (ascii_of_nat 34) EmptyString.

Definition settle (promise : nat) (s : Settled) (st : Generation) : Generation :=
  {| usedTemplateContentTooEarlyMap := usedTemplateContentTooEarlyMap st;
     generated := generated st;
     reactions := reactions st;
     promises := <[promise := Some s]> (promises st) |}.

Definition pushTooEarly (mapEntry : MapEntry) (st : Generation) : Generation :=
  {| usedTemplateContentTooEarlyMap := usedTemplateContentTooEarlyMap st ++ [mapEntry];
     generated := generated st;
     reactions := reactions st;
     promises := promises st |}.

(** One job: the [catch] callback on a rejection, the value passed
    through on fulfillment. *)
Definition runReaction (g : Generator) (r : Reaction) (st : Generation) : Generation :=
  match r with
  | FirstPass promise mapEntry (Ok pages) => settle promise (Fulfilled (Some pages)) st
  | FirstPass promise mapEntry (Throw e) =>
      (* Premature templateContent in layout render *)
      if isPrematureTemplateContentError g e then
        settle promise (Fulfilled None) (pushTooEarly mapEntry st)
      else
        let outputPaths :=
          dquote +:+ String.concat (dquote +:+ ", " +:+ dquote)
                       (List.map outputPath (_pages mapEntry)) +:+ dquote in
        settle promise
          (Rejected (EleventyTemplateError
             ("Having trouble writing to " +:+ outputPaths +:+ " from " +:+ dquote
                +:+ mapEntry_inputPath mapEntry +:+ dquote) e)) st
  | SecondPass promise mapEntry (Ok pages) => settle promise (Fulfilled (Some pages)) st
  | SecondPass promise mapEntry (Throw e) =>
      settle promise
        (Rejected (EleventyTemplateError
           ("Having trouble writing to (second pass) " +:+ dquote
              +:+ mapEntry_outputPath mapEntry +:+ dquote +:+ " from " +:+ dquote
              +:+ mapEntry_inputPath mapEntry +:+ dquote) e)) st
  end.

Fixpoint runReactions (g : Generator) (queue : list Reaction) (st : Generation) : Generation :=
  match queue with
  | [] => st
  | r :: rest => runReactions g rest (runReaction g r st)
  end.

(** [generateTemplates] and then every job it left behind, as
    [Promise.all(await this.generateTemplates(paths))] waits for them. *)
Definition generateTemplates (g : Generator) (map : list MapEntry) : Generation :=
  let st := generateTemplates_loops g map in
  runReactions g (reactions st)
    {| usedTemplateContentTooEarlyMap := usedTemplateContentTooEarlyMap st;
       generated := generated st;
       reactions := [];
       promises := promises st |}.

(** What the [catch] callback of the first loop makes of the outcome of a
    render, in closed form. *)
Definition firstPassMessage (mapEntry : MapEntry) : string :=
  "Having trouble writing to "
    +:+ (dquote +:+ String.concat (dquote +:+ ", " +:+ dquote)
                      (List.map outputPath (_pages mapEntry)) +:+ dquote)
    +:+ " from " +:+ dquote +:+ mapEntry_inputPath mapEntry +:+ dquote.

Definition firstPassSettled (g : Generator) (mapEntry : MapEntry)
    (outcome : except (list Page)) : Settled :=
  match outcome with
  | Ok pages => Fulfilled (Some pages)
  | Throw e =>
      if isPrematureTemplateContentError g e then Fulfilled None
      else Rejected (EleventyTemplateError (firstPassMessage mapEntry) e)
  end.

(** *** writeTemplates and getJSON *)

(** The promises of the array settle one after the other, each when its
    render does: [settledAt i] is the time at which the promise at position
    [i] settles. What a promise settles to is decided by its own render
    alone, whatever the order. *)

(** The rejected promise that settled first, with the time it settled at;
    [i] is the position of the head of [promises] in the array. *)
Fixpoint firstRejected (settledAt : nat -> nat) (i : nat) (promises : list (option Settled))
  : option (nat * error) :=
  match promises with
  | [] => None
  | promise :: rest =>
      let later := firstRejected settledAt (S i) rest in
      match promise with
      | Some (Rejected e) =>
          match later with
          | Some (time, _) =>
              if (time <? settledAt i)%nat then later else Some (settledAt i, e)
          | None => Some (settledAt i, e)
          end
      | _ => later
      end
  end.

(** The values of the promises, in the order of the array, once every
    promise is fulfilled. *)
Fixpoint fulfilledValues (promises : list (option Settled))
  : option (list (option (list Page))) :=
  match promises with
  | [] => Some []
  | Some (Fulfilled value) :: rest =>
      match fulfilledValues rest with
      | Some values => Some (value :: values)
      | None => None
      end
  | _ => None
  end.

(** [Promise.all(promises)]: rejected with the reason of the promise that
    is rejected first in time, fulfilled with the values, in the order of
    the array, once every promise is fulfilled. [None] while the result is
    pending. *)
Definition promiseAll (settledAt : nat -> nat) (promises : list (option Settled))
  : option (except (list (option (list Page)))) :=
  match firstRejected settledAt 0 promises with
  | Some (_, e) => Some (Throw e)
  | None =>
      match fulfilledValues promises with
      | Some values => Some (Ok values)
      | None => None
      end
  end.

(** [templateResults.flat()]: the arrays of pages are spliced in, an
    [undefined] result stays an element. *)
Definition flat (templateResults : list (option (list Page))) : list (option Page) :=
  List.flat_map
    (fun result => match result with Some pages => List.map Some pages | None => [None] end)
    templateResults.

(** [.filter(Boolean)]: a page object is truthy, [undefined] is not. *)
Definition filterBoolean (results : list (option Page)) : list Page :=
  omap (fun result => result) results.

(** Lines 469-483 and 515-530: [writeTemplates()] and [getJSON(to)] once
    the template map exists, by the [templates] of the object the returned
    promise is fulfilled with, or the reason it is rejected with, when the
    renders settle at the times [settledAt]. *)
Definition writeTemplates (g : Generator) (settledAt : nat -> nat) (map : list MapEntry)
  : option (except (list Page)) :=
  match promiseAll settledAt (promises (generateTemplates g map)) with
  | Some (Ok templateResults) => Some (Ok (filterBoolean (flat templateResults)))
  | Some (Throw e) => Some (Throw e)
  | None => None
  end.

(** *** Paths *)

(** What [getPathsWithVirtualTemplates] reads: the own keys of
    [this.config.virtualTemplates] ([None] when that is falsy or no plain
    object), [this.dirs], [getKey] of [this.extensionMap] ([None] when no
    extension map has been set) and what [this.formats] prints as. *)
Record VirtualTemplates : Type := {
  config_virtualTemplates : option JsObject.t;
  dirs_isTemplateFile : string -> bool;
  dirs_getInputPath : string -> string;
  extensionMap_getKey : option (string -> Js.value);
  formats : string;
}.

(** [get extensionMap()] without an extension map. *)
Definition missingExtensionMap : error :=
  HostError "Internal error: missing `extensionMap` in TemplateWriter.".

Definition invalidFormat (setup : VirtualTemplates) (fullVirtualPath : string) : error :=
  HostError
    ("The virtual template at " +:+ fullVirtualPath
       +:+ " is using a template format that’s not valid for your project. Your project is using: "
       +:+ dquote +:+ formats setup +:+ dquote
       +:+ ". Read more about formats: https://v3.11ty.dev/docs/config/#template-formats").

Definition conflictError (path : string) : error :=
  HostError
    ("A virtual template had the same path as a file on the file system: "
       +:+ dquote +:+ path +:+ dquote).

(** Lines 137-145: the callback of [map], over the keys [filter] kept. *)
Fixpoint fullVirtualPaths (setup : VirtualTemplates) (keys : list string)
  : except (list string) :=
  match keys with
  | [] => Ok []
  | path :: rest =>
      let fullVirtualPath := dirs_getInputPath setup path in
      match extensionMap_getKey setup with
      | None => Throw missingExtensionMap
      | Some getKey =>
          if negb (Js.truthy (getKey fullVirtualPath)) then
            Throw (invalidFormat setup fullVirtualPath)
          else
            do rest <- fullVirtualPaths setup rest;
            Ok (fullVirtualPath :: rest)
      end
  end.

(** Lines 151-160: the loop over [paths] with the lookup [conflicts]. *)
Fixpoint findConflict (paths : list string) (conflicts : JsObject.t) : except unit :=
  match paths with
  | [] => Ok tt
  | path :: rest =>
      if JsObject.getTruthy conflicts path then Throw (conflictError path)
      else findConflict rest (JsObject.set conflicts path)
  end.

(** [getPathsWithVirtualTemplates(paths)]. *)
Definition getPathsWithVirtualTemplates (setup : VirtualTemplates) (paths : list string)
  : except (list string) :=
  (* Support for virtual templates added in 3.0 *)
  match config_virtualTemplates setup with
  | Some virtualTemplates =>
      do virtualTemplates <-
        fullVirtualPaths setup
          (* Filter out includes/layouts *)
          (List.filter (dirs_isTemplateFile setup) (JsObject.keys virtualTemplates));
      let paths := paths ++ virtualTemplates in
      (* Virtual templates can not live at the same place as files on the
         file system! *)
      if negb (length paths =? JsSet.size (JsSet.fromList paths))%nat then
        do _ <- findConflict paths JsObject.empty;
        Ok paths
      else Ok paths
  | None => Ok paths
  end.

Definition isCopyShape (shape : FileShape) : bool :=
  match shape with ShapeCopy => true | _ => false end.

(** Lines 368-378, in [_addToTemplateMap]: the callback of [paths.filter],
    which counts what it filters out for a passthrough copy file;
    [hasEngine] is [this.extensionMap.hasEngine]. *)
Fixpoint filterPaths (hasEngine : string -> bool) (incrementalFileShape : FileShape)
    (paths : list string) (this : t) : list string * t :=
  match paths with
  | [] => ([], this)
  | path :: rest =>
      if negb (hasEngine path) then filterPaths hasEngine incrementalFileShape rest this
      else if isCopyShape incrementalFileShape then
        (* Filters out templates if the incremental file is a passthrough
           copy file *)
        filterPaths hasEngine incrementalFileShape rest (incrementSkippedCount this)
      else
        let '(kept, this) := filterPaths hasEngine incrementalFileShape rest this in
        (path :: kept, this)
  end.

(** *** The full build *)






End TemplateWriter.

(** ** Util/Compatibility.js *)

Module Compatibility.

(** A word character of a regular expression, [[A-Za-z0-9_]]. *)
Definition isWordChar (c : ascii) : bool :=
  let n := nat_of_ascii c in
  ((48 <=? n)%nat && (n <=? 57)%nat) || ((65 <=? n)%nat && (n <=? 90)%nat)
  || ((97 <=? n)%nat && (n <=? 122)%nat) || (n =? 95)%nat.

(** [\b] after the [y] of [-canary]: the end of the input, or a character
    that is no word character. *)
Definition atWordBoundary (rest : string) : bool :=
  match rest with
  | EmptyString => true
  | String c _ => negb (isWordChar c)
  end.

Fixpoint stripPrefix (prefix s : string) : option string :=
  match prefix, s with
  | EmptyString, _ => Some s
  | String p prefix, String c s => if Ascii.eqb p c then stripPrefix prefix s else None
  | String _ _, EmptyString => None
  end.

(** A match of [NORMALIZE_PRERELEASE_REGEX], [/-canary\b/], at the start
    of [s]: what follows it. *)
Definition matchCanary (s : string) : option string :=
  match stripPrefix "-canary" s with
  | Some rest => if atWordBoundary rest then Some rest else None
  | None => None
  end.

(** [s.replace(/-canary\b/g, "-alpha")], scanning from the left; [skip]
    counts the characters of a match still to pass over. *)
Fixpoint replaceCanary (skip : nat) (s : string) : string :=
  match s with
  | EmptyString => EmptyString
  | String c rest =>
      match skip with
      | S skip => replaceCanary skip rest
      | O =>
          match matchCanary s with
          | Some _ => "-alpha" +:+ replaceCanary 6 rest
          | None => String c (replaceCanary 0 rest)
          end
      end
  end.

(** [static normalizeIdentifier(identifier)], for a string. *)
Definition normalizeIdentifier (identifier : string) : string :=
  replaceCanary 0 identifier.

(** [static satisfies(version, compatibleRange)]; [semver] is
    [semver.satisfies] with [includePrerelease: true]. *)
Definition satisfies (semver : string -> string -> bool)
    (version compatibleRange : string) : bool :=
  semver (normalizeIdentifier version) (normalizeIdentifier compatibleRange).

End Compatibility.

(** ** Sample inputs *)

Module Sample.

Import TemplateContent.

Definition noEntries : list ExtensionEntry := [].

(** An engine with dependency tracking: every changed file other than the
    layout is known not to be a dependency. *)
Definition liquid : Engine :=
  {| hasDependencies := fun _ => true;
     isFileRelevantTo := fun inputPath incrementalFile =>
       negb (String.eqb inputPath "./index.md")
       && Js.strict_eq incrementalFile (Js.Str "./_includes/layout.liquid");
     extensionEntries := noEntries;
     cacheable := true;
     getCompileCacheKey := fun str inputPath => (true, inputPath +:+ str);
     needsCompilation := fun _ => true;
     needsToReadFileContents := true |}.

Definition render : TemplateRender := {| engine_of := liquid; useMarkdown := true |}.

Definition config (uniqueId : string) (virtual : gmap string VirtualTemplate)
  : TemplateConfig :=
  {| _getUniqueId := uniqueId;
     useTemplateCache := true;
     frontMatterParsingOptions := None;
     virtualTemplates := virtual;
     getInputPathRelativeToInputDirectory := fun path => path |}.

Definition host : Host :=
  {| matter := fun _ _ _ => Ok {| data := []; content := "parsed"; excerpt := "" |};
     readFile := fun _ => Ok "# Hello";
     EOL := newline;
     trim := fun s => s;
     lodashSet := fun d _ _ => d;
     absolutePath := fun path => path;
     newTemplateRender := fun _ _ => Ok render;
     setEngineOverride := fun tr _ _ => Ok tr |}.

Definition statics : Statics :=
  {| _inputCache := ∅;
     _compileCache := ∅;
     promises := [];
     compileCacheHit := 0;
     compileCacheMiss := 0;
     matterCalls := [] |}.

(** A template whose render has been initialized. *)
Definition template (inputPath : string) (cfg : TemplateConfig) : t :=
  set_templateRender (new inputPath cfg) render.

(** A virtual template added without content, and one whose content is an
    object (a Buffer, say) instead of a string. *)
Definition withoutContent : t :=
  new "./virtual.md"
    (config "1" {[ "./virtual.md" := {| vt_content := Js.Undefined; vt_data := [] |} ]}).

Definition withBuffer : t :=
  new "./virtual.md"
    (config "1" {[ "./virtual.md" := {| vt_content := Js.Obj 0; vt_data := [] |} ]}).

(** A site of three documents: two posts, and an index that lists the
    posts. The posts use a layout; the uses graph knows that the index
    depends on the posts. *)
Definition uses : TemplateWriter.Uses :=
  {| TemplateWriter.isFileUsedBy := fun file path =>
       Js.strict_eq file (Js.Str "./another-post.md") && String.eqb path "./index.md";
     TemplateWriter.getTemplatesRelevantToTemplateList := fun paths =>
       if bool_decide ("./post.md" ∈ paths) then ["index.md"] else [];
     TemplateWriter.addLeadingDotSlash := fun path =>
       if String.prefix "./" path || String.prefix "../" path || String.prefix "/" path
       then path else "./" +:+ path |}.

Definition document (inputPath : string) : TemplateWriter.Template :=
  {| TemplateWriter.templateContent := template inputPath (config "1" ∅);
     TemplateWriter._renderableOverride := Js.Undefined;
     TemplateWriter._dataCache := Some [("title", Js.Str "cached")];
     TemplateWriter._renderCache := Some "<p>cached</p>";
     TemplateWriter.isDryRunViaIncremental := None |}.

Definition documents (ref : nat) : TemplateWriter.Template :=
  match ref with
  | 0 => document "./post.md"
  | 1 => document "./another-post.md"
  | _ => document "./index.md"
  end.

Definition writer (incrementalFile : Js.value) : TemplateWriter.t :=
  {| TemplateWriter.heap := documents;
     TemplateWriter.incrementalFile := incrementalFile;
     TemplateWriter.isRunInitialBuild := true;
     TemplateWriter.skippedCount := 0 |}.

(** A map entry whose render fails because it reads the content of a
    template that has not been rendered yet. *)
Definition prematureError : error :=
  HostError "Tried to use templateContent too early on ./index.md".

Definition prematureGenerator : TemplateWriter.Generator :=
  {| TemplateWriter.generateMapEntry := fun _ _ => Throw prematureError;
     TemplateWriter.isPrematureTemplateContentError := fun e =>
       match e with
       | HostError message => String.prefix "Tried to use templateContent too early" message
       | _ => false
       end |}.

Definition indexEntry : TemplateWriter.MapEntry :=
  {| TemplateWriter.mapEntry_inputPath := "./index.md";
     TemplateWriter.mapEntry_outputPath := "undefined";
     TemplateWriter._pages := [{| TemplateWriter.outputPath := "./_site/index.html" |}] |}.

(** The same host after the files have been edited. *)
Definition hostAfterEdit : Host :=
  {| matter := matter host;
     readFile := fun _ => Ok "# Changed";
     EOL := EOL host;
     trim := trim host;
     lodashSet := lodashSet host;
     absolutePath := absolutePath host;
     newTemplateRender := newTemplateRender host;
     setEngineOverride := setEngineOverride host |}.

(** A configuration with the template cache switched off. *)
Definition uncached : TemplateConfig :=
  {| _getUniqueId := "1";
     useTemplateCache := false;
     frontMatterParsingOptions := None;
     virtualTemplates := ∅;
     getInputPathRelativeToInputDirectory := fun path => path |}.

(** The writer of a watch that skips the initial build. *)
Definition watcher : TemplateWriter.t :=
  {| TemplateWriter.heap := documents;
     TemplateWriter.incrementalFile := Js.Str "./post.md";
     TemplateWriter.isRunInitialBuild := false;
     TemplateWriter.skippedCount := 0 |}.

(** A generator: the index reads the content of a post too early, one
    document cannot be rendered at all, the others render their pages. *)
Definition brokenError : error := HostError "unknown filter".

Definition mixedGenerator : TemplateWriter.Generator :=
  {| TemplateWriter.generateMapEntry := fun _ mapEntry =>
       if String.eqb (TemplateWriter.mapEntry_inputPath mapEntry) "./index.md"
       then Throw prematureError
       else if String.eqb (TemplateWriter.mapEntry_inputPath mapEntry) "./broken.md"
            then Throw brokenError
            else Ok (TemplateWriter._pages mapEntry);
     TemplateWriter.isPrematureTemplateContentError :=
       TemplateWriter.isPrematureTemplateContentError prematureGenerator |}.

Definition postEntry : TemplateWriter.MapEntry :=
  {| TemplateWriter.mapEntry_inputPath := "./post.md";
     TemplateWriter.mapEntry_outputPath := "undefined";
     TemplateWriter._pages := [{| TemplateWriter.outputPath := "./_site/post/index.html" |}] |}.

Definition brokenEntry : TemplateWriter.MapEntry :=
  {| TemplateWriter.mapEntry_inputPath := "./broken.md";
     TemplateWriter.mapEntry_outputPath := "undefined";
     TemplateWriter._pages := [{| TemplateWriter.outputPath := "./_site/broken/index.html" |}] |}.

(** A generator for which two documents cannot be rendered, each for a
    reason of its own. *)
Definition alsoBrokenError : error := HostError "unknown shortcode".

Definition failingGenerator : TemplateWriter.Generator :=
  {| TemplateWriter.generateMapEntry := fun _ mapEntry =>
       if String.eqb (TemplateWriter.mapEntry_inputPath mapEntry) "./broken.md"
       then Throw brokenError
       else if String.eqb (TemplateWriter.mapEntry_inputPath mapEntry) "./also-broken.md"
            then Throw alsoBrokenError
            else Ok (TemplateWriter._pages mapEntry);
     TemplateWriter.isPrematureTemplateContentError :=
       TemplateWriter.isPrematureTemplateContentError prematureGenerator |}.

Definition alsoBrokenEntry : TemplateWriter.MapEntry :=
  {| TemplateWriter.mapEntry_inputPath := "./also-broken.md";
     TemplateWriter.mapEntry_outputPath := "undefined";
     TemplateWriter._pages :=
       [{| TemplateWriter.outputPath := "./_site/also-broken/index.html" |}] |}.

(** A project with one virtual template and one virtual layout. *)
Definition virtualSetup : TemplateWriter.VirtualTemplates :=
  {| TemplateWriter.config_virtualTemplates := Some ["virtual.md"; "_includes/base.liquid"];
     TemplateWriter.dirs_isTemplateFile := fun path => negb (String.prefix "_includes/" path);
     TemplateWriter.dirs_getInputPath := fun path => "./" +:+ path;
     TemplateWriter.extensionMap_getKey := Some (fun _ => Js.Str "md");
     TemplateWriter.formats := "undefined" |}.

(** Ignore files in a project whose [node_modules] directory exists. *)
Definition ignoreEnv : EleventyFiles.IgnoreEnv :=
  {| EleventyFiles.env_trim := fun line => line;
     EleventyFiles.env_normalizePath := fun dir line => dir +:+ "/" +:+ line;
     EleventyFiles.env_relativePath := fun path => path;
     EleventyFiles.env_addLeadingDotSlash := fun path => path;
     EleventyFiles.env_isDirectory := fun path =>
       if String.eqb path "./node_modules" then Some true else None |}.

End Sample.

(** * Verification *)

(** ** The relevance test *)

Module RelevanceFacts.

Import TemplateContent.

(** The falsy values: what [!incrementalFile] accepts. *)
Lemma truthy_false_iff (v : Js.value) :
  Js.truthy v = false <->
  v = Js.Undefined \/ v = Js.Null \/ v = Js.NaN \/ v = Js.Bool false
  \/ v = Js.Num 0 \/ v = Js.Str "".
Proof.
  split.
  - destruct v as [| |b|n| |s|r]; simpl; intros H; auto.
    + destruct b; [discriminate | auto].
    + apply negb_false_iff, Z.eqb_eq in H. subst. auto 6.
    + apply negb_false_iff, String.eqb_eq in H. subst. auto 6.
    + discriminate.
  - intros [-> | [-> | [-> | [-> | [-> | ->]]]]]; reflexivity.
Qed.

Lemma anyIncrementalMatch_true_iff (entries : list ExtensionEntry)
    (this : IncrementalMatchThis) (incrementalFile : Js.value) :
  anyIncrementalMatch entries this incrementalFile = true <->
  exists entry f, In entry entries /\ isIncrementalMatch entry = Some f
                  /\ f this incrementalFile = true.
Proof.
  induction entries as [|entry rest IH]; simpl.
  - split; [discriminate | intros (? & ? & [] & _)].
  - destruct (isIncrementalMatch entry) as [f|] eqn:Hf.
    + destruct (f this incrementalFile) eqn:Hcall.
      * split; [|reflexivity]. intros _. exists entry, f. auto.
      * rewrite IH. split.
        -- intros (e & g & Hin & He & Hg). exists e, g. auto.
        -- intros (e & g & [<- | Hin] & He & Hg).
           ++ congruence.
           ++ exists e, g. auto.
    + rewrite IH. split.
      * intros (e & g & Hin & He & Hg). exists e, g. auto.
      * intros (e & g & [<- | Hin] & He & Hg).
        -- congruence.
        -- exists e, g. auto.
Qed.

Lemma filter_hasIncrementalMatch (entries : list ExtensionEntry) (entry : ExtensionEntry)
    (f : IncrementalMatchThis -> Js.value -> bool) :
  isIncrementalMatch entry = Some f ->
  In entry (List.filter hasIncrementalMatch entries) <-> In entry entries.
Proof.
  intros Hf. rewrite filter_In. unfold hasIncrementalMatch. rewrite Hf. tauto.
Qed.

(** C9. Whatever the template and the metadata, the relevance test returns
    [true] when the changed-file argument is falsy ([null], [undefined],
    the empty string, ...): without an incremental file everything is
    relevant. It does so before the engine is looked at, so also for a
    template whose render has not been initialized. *)
Theorem isFileRelevantToThisTemplate_without_incremental_file
    (this : t) (incrementalFile : Js.value) (metadata : Metadata) :
  Js.truthy incrementalFile = false ->
  isFileRelevantToThisTemplate this incrementalFile metadata = Ok true.
Proof.
  intros Hfalsy. unfold isFileRelevantToThisTemplate. now rewrite Hfalsy.
Qed.

Lemma isFileRelevantToThisTemplate_without_incremental_file_witness :
  Js.truthy Js.Null = false
  /\ isFileRelevantToThisTemplate (new "./index.md" (Sample.config "1" ∅)) Js.Null
       {| isFullTemplate := Js.Bool true |} = Ok true.
Proof.
  split; [reflexivity|].
  apply (isFileRelevantToThisTemplate_without_incremental_file
           (new "./index.md" (Sample.config "1" ∅)) Js.Null
           {| isFullTemplate := Js.Bool true |}).
  reflexivity.
Defined.

(** C5. For a template with an engine and a non-empty changed path: when no
    extension entry supplies [isIncrementalMatch], the test returns [true]
    if the engine says the template depends on the changed path, and also
    in the fallback case where the engine knows no dependencies for the
    changed path and the changed path is not a full template (and [false]
    otherwise); when some entry supplies [isIncrementalMatch], the result is
    [true] exactly when one of these entries matches. *)
Theorem isFileRelevantToThisTemplate_cases
    (this : t) (tr : TemplateRender) (incrementalFile : Js.value) (metadata : Metadata) :
  Js.truthy incrementalFile = true ->
  _templateRender this = Some tr ->
  let eng := engine_of tr in
  let result := isFileRelevantToThisTemplate this incrementalFile metadata in
  (List.filter hasIncrementalMatch (extensionEntries eng) = [] ->
     (isFileRelevantTo eng (inputPath this) incrementalFile = true -> result = Ok true)
     /\ (hasDependencies eng incrementalFile = false ->
         Js.truthy (isFullTemplate metadata) = false -> result = Ok true)
     /\ (isFileRelevantTo eng (inputPath this) incrementalFile = false ->
         hasDependencies eng incrementalFile = true
         \/ Js.truthy (isFullTemplate metadata) = true ->
         result = Ok false))
  /\ (List.filter hasIncrementalMatch (extensionEntries eng) <> [] ->
      exists b, result = Ok b
        /\ (b = true <->
            exists entry f, In entry (extensionEntries eng)
              /\ isIncrementalMatch entry = Some f
              /\ f (matchThis this eng incrementalFile metadata) incrementalFile = true)).
Proof.
  intros Htruthy Htr eng result. subst result.
  unfold isFileRelevantToThisTemplate, engine. rewrite Htruthy, Htr. simpl.
  fold eng. split.
  - intros ->. simpl. repeat split.
    + intros ->. reflexivity.
    + intros -> ->. now destruct (isFileRelevantTo eng _ _).
    + intros -> [-> | ->]; [reflexivity|].
      now rewrite andb_false_r.
  - intros Hne.
    destruct (List.filter hasIncrementalMatch (extensionEntries eng)) as [|e es] eqn:Hfilter;
      [congruence|]. simpl length. simpl negb. cbv iota.
    eexists. split; [reflexivity|].
    rewrite <- Hfilter. fold (matchThis this eng incrementalFile metadata).
    rewrite anyIncrementalMatch_true_iff. split.
    + intros (entry & f & Hin & Hf & Hcall). exists entry, f.
      rewrite (filter_hasIncrementalMatch _ _ _ Hf) in Hin. auto.
    + intros (entry & f & Hin & Hf & Hcall). exists entry, f.
      rewrite (filter_hasIncrementalMatch _ _ _ Hf). auto.
Qed.

Lemma isFileRelevantToThisTemplate_cases_witness :
  isFileRelevantToThisTemplate (Sample.template "./post.md" (Sample.config "1" ∅))
    (Js.Str "./_includes/layout.liquid") metadata_default = Ok true.
Proof.
  destruct (isFileRelevantToThisTemplate_cases
              (Sample.template "./post.md" (Sample.config "1" ∅)) Sample.render
              (Js.Str "./_includes/layout.liquid") metadata_default
              eq_refl eq_refl) as [Hfallback _].
  destruct (Hfallback eq_refl) as [Hdirect _].
  apply Hdirect. reflexivity.
Defined.

End RelevanceFacts.

(** ** Reading front matter *)

Module ReadFacts.

Import TemplateContent.

Lemma strict_eq_empty_string (v : Js.value) :
  Js.strict_eq v (Js.Str "") = true <-> v = Js.Str "".
Proof.
  destruct v as [| |b|n| |s|r]; simpl; try (split; [discriminate | congruence]).
  rewrite String.eqb_eq. split; congruence.
Qed.

(** Producing the input content never calls the parser. *)
Lemma getInputContent_matterCalls (host : Host) (this : t) (w : Statics) :
  matterCalls (getInputContent host this w).2 = matterCalls w.
Proof.
  unfold getInputContent.
  destruct (getTemplateRender host this) as [[tr this']|e]; [|reflexivity].
  destruct (needsToReadFileContents (engine_of tr)); [|reflexivity]. simpl.
  destruct (getVirtualTemplateDefinition this'); [reflexivity|].
  match goal with |- context [if ?c then _ else _] => destruct c end; [|reflexivity].
  destruct (readFile host (inputPath this')); [|reflexivity].
  simpl. now destruct (useTemplateCache (eleventyConfig this')).
Qed.

Lemma ensureInputContent_matterCalls (host : Host) (this : t) (w : Statics) :
  matterCalls (ensureInputContent host this w).2 = matterCalls w.
Proof.
  unfold ensureInputContent. destruct (inputContentMissing this); [|reflexivity].
  pose proof (getInputContent_matterCalls host this w) as H.
  destruct (getInputContent host this w) as [[settled this'] w']. exact H.
Qed.

(** [readContent] by the content it awaits. *)
Lemma readContent_falsy (host : Host) (this : t) (w : Statics) (content : Js.value) :
  awaitInputContent this = Ok content ->
  Js.truthy content = false -> content <> Js.Str "" ->
  readContent host this w = (Ok emptyFrontMatter, this, w).
Proof.
  intros Hawait Hfalsy Hne. unfold readContent. rewrite Hawait, Hfalsy.
  destruct (Js.strict_eq content (Js.Str "")) eqn:Heq; [|reflexivity].
  apply strict_eq_empty_string in Heq. contradiction.
Qed.

Lemma readContent_parses (host : Host) (this : t) (w : Statics) (content : Js.value) :
  awaitInputContent this = Ok content ->
  Js.truthy content = true \/ content = Js.Str "" ->
  matterCalls (readContent host this w).2 = (matterCalls w ++ [content])%list.
Proof.
  intros Hawait Hcontent. unfold readContent. rewrite Hawait.
  assert (Js.truthy content || Js.strict_eq content (Js.Str "") = true) as ->.
  { destruct Hcontent as [-> | ->]; reflexivity. }
  destruct (matter host content _ (inputPath this)); reflexivity.
Qed.

(** C10, as amended. When the input content of a template that has not
    been read yet resolves to a falsy value other than the empty string
    ([undefined], [null], [false], [0], [NaN]), [read()] resolves to
    [{ data: {}, content: "", excerpt: "" }] and the front-matter parser is
    not called; a truthy value or the empty string is passed to the parser. *)
Theorem read_without_content
    (host : Host) (this : t) (w : Statics) (content : Js.value) :
  readingPromise this = None ->
  awaitInputContent (ensureInputContent host this w).1 = Ok content ->
  (Js.truthy content = false -> content <> Js.Str "" ->
     (read host this w).1.1 = Ok emptyFrontMatter
     /\ matterCalls (read host this w).2 = matterCalls w)
  /\ (Js.truthy content = true \/ content = Js.Str "" ->
      matterCalls (read host this w).2 = (matterCalls w ++ [content])%list).
Proof.
  intros Hfresh Hawait. unfold read. rewrite Hfresh.
  pose proof (ensureInputContent_matterCalls host this w) as Hcalls.
  destruct (ensureInputContent host this w) as [this1 w1]. simpl in Hawait, Hcalls.
  split.
  - intros Hfalsy Hne.
    rewrite (readContent_falsy host this1 w1 content Hawait Hfalsy Hne). simpl. auto.
  - intros Hcontent.
    pose proof (readContent_parses host this1 w1 content Hawait Hcontent) as Hparse.
    destruct (readContent host this1 w1) as [[settled this2] w2]. simpl in *.
    now rewrite Hparse, Hcalls.
Qed.

Lemma read_without_content_witness :
  (read Sample.host Sample.withoutContent Sample.statics).1.1 = Ok emptyFrontMatter
  /\ matterCalls (read Sample.host Sample.withoutContent Sample.statics).2 = [].
Proof.
  destruct (read_without_content Sample.host Sample.withoutContent Sample.statics Js.Undefined
              eq_refl eq_refl) as [Hfalsy _].
  apply Hfalsy; [reflexivity | discriminate].
Defined.

(** C10 as stated fails: an input content that is not a string at all, but
    truthy, is passed to the front-matter parser, and [read()] resolves to
    what the parser returns. *)
Lemma read_parses_content_that_is_no_string :
  awaitInputContent (ensureInputContent Sample.host Sample.withBuffer Sample.statics).1
    = Ok (Js.Obj 0)
  /\ Js.is_string (Js.Obj 0) = false
  /\ matterCalls (read Sample.host Sample.withBuffer Sample.statics).2 = [Js.Obj 0]
  /\ (read Sample.host Sample.withBuffer Sample.statics).1.1 <> Ok emptyFrontMatter.
Proof.
  repeat split; try reflexivity. vm_compute. discriminate.
Qed.

End ReadFacts.

(** ** The compiled-template cache *)

Module CompileFacts.

Import TemplateContent.

Lemma length_append (s1 s2 : string) :
  String.length (s1 +:+ s2) = String.length s1 + String.length s2.
Proof. induction s1 as [|c s1 IH]; simpl; [reflexivity | now rewrite IH]. Qed.

(** Two keys built from the same engine key are equal only if the unique
    ids are. *)
Lemma append_inv_tail (s1 s2 k : string) : s1 +:+ k = s2 +:+ k -> s1 = s2.
Proof.
  revert s2. induction s1 as [|c1 s1 IH]; intros [|c2 s2] H.
  - reflexivity.
  - exfalso. change (k = String c2 (s2 +:+ k)) in H.
    apply (f_equal String.length) in H. simpl in H.
    rewrite (length_append s2 k) in H. lia.
  - exfalso. change (String c1 (s1 +:+ k) = k) in H.
    apply (f_equal String.length) in H. simpl in H.
    rewrite (length_append s1 k) in H. lia.
  - change (String c1 (s1 +:+ k) = String c2 (s2 +:+ k)) in H.
    injection H as -> H. f_equal. now apply IH.
Qed.

Lemma cacheGet_ensureMap (path path' key : string) (w : Statics) :
  cacheGet path' key (ensureMap path w) = cacheGet path' key w.
Proof.
  unfold ensureMap, cacheGet, inputPathMap.
  destruct (_compileCache w !! path) eqn:Hpath; [reflexivity|]. simpl.
  destruct (decide (path = path')) as [<-|Hne].
  - now rewrite lookup_insert_eq, Hpath.
  - now rewrite lookup_insert_ne.
Qed.

Lemma promises_ensureMap (path : string) (w : Statics) :
  promises (ensureMap path w) = promises w.
Proof. unfold ensureMap. now destruct (_compileCache w !! path). Qed.

Lemma _getCompileCache_eq (this : t) (eng : Engine) (str : string) (w : Statics) :
  engine this = Ok eng ->
  _getCompileCache this str w
  = (Ok (cacheable eng, cacheKey this eng str, usesCache this eng str),
     ensureMap (inputPath this) w).
Proof.
  intros Heng. unfold _getCompileCache. now rewrite Heng.
Qed.

Lemma cacheGet_cacheSet (path key : string) (promise : nat) (w : Statics) :
  cacheGet path key (cacheSet path key promise w) = Some promise.
Proof.
  unfold cacheGet, cacheSet, inputPathMap. simpl.
  now rewrite lookup_insert_eq; simpl; rewrite lookup_insert_eq.
Qed.

Lemma cacheGet_cacheSet_ne (path key path' key' : string) (promise : nat) (w : Statics) :
  (path, key) <> (path', key') ->
  cacheGet path' key' (cacheSet path key promise w) = cacheGet path' key' w.
Proof.
  intros Hne. unfold cacheGet, cacheSet, inputPathMap. simpl.
  destruct (decide (path = path')) as [<-|Hpath].
  - rewrite lookup_insert_eq. simpl. rewrite lookup_insert_ne; [reflexivity|congruence].
  - now rewrite lookup_insert_ne.
Qed.

Lemma cacheGet_cacheDelete (path key : string) (w : Statics) :
  cacheGet path key (cacheDelete path key w) = None.
Proof.
  unfold cacheGet, cacheDelete, inputPathMap. simpl.
  now rewrite lookup_insert_eq; simpl; rewrite lookup_delete_eq.
Qed.

Lemma cacheGet_cacheDelete_ne (path key path' key' : string) (w : Statics) :
  (path, key) <> (path', key') ->
  cacheGet path' key' (cacheDelete path key w) = cacheGet path' key' w.
Proof.
  intros Hne. unfold cacheGet, cacheDelete, inputPathMap. simpl.
  destruct (decide (path = path')) as [<-|Hpath].
  - rewrite lookup_insert_eq. simpl. rewrite lookup_delete_ne; [reflexivity|congruence].
  - now rewrite lookup_insert_ne.
Qed.

Lemma ensureMap_cacheSet (path key : string) (promise : nat) (w : Statics) :
  ensureMap path (cacheSet path key promise w) = cacheSet path key promise w.
Proof. unfold ensureMap, cacheSet. simpl. now rewrite lookup_insert_eq. Qed.

Lemma ensureMap_cacheDelete (path key : string) (w : Statics) :
  ensureMap path (cacheDelete path key w) = cacheDelete path key w.
Proof. unfold ensureMap, cacheDelete. simpl. now rewrite lookup_insert_eq. Qed.

Lemma ensureMap_resolve (path : string) (promise : nat) (fn : CompiledFn) (w : Statics) :
  ensureMap path w = w -> ensureMap path (resolve promise fn w) = resolve promise fn w.
Proof.
  unfold ensureMap, resolve. intros H.
  destruct (promises w !! promise) as [[|]|]; try exact H. simpl.
  destruct (_compileCache w !! path); [reflexivity|].
  apply (f_equal _compileCache) in H. simpl in H. now rewrite H at 1.
Qed.

Lemma cacheGet_resolve (path key : string) (promise : nat) (fn : CompiledFn) (w : Statics) :
  cacheGet path key (resolve promise fn w) = cacheGet path key w.
Proof. unfold resolve. now destruct (promises w !! promise) as [[|]|]. Qed.

(** The [try] block of a request that may use the cache. *)
Lemma compile_try_eq (this : t) (eng : Engine) (str : string) (w : Statics) :
  engine this = Ok eng ->
  useTemplateCache (eleventyConfig this) = true ->
  cacheable eng = true ->
  keyTruthy (cacheKey this eng str) = true ->
  let w0 := ensureMap (inputPath this) w in
  let key := cacheKey this eng str in
  compile_try this str w =
  match (if usesCache this eng str then cacheGet (inputPath this) key w0 else None) with
  | Some promise => (Ok (ReturnCached promise), incrementHit w0)
  | None =>
      (Ok (AwaitCompiledTemplate (Some (length (promises w0)))),
       cacheSet (inputPath this) key (length (promises w0))
         (set_promises (incrementMiss w0) (promises w0 ++ [Pending])))
  end.
Proof.
  intros Heng Hcfg Hcacheable Hkey. unfold compile_try.
  rewrite Hcfg, (_getCompileCache_eq this eng str w Heng), Hcacheable, Hkey. simpl.
  destruct (usesCache this eng str); [|reflexivity].
  now destruct (cacheGet _ _ _).
Qed.

Lemma cacheGet_placeholder_state (path key : string) (w : Statics) (ps : list PromiseState) :
  cacheGet path key (set_promises (incrementMiss w) ps) = cacheGet path key w.
Proof. reflexivity. Qed.

Lemma compile_try_miss (this : t) (eng : Engine) (str : string) (w : Statics) :
  engine this = Ok eng ->
  useTemplateCache (eleventyConfig this) = true ->
  cacheable eng = true ->
  keyTruthy (cacheKey this eng str) = true ->
  cacheGet (inputPath this) (cacheKey this eng str) w = None ->
  compile_try this str w =
  (Ok (AwaitCompiledTemplate (Some (length (promises w)))),
   cacheSet (inputPath this) (cacheKey this eng str) (length (promises w))
     (set_promises (incrementMiss (ensureMap (inputPath this) w))
        (promises w ++ [Pending]))).
Proof.
  intros Heng Hcfg Hcacheable Hkey Hnone.
  rewrite (compile_try_eq this eng str w Heng Hcfg Hcacheable Hkey).
  rewrite cacheGet_ensureMap, Hnone, promises_ensureMap.
  now destruct (usesCache this eng str).
Qed.

Lemma compile_try_hit (this : t) (eng : Engine) (str : string) (w : Statics) (promise : nat) :
  engine this = Ok eng ->
  useTemplateCache (eleventyConfig this) = true ->
  cacheable eng = true ->
  keyTruthy (cacheKey this eng str) = true ->
  usesCache this eng str = true ->
  cacheGet (inputPath this) (cacheKey this eng str) w = Some promise ->
  compile_try this str w
  = (Ok (ReturnCached promise), incrementHit (ensureMap (inputPath this) w)).
Proof.
  intros Heng Hcfg Hcacheable Hkey Huses Hsome.
  rewrite (compile_try_eq this eng str w Heng Hcfg Hcacheable Hkey).
  now rewrite cacheGet_ensureMap, Hsome, Huses.
Qed.

(** A request that stored a placeholder was allowed to, and had found none. *)
Lemma compile_try_placeholder (this : t) (str : string) (w w1 : Statics) (res : nat) :
  compile_try this str w = (Ok (AwaitCompiledTemplate (Some res)), w1) ->
  exists eng,
    engine this = Ok eng
    /\ useTemplateCache (eleventyConfig this) = true
    /\ cacheable eng = true
    /\ keyTruthy (cacheKey this eng str) = true
    /\ res = length (promises w)
    /\ w1 = cacheSet (inputPath this) (cacheKey this eng str) res
              (set_promises (incrementMiss (ensureMap (inputPath this) w))
                 (promises w ++ [Pending])).
Proof.
  intros H.
  destruct (useTemplateCache (eleventyConfig this)) eqn:Hcfg;
    [|unfold compile_try in H; rewrite Hcfg in H; discriminate].
  destruct (engine this) as [eng|e] eqn:Heng.
  - exists eng.
    destruct (cacheable eng) eqn:Hcacheable, (keyTruthy (cacheKey this eng str)) eqn:Hkey;
      try (unfold compile_try in H;
           rewrite Hcfg, (_getCompileCache_eq this eng str w Heng), Hcacheable, Hkey in H;
           simpl in H; discriminate).
    rewrite (compile_try_eq this eng str w Heng Hcfg Hcacheable Hkey) in H.
    rewrite promises_ensureMap in H.
    destruct (if usesCache this eng str then _ else _); [discriminate|].
    injection H as <- <-. repeat split; reflexivity.
  - unfold compile_try, _getCompileCache in H. rewrite Hcfg, Heng in H.
    destruct (compile_catch this str e (ensureMap (inputPath this) w)). discriminate.
Qed.

(** What a call of [compile] that did not fail before its [try] block did. *)
Lemma compile_start_inv (host : Host) (this this1 : t) (str : string)
    (bypassMarkdown : bool) (engineOverride : Js.value) (w w1 : Statics)
    (step : CompileStep) :
  compile_start host this str bypassMarkdown engineOverride w = (Ok step, this1, w1) ->
  exists tr0 this0 tr1,
    getTemplateRender host this = Ok (tr0, this0)
    /\ applyEngineOverride host tr0 bypassMarkdown engineOverride = Ok tr1
    /\ this1 = set_templateRender this0 tr1
    /\ (if bypassMarkdown && negb (needsCompilation (engine_of tr1) str)
        then step = Return (ReturnsStr str) /\ w1 = w
        else compile_try this1 str w = (Ok step, w1)).
Proof.
  unfold compile_start. intros H.
  destruct (getTemplateRender host this) as [[tr0 this0]|e] eqn:Hrender; [|discriminate].
  destruct (applyEngineOverride host tr0 bypassMarkdown engineOverride) as [tr1|e] eqn:Hover;
    [|discriminate].
  exists tr0, this0, tr1.
  destruct (bypassMarkdown && negb (needsCompilation (engine_of tr1) str)).
  - injection H as <- <- <-. repeat split; first [assumption | reflexivity].
  - destruct (compile_try (set_templateRender this0 tr1) str w) as [r w'] eqn:Htry.
    injection H as -> <- <-. repeat split; first [assumption | reflexivity].
Qed.

(** Asking again for an engine that is already in place changes nothing. *)
Lemma applyEngineOverride_idempotent (host : Host) (tr0 tr1 : TemplateRender)
    (bypassMarkdown : bool) (engineOverride : Js.value) :
  (Js.strict_eq engineOverride Js.Undefined = false ->
   forall tr tr', setEngineOverride host tr engineOverride bypassMarkdown = Ok tr' ->
                  setEngineOverride host tr' engineOverride bypassMarkdown = Ok tr') ->
  applyEngineOverride host tr0 bypassMarkdown engineOverride = Ok tr1 ->
  applyEngineOverride host tr1 bypassMarkdown engineOverride = Ok tr1.
Proof.
  unfold applyEngineOverride. intros Hidem.
  destruct (Js.strict_eq engineOverride Js.Undefined); simpl.
  - intros [= <-]. reflexivity.
  - intros H. now apply (Hidem eq_refl tr0).
Qed.

Lemma compile_start_again (host : Host) (this0 : t) (tr1 : TemplateRender) (str : string)
    (bypassMarkdown : bool) (engineOverride : Js.value) (w : Statics) :
  let this1 := set_templateRender this0 tr1 in
  applyEngineOverride host tr1 bypassMarkdown engineOverride = Ok tr1 ->
  bypassMarkdown && negb (needsCompilation (engine_of tr1) str) = false ->
  compile_start host this1 str bypassMarkdown engineOverride w
  = ((compile_try this1 str w).1, this1, (compile_try this1 str w).2).
Proof.
  intros this1 Hoverride Hbypass. unfold compile_start, getTemplateRender. simpl.
  rewrite Hoverride, Hbypass.
  change (set_templateRender this1 tr1) with this1.
  now destruct (compile_try this1 str w).
Qed.

Lemma promises_cacheSet (path key : string) (promise : nat) (w : Statics) :
  promises (cacheSet path key promise w) = promises w.
Proof. reflexivity. Qed.

Lemma promises_cacheDelete (path key : string) (w : Statics) :
  promises (cacheDelete path key w) = promises w.
Proof. reflexivity. Qed.

(** C6. A request that is allowed to cache and finds nothing cached stores
    a pending placeholder promise under its key before the compilation has
    finished; a request for the same key that comes in meanwhile is
    answered with that same promise; and when the compilation fails the
    entry is deleted, the failure is reported as a compile error, and the
    next request for the key compiles again (under a new placeholder). *)
Theorem compile_placeholder_shared_and_removed_on_failure
    (host : Host) (this this1 : t) (str : string) (bypassMarkdown : bool)
    (engineOverride : Js.value) (w w1 : Statics) (res : nat) :
  compile_start host this str bypassMarkdown engineOverride w
    = (Ok (AwaitCompiledTemplate (Some res)), this1, w1) ->
  (Js.strict_eq engineOverride Js.Undefined = false ->
   forall tr tr', setEngineOverride host tr engineOverride bypassMarkdown = Ok tr' ->
                  setEngineOverride host tr' engineOverride bypassMarkdown = Ok tr') ->
  exists eng,
    engine this1 = Ok eng
    /\ let key := cacheKey this1 eng str in
       cacheGet (inputPath this1) key w1 = Some res
       /\ promises w1 !! res = Some Pending
       /\ promises w !! res = None
       /\ (usesCache this1 eng str = true ->
           compile_start host this1 str bypassMarkdown engineOverride w1
             = (Ok (ReturnCached res), this1, incrementHit w1))
       /\ (forall e, exists w2,
             compile_finish this1 str (Some res) (Throw e) w1
               = (Throw (TemplateContentCompileError (compileErrorMessage this1) e), w2)
             /\ cacheGet (inputPath this1) key w2 = None
             /\ exists res' w3,
                  compile_start host this1 str bypassMarkdown engineOverride w2
                    = (Ok (AwaitCompiledTemplate (Some res')), this1, w3)
                  /\ res' <> res
                  /\ cacheGet (inputPath this1) key w3 = Some res').
Proof.
  intros Hstart Hidem.
  destruct (compile_start_inv _ _ _ _ _ _ _ _ _ Hstart)
    as (tr0 & this0 & tr1 & Hrender & Hover & -> & Hbranch).
  destruct (bypassMarkdown && negb (needsCompilation (engine_of tr1) str)) eqn:Hbypass;
    [destruct Hbranch; discriminate|].
  destruct (compile_try_placeholder _ _ _ _ _ Hbranch)
    as (eng & Heng & Hcfg & Hcacheable & Hkey & -> & Hw1).
  pose proof (applyEngineOverride_idempotent _ _ _ _ _ Hidem Hover) as Hagain.
  exists eng. split; [exact Heng|]. cbv zeta.
  set (this1 := set_templateRender this0 tr1) in *.
  assert (ensureMap (inputPath this1) w1 = w1) as Hmap
    by (rewrite Hw1; apply ensureMap_cacheSet).
  assert (cacheGet (inputPath this1) (cacheKey this1 eng str) w1
          = Some (length (promises w))) as Hget
    by (rewrite Hw1; apply cacheGet_cacheSet).
  assert (promises w1 = promises w ++ [Pending])%list as Hpromises
    by (rewrite Hw1; reflexivity).
  split; [exact Hget|].
  split; [rewrite Hpromises; now apply list_lookup_middle|].
  split; [now apply lookup_ge_None_2|].
  split.
  - intros Huses.
    rewrite (compile_start_again host this0 tr1 str _ _ _ Hagain Hbypass).
    fold this1.
    rewrite (compile_try_eq this1 eng str _ Heng Hcfg Hcacheable Hkey).
    rewrite Hmap, Huses, Hget. reflexivity.
  - intros e.
    exists (cacheDelete (inputPath this1) (cacheKey this1 eng str) w1). split.
    { unfold compile_finish, compile_catch.
      rewrite (_getCompileCache_eq this1 eng str _ Heng), Hcacheable, Hkey, Hmap.
      reflexivity. }
    split; [apply cacheGet_cacheDelete|].
    eexists _, _. split.
    { rewrite (compile_start_again host this0 tr1 str _ _ _ Hagain Hbypass).
      fold this1.
      rewrite (compile_try_eq this1 eng str _ Heng Hcfg Hcacheable Hkey).
      rewrite ensureMap_cacheDelete, cacheGet_cacheDelete.
      assert ((if usesCache this1 eng str then None else None) = @None nat) as ->
        by now destruct (usesCache this1 eng str).
      reflexivity. }
    split.
    { rewrite promises_cacheDelete, Hpromises, length_app. simpl. lia. }
    apply cacheGet_cacheSet.
Qed.

Lemma compile_placeholder_shared_and_removed_on_failure_witness :
  let this := new "./index.md" (Sample.config "1" ∅) in
  let started := compile_start Sample.host this "# Hello" false Js.Undefined Sample.statics in
  exists eng,
    engine started.1.2 = Ok eng
    /\ cacheGet "./index.md" (cacheKey started.1.2 eng "# Hello") started.2 = Some 0
    /\ TemplateContent.promises started.2 !! 0 = Some Pending.
Proof.
  intros this started.
  destruct (compile_placeholder_shared_and_removed_on_failure
              Sample.host this started.1.2 "# Hello" false Js.Undefined
              Sample.statics started.2 0)
    as (eng & Heng & Hget & Hpending & _).
  - reflexivity.
  - intros Hoverride. discriminate Hoverride.
  - exists eng. auto.
Defined.

Lemma insert_last {A} (l : list A) (x y : A) (n : nat) :
  n = length l -> <[n := y]> (l ++ [x]) = (l ++ [y])%list.
Proof.
  intros ->. rewrite insert_app_r_alt by lia. now rewrite Nat.sub_diag.
Qed.

Lemma promises_resolve_pending (promise : nat) (fn : CompiledFn) (w : Statics) :
  promises w !! promise = Some Pending ->
  promises (resolve promise fn w) = <[promise := Resolved fn]> (promises w).
Proof. intros H. unfold resolve. now rewrite H. Qed.

(** The state after a compilation that stored placeholder [res] has
    resolved it with [fn]. *)
Lemma compile_finish_ok (this : t) (str : string) (res : nat) (fn : CompiledFn)
    (w : Statics) :
  useTemplateCache (eleventyConfig this) = true ->
  compile_finish this str (Some res) (Ok fn) w = (Ok fn, resolve res fn w).
Proof. intros H. unfold compile_finish. now rewrite H. Qed.

(** C7. The key under which a compiled function is cached is the unique id
    of the configuration followed by the engine's key. After a document has
    been compiled once, compiling the same content again under the same
    configuration returns the cached promise, resolved to the function of
    the first compilation; compiling it under a configuration with another
    unique id (same document, same engine, nothing cached for it before)
    does not use that entry but stores one of its own under a different
    key, and the two entries hold the functions of their own compilations. *)
Theorem compile_cache_key_per_configuration
    (host : Host) (this this1 : t) (str : string) (bypassMarkdown : bool)
    (engineOverride : Js.value) (w w1 : Statics) (res : nat) (eng : Engine)
    (fn : CompiledFn) :
  compile_start host this str bypassMarkdown engineOverride w
    = (Ok (AwaitCompiledTemplate (Some res)), this1, w1) ->
  (Js.strict_eq engineOverride Js.Undefined = false ->
   forall tr tr', setEngineOverride host tr engineOverride bypassMarkdown = Ok tr' ->
                  setEngineOverride host tr' engineOverride bypassMarkdown = Ok tr') ->
  engine this1 = Ok eng ->
  usesCache this1 eng str = true ->
  let w2 := (compile_finish this1 str (Some res) (Ok fn) w1).2 in
  let key := cacheKey this1 eng str in
  key = _getUniqueId (eleventyConfig this1)
          +:+ (getCompileCacheKey eng str (inputPath this1)).2
  /\ cacheGet (inputPath this1) key w2 = Some res
  /\ promises w2 !! res = Some (Resolved fn)
  /\ (forall compiled,
        compile host this1 str bypassMarkdown engineOverride compiled w2
          = (Ok (FromCache res), this1, incrementHit w2))
  /\ (forall (that that1 : t) (fn' : CompiledFn) (r : CompileResult) (w3 : Statics),
        inputPath that1 = inputPath this1 ->
        engine that1 = Ok eng ->
        useTemplateCache (eleventyConfig that1) = true ->
        _getUniqueId (eleventyConfig that1) <> _getUniqueId (eleventyConfig this1) ->
        keyTruthy (cacheKey that1 eng str) = true ->
        cacheGet (inputPath that1) (cacheKey that1 eng str) w = None ->
        compile host that str bypassMarkdown engineOverride (Ok fn') w2 = (Ok r, that1, w3) ->
        exists res',
          r = Compiled fn'
          /\ res' <> res
          /\ cacheKey that1 eng str <> key
          /\ cacheGet (inputPath this1) key w3 = Some res
          /\ promises w3 !! res = Some (Resolved fn)
          /\ cacheGet (inputPath this1) (cacheKey that1 eng str) w3 = Some res'
          /\ promises w3 !! res' = Some (Resolved fn')).
Proof.
  intros Hstart Hidem Heng Huses w2 key.
  destruct (compile_start_inv _ _ _ _ _ _ _ _ _ Hstart)
    as (tr0 & this0 & tr1 & Hrender & Hover & -> & Hbranch).
  destruct (bypassMarkdown && negb (needsCompilation (engine_of tr1) str)) eqn:Hbypass;
    [destruct Hbranch; discriminate|].
  destruct (compile_try_placeholder _ _ _ _ _ Hbranch)
    as (eng' & Heng' & Hcfg & Hcacheable & Hkey & -> & Hw1).
  assert (eng' = eng) as -> by congruence.
  assert (engine_of tr1 = eng) as Htr1 by (unfold engine in Heng; simpl in Heng; congruence).
  pose proof (applyEngineOverride_idempotent _ _ _ _ _ Hidem Hover) as Hagain.
  set (this1 := set_templateRender this0 tr1) in *.
  assert (ensureMap (inputPath this1) w1 = w1) as Hmap
    by (rewrite Hw1; apply ensureMap_cacheSet).
  assert (cacheGet (inputPath this1) key w1 = Some (length (promises w))) as Hget
    by (rewrite Hw1; apply cacheGet_cacheSet).
  assert (promises w1 = promises w ++ [Pending])%list as Hpromises
    by (rewrite Hw1; reflexivity).
  assert (w2 = resolve (length (promises w)) fn w1) as Hw2
    by (subst w2; now rewrite (compile_finish_ok this1 str _ fn w1 Hcfg)).
  assert (promises w2 = promises w ++ [Resolved fn])%list as Hpromises2.
  { rewrite Hw2, promises_resolve_pending, Hpromises.
    - now rewrite insert_last.
    - rewrite Hpromises. now apply list_lookup_middle. }
  clearbody w2. subst w2.
  split; [reflexivity|].
  split; [now rewrite cacheGet_resolve|].
  split; [rewrite Hpromises2; now apply list_lookup_middle|].
  split.
  - intros compiled. unfold compile.
    rewrite (compile_start_again host this0 tr1 str _ _ _ Hagain Hbypass).
    fold this1.
    rewrite (compile_try_eq this1 eng str _ Heng Hcfg Hcacheable Hkey).
    rewrite (ensureMap_resolve _ _ _ _ Hmap), Huses, cacheGet_resolve.
    fold key. rewrite Hget. reflexivity.
  - intros that that1 fn' r w3 Hpath Hengine Hcfg' Hid Hkey' Hfresh Hcompile.
    assert (cacheKey that1 eng str <> key) as Hkeys.
    { unfold key, cacheKey. rewrite Hpath. intros Heq.
      apply append_inv_tail in Heq. contradiction. }
    unfold compile in Hcompile.
    destruct (compile_start host that str bypassMarkdown engineOverride _)
      as [[[step|e] that1'] w'] eqn:Hstart'; [|discriminate].
    destruct (compile_start_inv _ _ _ _ _ _ _ _ _ Hstart')
      as (tr0' & that0 & tr1' & _ & _ & -> & Hbranch').
    assert (that1 = set_templateRender that0 tr1') as Hthat1.
    { destruct step as [fn0|p|res0]; [congruence|congruence|].
      destruct (compile_finish _ _ _ _ _) as [[fn0|e] w'']; congruence. }
    subst that1.
    assert (engine_of tr1' = eng) as Htr1'
      by (unfold engine in Hengine; simpl in Hengine; congruence).
    rewrite Htr1', <- Htr1, Hbypass in Hbranch'.
    rewrite Hpath in Hfresh.
    rewrite (compile_try_miss _ eng str _ Hengine Hcfg' Hcacheable Hkey') in Hbranch'.
    2:{ rewrite Hpath, cacheGet_resolve, Hw1, cacheGet_cacheSet_ne by (fold key; congruence).
        now rewrite cacheGet_placeholder_state, cacheGet_ensureMap. }
    rewrite Hpath, Hpromises2 in Hbranch'. injection Hbranch' as <- <-.
    rewrite (compile_finish_ok _ str _ fn' _ Hcfg') in Hcompile.
    injection Hcompile as <- <-.
    change (inputPath this0) with (inputPath this1).
    set (that1 := set_templateRender that0 tr1') in *.
    set (res' := length (promises w ++ [Resolved fn])).
    set (w' := cacheSet (inputPath this1) (cacheKey that1 eng str) res' _).
    assert (promises w' = (promises w ++ [Resolved fn]) ++ [Pending]) as Hpromises'
      by reflexivity.
    assert (promises (resolve res' fn' w')
            = (promises w ++ [Resolved fn]) ++ [Resolved fn']) as Hpromises3.
    { rewrite promises_resolve_pending; rewrite Hpromises'.
      - now apply insert_last.
      - now apply list_lookup_middle. }
    assert (res' = length (promises w) + 1) as Hres'
      by (subst res'; rewrite length_app; reflexivity).
    exists res'.
    split; [reflexivity|]. split; [lia|]. split; [exact Hkeys|].
    split.
    { subst w'. rewrite cacheGet_resolve, cacheGet_cacheSet_ne by congruence.
      now rewrite cacheGet_placeholder_state, cacheGet_ensureMap, cacheGet_resolve. }
    split.
    { rewrite Hpromises3, lookup_app_l by (rewrite length_app; simpl; lia).
      now apply list_lookup_middle. }
    split.
    { subst w'. rewrite cacheGet_resolve. apply cacheGet_cacheSet. }
    rewrite Hpromises3. now apply list_lookup_middle.
Qed.

Lemma compile_cache_key_per_configuration_witness :
  let this := new "./index.md" (Sample.config "1" ∅) in
  let that := new "./index.md" (Sample.config "2" ∅) in
  let started := compile_start Sample.host this "# Hello" false Js.Undefined Sample.statics in
  let w2 := (compile_finish started.1.2 "# Hello" (Some 0) (Ok (EngineFn 0)) started.2).2 in
  let other := compile Sample.host that "# Hello" false Js.Undefined (Ok (EngineFn 1)) w2 in
  compile Sample.host started.1.2 "# Hello" false Js.Undefined (Ok (EngineFn 2)) w2
    = (Ok (FromCache 0), started.1.2, incrementHit w2)
  /\ exists res',
       res' <> 0
       /\ cacheGet "./index.md" "1./index.md# Hello" other.2 = Some 0
       /\ TemplateContent.promises other.2 !! 0 = Some (Resolved (EngineFn 0))
       /\ cacheGet "./index.md" "2./index.md# Hello" other.2 = Some res'
       /\ TemplateContent.promises other.2 !! res' = Some (Resolved (EngineFn 1)).
Proof.
  intros this that started w2 other.
  destruct (compile_cache_key_per_configuration
              Sample.host this started.1.2 "# Hello" false Js.Undefined
              Sample.statics started.2 0 Sample.liquid (EngineFn 0))
    as (_ & _ & _ & Hsame & Hother).
  - reflexivity.
  - intros Hoverride. discriminate Hoverride.
  - reflexivity.
  - reflexivity.
  - split; [apply Hsame|].
    destruct (Hother that other.1.2 (EngineFn 1) (Compiled (EngineFn 1)) other.2)
      as (res' & _ & Hres' & _ & Hthis & Hfn & Hthat & Hfn').
    + reflexivity.
    + reflexivity.
    + reflexivity.
    + discriminate.
    + reflexivity.
    + reflexivity.
    + vm_compute. reflexivity.
    + exists res'. auto.
Defined.

End CompileFacts.

(** ** The incremental scheduler *)

Module SchedulerFacts.

Import EleventyFiles TemplateWriter.

Lemma relevantTo_total (file : Js.value) (shape : FileShape) (o : Template) :
  initialized o -> exists b, relevantTo file shape (templateContent o) = Ok b.
Proof.
  unfold initialized, relevantTo, TemplateContent.isFileRelevantToThisTemplate,
    TemplateContent.engine.
  intros Hinit. destruct (negb (Js.truthy file)); [eauto|].
  destruct (TemplateContent._templateRender (templateContent o)) as [tr|]; [|contradiction].
  simpl. repeat match goal with |- context [if ?c then _ else _] => destruct c end; eauto.
Qed.

Lemma heap_update (this : t) (tmpl r : nat) (f : Template -> Template) :
  heap (update this tmpl f) r = if decide (tmpl = r) then f (heap this tmpl) else heap this r.
Proof.
  unfold update. simpl. destruct (decide (tmpl = r)) as [->|Hne].
  - apply fn_lookup_insert.
  - now apply fn_lookup_insert_ne.
Qed.

Lemma doc_update_override (this : t) (tmpl r : nat) (v : Js.value) :
  templateContent (heap (update this tmpl (fun o => setRenderableOverride o v)) r)
  = templateContent (heap this r).
Proof. rewrite heap_update. now destruct (decide (tmpl = r)) as [->|]. Qed.

Lemma In_define (o : JsObject.t) (key k : string) :
  In k (JsObject.define o key) <-> In k o \/ k = key.
Proof.
  unfold JsObject.define, JsObject.hasOwn.
  destruct (bool_decide (key ∈ o)) eqn:Hown.
  - apply bool_decide_eq_true, list_elem_of_In in Hown.
    split; [tauto|]. intros [H | ->]; assumption.
  - rewrite in_app_iff. simpl. split.
    + intros [H | [<- | []]]; auto.
    + intros [H | ->]; auto.
Qed.

Lemma In_set (o : JsObject.t) (key k : string) :
  In k (JsObject.set o key) <-> In k o \/ (k = key /\ key <> "__proto__").
Proof.
  unfold JsObject.set.
  destruct (String.eqb key "__proto__") eqn:Hproto.
  - apply String.eqb_eq in Hproto. tauto.
  - apply String.eqb_neq in Hproto. rewrite In_define. tauto.
Qed.

(** The loops visit shared objects: a template that occurs twice in the
    array is visited twice. When a visit applies an idempotent [f] to the
    object, the heap after the loop is [f] on the visited objects. *)
Lemma visit_step (f : Template -> Template) (h h1 : Heap) (tmpl r : nat) (rest : list nat) :
  (forall o, f (f o) = f o) ->
  (forall r, h1 r = if decide (tmpl = r) then f (h tmpl) else h r) ->
  (if in_dec Nat.eq_dec r rest then f (h1 r) else h1 r)
  = (if in_dec Nat.eq_dec r (tmpl :: rest) then f (h r) else h r).
Proof.
  intros Hidem Hh1. rewrite Hh1.
  destruct (decide (tmpl = r)) as [->|Hne].
  - destruct (in_dec Nat.eq_dec r (r :: rest)) as [_|Hnot]; [|destruct Hnot; now left].
    now destruct (in_dec Nat.eq_dec r rest); rewrite ?Hidem.
  - destruct (in_dec Nat.eq_dec r rest) as [Hin|Hnot],
             (in_dec Nat.eq_dec r (tmpl :: rest)) as [Hin'|Hnot']; try reflexivity.
    + destruct Hnot'. now right.
    + destruct Hin' as [Heq|Hin']; [congruence | contradiction].
Qed.

(** *** The classification loop *)

Lemma classified_idempotent (uses : Uses) (file : Js.value) (shape : FileShape) (o : Template) :
  classified uses file shape (classified uses file shape o) = classified uses file shape o.
Proof. reflexivity. Qed.

Lemma classify_spec (uses : Uses) (shape : FileShape) (templates : list nat) :
  forall (this : t) (lookup : JsObject.t),
    Forall (fun tmpl => initialized (heap this tmpl)) templates ->
    exists this' lookup',
      classify uses shape templates this lookup = Ok (this', lookup')
      /\ sameWriter this this'
      /\ (forall r, heap this' r
                    = if in_dec Nat.eq_dec r templates
                      then classified uses (incrementalFile this) shape (heap this r)
                      else heap this r)
      /\ (forall k, In k lookup' <->
                    In k lookup
                    \/ (k <> "__proto__"
                        /\ exists tmpl, In tmpl templates
                             /\ inputPath (heap this tmpl) = k
                             /\ firstOrder (incrementalFile this) shape
                                  (templateContent (heap this tmpl)) = true)).
Proof.
  induction templates as [|tmpl rest IH]; intros this lookup Hinit.
  - exists this, lookup. simpl. repeat split; try tauto.
    intros [H | (_ & tmpl & [] & _)]. exact H.
  - apply Forall_cons_iff in Hinit as [Hinit0 Hinit].
    set (file := incrementalFile this).
    set (o := heap this tmpl).
    (* what the body of the loop does *)
    assert (exists lookup1,
              classify uses shape (tmpl :: rest) this lookup
              = classify uses shape rest
                  (update this tmpl
                     (fun o' => setRenderableOverride o'
                                  (decision uses file shape (templateContent o)))) lookup1
              /\ (forall k, In k lookup1 <->
                            In k lookup
                            \/ (k <> "__proto__" /\ inputPath o = k
                                /\ firstOrder file shape (templateContent o) = true)))
      as (lookup1 & Hbody & Hlookup1).
    { simpl classify. unfold isIncrementalFile, isRelevant, decision, firstOrder.
      fold o file. unfold inputPath.
      change (isTemplateShape shape
              && Js.strict_eq (Js.Str (TemplateContent.inputPath (templateContent o))) file)
        with (isChanged file shape (templateContent o)).
      change (TemplateContent.isFileRelevantToThisTemplate (templateContent o) file
                {| TemplateContent.isFullTemplate := Js.Bool (isTemplateShape shape) |})
        with (relevantTo file shape (templateContent o)).
      destruct (isChanged file shape (templateContent o)).
      - exists lookup. split; [reflexivity|]. simpl. intros k. split; [tauto|].
        intros [H | (_ & _ & H)]; [exact H | discriminate].
      - destruct (relevantTo_total file shape o Hinit0) as [[|] ->]; simpl.
        + exists (JsObject.set lookup (TemplateContent.inputPath (templateContent o))).
          split; [reflexivity|]. intros k. rewrite In_set. split.
          * intros [H | [-> H]]; auto.
          * intros [H | (H1 & <- & _)]; auto.
        + exists lookup. split.
          * now destruct (isFileUsedBy uses file _).
          * intros k. split; [tauto|].
            intros [H | (_ & _ & H)]; [exact H | discriminate]. }
    set (this1 := update this tmpl _) in *.
    assert (forall r, templateContent (heap this1 r) = templateContent (heap this r)) as Hdoc
      by (intros r; apply doc_update_override).
    destruct (IH this1 lookup1) as (this' & lookup' & Hrun & Hsame & Hheap & Hlookup).
    { apply Forall_forall. intros r Hr. unfold initialized. rewrite Hdoc.
      now apply (proj1 (Forall_forall _ _) Hinit). }
    exists this', lookup'. rewrite Hbody. split; [exact Hrun|].
    split; [exact Hsame|]. split.
    + intros r. rewrite Hheap.
      change (incrementalFile this1) with file.
      apply (visit_step (classified uses file shape) (heap this) (heap this1) tmpl r rest).
      * intros o'. reflexivity.
      * intros r'. subst this1. now rewrite heap_update.
    + intros k. rewrite Hlookup, Hlookup1.
      change (incrementalFile this1) with file. split.
      * intros [[H | (Hk & Hpath & Hfirst)] | (Hk & tmpl' & Hin & Hpath & Hfirst)].
        -- now left.
        -- right. split; [exact Hk|]. exists tmpl. split; [now left | now split].
        -- right. split; [exact Hk|]. exists tmpl'. unfold inputPath in *.
           rewrite Hdoc in Hpath, Hfirst. split; [now right | now split].
      * intros [H | (Hk & tmpl' & [<- | Hin] & Hpath & Hfirst)].
        -- left. now left.
        -- left. right. now repeat split.
        -- right. split; [exact Hk|]. exists tmpl'. unfold inputPath in *.
           rewrite Hdoc. now repeat split.
Qed.

(** *** The second-order loop *)

Lemma upgraded_idempotent (so : JsObject.t) (o : Template) :
  upgraded so (upgraded so o) = upgraded so o.
Proof.
  unfold upgraded.
  destruct (JsObject.getTruthy so (inputPath o) && isRenderableDisabled o) eqn:Hcond.
  - change (isRenderableDisabled (setRenderableOverride o (Js.Str "optional"))) with false.
    now rewrite andb_false_r.
  - now rewrite Hcond.
Qed.

Lemma upgradeSecondOrder_spec (so : JsObject.t) (templates : list nat) :
  forall this : t,
    sameWriter this (upgradeSecondOrder so templates this)
    /\ forall r, heap (upgradeSecondOrder so templates this) r
                 = if in_dec Nat.eq_dec r templates
                   then upgraded so (heap this r)
                   else heap this r.
Proof.
  induction templates as [|tmpl rest IH]; intros this.
  - simpl. unfold sameWriter. auto.
  - assert (exists this1,
              upgradeSecondOrder so (tmpl :: rest) this = upgradeSecondOrder so rest this1
              /\ sameWriter this this1
              /\ forall r, heap this1 r
                           = if decide (tmpl = r) then upgraded so (heap this tmpl)
                             else heap this r)
      as (this1 & -> & Hsame1 & Hheap1).
    { simpl upgradeSecondOrder. unfold upgraded.
      destruct (JsObject.getTruthy so (inputPath (heap this tmpl))); simpl.
      - destruct (isRenderableDisabled (heap this tmpl)).
        + eexists. split; [reflexivity|]. split; [unfold sameWriter; auto|].
          intros r. apply heap_update.
        + exists this. split; [reflexivity|]. split; [unfold sameWriter; auto|].
          intros r. now destruct (decide (tmpl = r)) as [->|].
      - exists this. split; [reflexivity|]. split; [unfold sameWriter; auto|].
        intros r. now destruct (decide (tmpl = r)) as [->|]. }
    destruct (IH this1) as [Hsame Hheap]. split.
    + unfold sameWriter in *. intuition congruence.
    + intros r. rewrite Hheap.
      apply (visit_step (upgraded so) (heap this) (heap this1) tmpl r rest);
        [apply upgraded_idempotent | exact Hheap1].
Qed.

(** *** The reset loop *)

Lemma resetFor_idempotent (file : Js.value) (shape : FileShape) (o : Template) :
  resetFor file shape (resetFor file shape o) = resetFor file shape o.
Proof.
  destruct (isChanged file shape (templateContent o)) eqn:Hchanged.
  - assert (resetFor file shape o = setDryRunViaIncremental o false) as ->
      by (unfold resetFor; now rewrite Hchanged).
    unfold resetFor.
    change (templateContent (setDryRunViaIncremental o false)) with (templateContent o).
    now rewrite Hchanged.
  - destruct (isRenderState o) eqn:Hstate.
    + assert (resetFor file shape o
              = setDryRunViaIncremental (resetCaches o dataAndRender) false) as ->
        by (unfold resetFor; now rewrite Hchanged, Hstate).
      unfold resetFor.
      change (templateContent (setDryRunViaIncremental (resetCaches o dataAndRender) false))
        with (templateContent o).
      change (isRenderState (setDryRunViaIncremental (resetCaches o dataAndRender) false))
        with (isRenderState o).
      now rewrite Hchanged, Hstate.
    + assert (resetFor file shape o
              = setDryRunViaIncremental (resetCaches o dataOnly) true) as ->
        by (unfold resetFor; now rewrite Hchanged, Hstate).
      unfold resetFor.
      change (templateContent (setDryRunViaIncremental (resetCaches o dataOnly) true))
        with (templateContent o).
      change (isRenderState (setDryRunViaIncremental (resetCaches o dataOnly) true))
        with (isRenderState o).
      now rewrite Hchanged, Hstate.
Qed.

Lemma countsAsSkipped_resetFor (file : Js.value) (shape : FileShape) (o : Template) :
  countsAsSkipped file shape (resetFor file shape o) = countsAsSkipped file shape o.
Proof.
  unfold resetFor.
  destruct (isChanged file shape (templateContent o)) eqn:Hchanged; [reflexivity|].
  now destruct (isRenderState o).
Qed.

Lemma resetByState_spec (shape : FileShape) (templates : list nat) :
  forall this : t,
    let this' := resetByState shape templates this in
    let file := incrementalFile this in
    incrementalFile this' = file
    /\ isRunInitialBuild this' = isRunInitialBuild this
    /\ skippedCount this'
       = skippedCount this
         + length (List.filter (fun r => countsAsSkipped file shape (heap this r)) templates)
    /\ forall r, heap this' r
                 = if in_dec Nat.eq_dec r templates
                   then resetFor file shape (heap this r)
                   else heap this r.
Proof.
  induction templates as [|tmpl rest IH]; intros this this' file.
  - subst this'. simpl. repeat split. lia.
  - set (o := heap this tmpl).
    assert (exists this1,
              this' = resetByState shape rest this1
              /\ incrementalFile this1 = file
              /\ isRunInitialBuild this1 = isRunInitialBuild this
              /\ skippedCount this1
                 = skippedCount this + (if countsAsSkipped file shape o then 1 else 0)
              /\ forall r, heap this1 r
                           = if decide (tmpl = r) then resetFor file shape o else heap this r)
      as (this1 & -> & Hfile & Hrun & Hcount & Hheap1).
    { subst this'. simpl resetByState.
      unfold isIncrementalFile, resetFor, countsAsSkipped, isRenderState, inputPath.
      fold o file.
      change (isTemplateShape shape
              && Js.strict_eq (Js.Str (TemplateContent.inputPath (templateContent o))) file)
        with (isChanged file shape (templateContent o)).
      destruct (isChanged file shape (templateContent o)).
      - eexists. split; [reflexivity|].
        split; [reflexivity|]. split; [reflexivity|]. split; [simpl; lia|].
        intros r. apply heap_update.
      - destruct (negb (isRenderableDisabled o) && negb (isRenderableOptional o)).
        + eexists. split; [reflexivity|].
          split; [reflexivity|]. split; [reflexivity|]. split; [simpl; lia|].
          intros r. apply heap_update.
        + eexists. split; [reflexivity|].
          split; [reflexivity|]. split; [reflexivity|]. split; [simpl; lia|].
          intros r. apply (heap_update this tmpl r). }
    destruct (IH this1) as (Hfile' & Hrun' & Hcount' & Hheap). rewrite Hfile in *.
    split; [exact Hfile'|]. split; [congruence|]. split.
    + rewrite Hcount', Hcount. simpl List.filter. fold o.
      rewrite (filter_ext (fun r => countsAsSkipped file shape (heap this1 r))
                 (fun r => countsAsSkipped file shape (heap this r))).
      * destruct (countsAsSkipped file shape o); simpl; lia.
      * intros r. rewrite Hheap1. destruct (decide (tmpl = r)) as [<-|]; [|reflexivity].
        apply countsAsSkipped_resetFor.
    + intros r. rewrite Hheap.
      apply (visit_step (resetFor file shape) (heap this) (heap this1) tmpl r rest);
        [apply resetFor_idempotent | exact Hheap1].
Qed.

(** *** Lookup objects *)

Lemma hasOwn_true_iff (o : JsObject.t) (k : string) :
  JsObject.hasOwn o k = true <-> In k o.
Proof. unfold JsObject.hasOwn. now rewrite bool_decide_eq_true, list_elem_of_In. Qed.

Lemma In_fold_define (l : list string) (o : JsObject.t) (k : string) :
  In k (fold_left JsObject.define l o) <-> In k o \/ In k l.
Proof.
  revert o. induction l as [|key rest IH]; intros o; simpl; [tauto|].
  rewrite IH, In_define.
  split; [intros [[H | ->] | H] | intros [H | [<- | H]]]; auto.
Qed.

Lemma In_fromEntries (l : list string) (k : string) :
  In k (JsObject.fromEntries l) <-> In k l.
Proof.
  unfold JsObject.fromEntries, JsObject.empty. rewrite In_fold_define. simpl. tauto.
Qed.

Lemma In_insertIndex (n : N) (key : string) (sorted : list (N * string)) (x : N * string) :
  In x (JsObject.insertIndex n key sorted) <-> x = (n, key) \/ In x sorted.
Proof.
  induction sorted as [|[m k] rest IH]; simpl.
  - split; intros [H | H]; auto.
  - destruct (n <? m)%N; simpl; [split; intros [H | H]; auto|].
    rewrite IH. split; intros H; tauto.
Qed.

Lemma In_indexKeys (o : JsObject.t) (n : N) (k : string) :
  In (n, k) (JsObject.indexKeys o) <-> In k o /\ JsObject.arrayIndex k = Some n.
Proof.
  induction o as [|key rest IH]; simpl; [tauto|].
  destruct (JsObject.arrayIndex key) as [m|] eqn:Hindex.
  - rewrite In_insertIndex, IH. split.
    + intros [[= -> ->] | [H1 H2]]; auto.
    + intros [[-> | H1] H2]; [left; congruence | right; auto].
  - rewrite IH. split; [tauto|]. intros [[-> | H1] H2]; [congruence | auto].
Qed.

(** [Object.keys] lists exactly the own keys. *)
Lemma In_keys (o : JsObject.t) (k : string) : In k (JsObject.keys o) <-> In k o.
Proof.
  unfold JsObject.keys. rewrite in_app_iff, in_map_iff, filter_In.
  unfold JsObject.isNamedKey. split.
  - intros [([n k'] & <- & H) | [H _]]; [|exact H]. now apply In_indexKeys in H.
  - intros H. destruct (JsObject.arrayIndex k) as [n|] eqn:Hindex.
    + left. exists (n, k). split; [reflexivity|]. now apply In_indexKeys.
    + right. auto.
Qed.

Lemma firstOrder_true_iff (file : Js.value) (shape : FileShape) (doc : TemplateContent.t) :
  firstOrder file shape doc = true
  <-> isChanged file shape doc = false /\ relevantTo file shape doc = Ok true.
Proof.
  unfold firstOrder. destruct (isChanged file shape doc); simpl.
  - split; [discriminate | intros [H _]; discriminate].
  - destruct (relevantTo file shape doc) as [[|]|]; split; try discriminate; auto;
      intros [_ H]; discriminate.
Qed.

Lemma override_resetFor (file : Js.value) (shape : FileShape) (o : Template) :
  _renderableOverride (resetFor file shape o) = _renderableOverride o.
Proof.
  unfold resetFor. destruct (isChanged file shape (templateContent o)); [reflexivity|].
  now destruct (isRenderState o).
Qed.

Lemma isIncrementalFile_eq (this : t) (shape : FileShape) (tmpl : nat) :
  isIncrementalFile this shape tmpl
  = isChanged (incrementalFile this) shape (templateContent (heap this tmpl)).
Proof. reflexivity. Qed.

Lemma isRelevant_eq (this : t) (shape : FileShape) (tmpl : nat) :
  isRelevant this shape tmpl
  = relevantTo (incrementalFile this) shape (templateContent (heap this tmpl)).
Proof. reflexivity. Qed.

(** The whole of the scheduler when the initial build is not ignored. *)
Lemma incremental_build_eq (uses : Uses) (shape : FileShape) (templates : list nat)
    (this this1 : t) (lookup : JsObject.t) :
  isRunInitialBuild this = true ->
  classify uses shape templates this JsObject.empty = Ok (this1, lookup) ->
  _addToTemplateMapIncrementalBuild uses shape templates this
  = Ok (resetByState shape templates
          (upgradeSecondOrder (secondOrderTemplates uses lookup) templates this1)).
Proof.
  intros Hrun Hclassify. unfold _addToTemplateMapIncrementalBuild.
  now rewrite Hrun, Hclassify.
Qed.

(** C1. In an incremental build every template is given its renderable
    override by one case analysis: the changed file itself (a full-template
    change with the template's input path) is left to render (override
    unset); otherwise a template the changed file is relevant to is left to
    render; otherwise a template that, by the uses graph, the changed file
    depends on is made optional; otherwise the override is [false] (skip).
    Exactly one case applies, also for a template that occurs more than
    once. When the initial build is not ignored, this classification is
    what [_addToTemplateMapIncrementalBuild] starts from. *)
Theorem classify_case_analysis (uses : Uses) (shape : FileShape) (templates : list nat)
    (this : t) :
  Forall (fun tmpl => initialized (heap this tmpl)) templates ->
  exists this1 lookup,
    classify uses shape templates this JsObject.empty = Ok (this1, lookup)
    /\ (isRunInitialBuild this = true ->
        _addToTemplateMapIncrementalBuild uses shape templates this
        = Ok (resetByState shape templates
                (upgradeSecondOrder (secondOrderTemplates uses lookup) templates this1)))
    /\ forall tmpl, In tmpl templates ->
         let override := _renderableOverride (heap this1 tmpl) in
         (isIncrementalFile this shape tmpl = true -> override = Js.Undefined)
         /\ (isIncrementalFile this shape tmpl = false ->
             (isRelevant this shape tmpl = Ok true -> override = Js.Undefined)
             /\ (isRelevant this shape tmpl = Ok false ->
                 (isFileUsedBy uses (incrementalFile this) (inputPath (heap this tmpl)) = true ->
                  override = Js.Str "optional")
                 /\ (isFileUsedBy uses (incrementalFile this) (inputPath (heap this tmpl)) = false ->
                     override = Js.Bool false))
             /\ (isRelevant this shape tmpl = Ok true \/ isRelevant this shape tmpl = Ok false)).
Proof.
  intros Hinit.
  destruct (classify_spec uses shape templates this JsObject.empty Hinit)
    as (this1 & lookup & Hclassify & _ & Hheap & _).
  exists this1, lookup. split; [exact Hclassify|]. split.
  { intros Hrun. now apply incremental_build_eq. }
  intros tmpl Hin override. subst override. rewrite Hheap.
  destruct (in_dec Nat.eq_dec tmpl templates) as [_|Hnot]; [|contradiction].
  rewrite isIncrementalFile_eq, isRelevant_eq.
  change (_renderableOverride (classified uses (incrementalFile this) shape (heap this tmpl)))
    with (decision uses (incrementalFile this) shape (templateContent (heap this tmpl))).
  unfold decision, inputPath.
  destruct (isChanged (incrementalFile this) shape (templateContent (heap this tmpl))).
  - split; [reflexivity | discriminate].
  - split; [discriminate|]. intros _.
    apply Forall_forall with (x := tmpl) in Hinit; [|exact Hin].
    destruct (relevantTo_total (incrementalFile this) shape _ Hinit) as [[|] ->].
    + split; [reflexivity|]. split; [discriminate | now left].
    + split; [discriminate|]. split; [|now right]. intros _.
      destruct (isFileUsedBy uses (incrementalFile this) _);
        split; first [reflexivity | discriminate].
Qed.

Lemma classify_case_analysis_witness :
  exists this1 lookup,
    classify Sample.uses ShapeUndefined [0; 1; 2]
      (Sample.writer (Js.Str "./_includes/layout.liquid")) JsObject.empty
    = Ok (this1, lookup)
    /\ _renderableOverride (heap this1 0) = Js.Undefined
    /\ _renderableOverride (heap this1 2) = Js.Bool false.
Proof.
  destruct (classify_case_analysis Sample.uses ShapeUndefined [0; 1; 2]
              (Sample.writer (Js.Str "./_includes/layout.liquid")))
    as (this1 & lookup & Hclassify & _ & Hcases).
  - repeat constructor; discriminate.
  - exists this1, lookup. split; [exact Hclassify|]. split.
    + destruct (Hcases 0) as [_ Hother]; [simpl; auto|].
      destruct (Hother eq_refl) as [Hrelevant _]. apply Hrelevant. reflexivity.
    + destruct (Hcases 2) as [_ Hother]; [simpl; auto|].
      destruct (Hother eq_refl) as (_ & Hirrelevant & _).
      destruct (Hirrelevant eq_refl) as [_ Hskip]. apply Hskip. reflexivity.
Defined.

(** *** After the classification *)

Lemma doc_upgraded (so : JsObject.t) (o : Template) :
  templateContent (upgraded so o) = templateContent o.
Proof.
  unfold upgraded.
  now destruct (JsObject.getTruthy so (inputPath o) && isRenderableDisabled o).
Qed.

Lemma doc_resetFor (file : Js.value) (shape : FileShape) (o : Template) :
  templateContent (resetFor file shape o) = templateContent o.
Proof.
  unfold resetFor. destruct (isChanged file shape (templateContent o)); [reflexivity|].
  now destruct (isRenderState o).
Qed.

(** C2. After the classification, every template whose input path is in the
    closure that the uses graph computes from the first-order relevant
    templates (the keys of the lookup, [addLeadingDotSlash] applied to the
    result) and that stands at skip is set to ["optional"] by the
    second-order loop, and is still optional when the scheduler returns:
    none of them is left at skip. The keys of the lookup are the input paths
    of the templates, other than the changed file, that the changed file is
    relevant to. *)
Theorem second_order_templates_upgraded (uses : Uses) (shape : FileShape)
    (templates : list nat) (this : t) :
  isRunInitialBuild this = true ->
  Forall (fun tmpl => initialized (heap this tmpl)) templates ->
  exists this1 lookup final,
    classify uses shape templates this JsObject.empty = Ok (this1, lookup)
    /\ _addToTemplateMapIncrementalBuild uses shape templates this = Ok final
    /\ (forall key, In key (JsObject.keys lookup) <->
                    key <> "__proto__"
                    /\ exists tmpl, In tmpl templates
                         /\ inputPath (heap this tmpl) = key
                         /\ isIncrementalFile this shape tmpl = false
                         /\ isRelevant this shape tmpl = Ok true)
    /\ forall tmpl, In tmpl templates ->
         In (inputPath (heap this1 tmpl))
            (List.map (addLeadingDotSlash uses)
               (getTemplatesRelevantToTemplateList uses (JsObject.keys lookup))) ->
         isRenderableDisabled (heap this1 tmpl) = true ->
         _renderableOverride
           (heap (upgradeSecondOrder (secondOrderTemplates uses lookup) templates this1) tmpl)
         = Js.Str "optional"
         /\ _renderableOverride (heap final tmpl) = Js.Str "optional".
Proof.
  intros Hrun Hinit.
  destruct (classify_spec uses shape templates this JsObject.empty Hinit)
    as (this1 & lookup & Hclassify & _ & _ & Hlookup).
  exists this1, lookup. eexists.
  split; [exact Hclassify|].
  split; [exact (incremental_build_eq uses shape templates this this1 lookup Hrun Hclassify)|].
  split.
  - intros key. rewrite In_keys, Hlookup. split.
    + intros [[] | (Hkey & tmpl & Hin & Hpath & Hfirst)].
      split; [exact Hkey|]. exists tmpl. apply firstOrder_true_iff in Hfirst.
      rewrite isIncrementalFile_eq, isRelevant_eq. tauto.
    + intros (Hkey & tmpl & Hin & Hpath & Hchanged & Hrelevant). right.
      split; [exact Hkey|]. exists tmpl. rewrite firstOrder_true_iff.
      rewrite isIncrementalFile_eq in Hchanged. rewrite isRelevant_eq in Hrelevant. tauto.
  - intros tmpl Hin Hclosure Hdisabled.
    set (so := secondOrderTemplates uses lookup).
    destruct (upgradeSecondOrder_spec so templates this1) as [(Hfile & _) Hheap2].
    destruct (resetByState_spec shape templates (upgradeSecondOrder so templates this1))
      as (_ & _ & _ & Hheap3).
    assert (_renderableOverride (heap (upgradeSecondOrder so templates this1) tmpl)
            = Js.Str "optional") as Hupgraded.
    { rewrite Hheap2.
      destruct (in_dec Nat.eq_dec tmpl templates) as [_|Hnot]; [|contradiction].
      unfold upgraded. rewrite Hdisabled, andb_true_r.
      assert (JsObject.getTruthy so (inputPath (heap this1 tmpl)) = true) as ->; [|reflexivity].
      unfold JsObject.getTruthy. apply orb_true_iff. left.
      apply hasOwn_true_iff. unfold so, secondOrderTemplates. now apply In_fromEntries. }
    split; [exact Hupgraded|].
    rewrite Hheap3.
    destruct (in_dec Nat.eq_dec tmpl templates) as [_|Hnot]; [|contradiction].
    now rewrite override_resetFor.
Qed.

Lemma second_order_templates_upgraded_witness :
  exists final,
    _addToTemplateMapIncrementalBuild Sample.uses ShapeUndefined [0; 1; 2]
      (Sample.writer (Js.Str "./_includes/layout.liquid")) = Ok final
    /\ _renderableOverride (heap final 2) = Js.Str "optional".
Proof.
  destruct (second_order_templates_upgraded Sample.uses ShapeUndefined [0; 1; 2]
              (Sample.writer (Js.Str "./_includes/layout.liquid")))
    as (this1 & lookup & final & Hclassify & Hfinal & _ & Hupgrade).
  - reflexivity.
  - repeat constructor; discriminate.
  - exists final. split; [exact Hfinal|].
    assert (Ok (this1, lookup)
            = classify Sample.uses ShapeUndefined [0; 1; 2]
                (Sample.writer (Js.Str "./_includes/layout.liquid")) JsObject.empty)
      as Hrun by (symmetry; exact Hclassify).
    vm_compute in Hrun. injection Hrun as -> ->.
    apply (Hupgrade 2); [simpl; auto | vm_compute; auto | reflexivity].
Defined.

(** *** The reset policy *)

Lemma doc_classify (uses : Uses) (shape : FileShape) (templates : list nat)
    (this this1 : t) (lookup : JsObject.t) :
  (forall r, heap this1 r
             = if in_dec Nat.eq_dec r templates
               then classified uses (incrementalFile this) shape (heap this r)
               else heap this r) ->
  forall r, templateContent (heap this1 r) = templateContent (heap this r)
            /\ _dataCache (heap this1 r) = _dataCache (heap this r)
            /\ _renderCache (heap this1 r) = _renderCache (heap this r).
Proof.
  intros Hheap r. rewrite Hheap. now destruct (in_dec Nat.eq_dec r templates).
Qed.

Lemma caches_upgraded (so : JsObject.t) (o : Template) :
  _dataCache (upgraded so o) = _dataCache o
  /\ _renderCache (upgraded so o) = _renderCache o.
Proof.
  unfold upgraded.
  now destruct (JsObject.getTruthy so (inputPath o) && isRenderableDisabled o).
Qed.

Lemma isRenderState_false_iff (o : Template) :
  isRenderState o = false
  <-> isRenderableDisabled o = true \/ isRenderableOptional o = true.
Proof.
  unfold isRenderState.
  destruct (isRenderableDisabled o), (isRenderableOptional o); simpl; intuition discriminate.
Qed.

(** C4, as amended. When the initial build is not ignored, the third loop
    treats every template other than the changed file by its final state
    alone: in the render state its data and render caches are reset, in the
    optional or skip state only its data cache; the read cache (the cached
    content and front matter) is left as it was in both cases; and the
    skipped count goes up by one for each visit of a template, other than
    the changed file, whose final state is optional or skip. The state
    before is the one the first loop leaves (line 256), which has reset
    every cache of a template the changed file is relevant to
    ([resetBeforeData]). *)
Theorem reset_policy_by_final_state (uses : Uses) (shape : FileShape)
    (templates : list nat) (this : t) :
  isRunInitialBuild this = true ->
  Forall (fun tmpl => initialized (heap this tmpl)) templates ->
  exists final,
    _addToTemplateMapIncrementalBuild uses shape templates this = Ok final
    /\ (forall tmpl, In tmpl templates ->
          isIncrementalFile this shape tmpl = false ->
          let before := heap this tmpl in
          let after := heap final tmpl in
          templateContent after = templateContent before
          /\ _dataCache after = None
          /\ (isRenderableDisabled after = false -> isRenderableOptional after = false ->
              _renderCache after = None)
          /\ (isRenderableDisabled after = true \/ isRenderableOptional after = true ->
              _renderCache after = _renderCache before))
    /\ skippedCount final
       = skippedCount this
         + length (List.filter
                     (fun tmpl =>
                        negb (isIncrementalFile this shape tmpl)
                        && (isRenderableDisabled (heap final tmpl)
                            || isRenderableOptional (heap final tmpl)))
                     templates).
Proof.
  intros Hrun Hinit.
  destruct (classify_spec uses shape templates this JsObject.empty Hinit)
    as (this1 & lookup & Hclassify & (Hfile1 & _ & Hcount1) & Hheap1 & _).
  set (so := secondOrderTemplates uses lookup).
  destruct (upgradeSecondOrder_spec so templates this1) as [(Hfile2 & _ & Hcount2) Hheap2].
  destruct (resetByState_spec shape templates (upgradeSecondOrder so templates this1))
    as (_ & _ & Hcount3 & Hheap3).
  set (this2 := upgradeSecondOrder so templates this1) in *.
  rewrite Hfile2, Hfile1 in Hcount3, Hheap3.
  set (file := incrementalFile this) in *.
  exists (resetByState shape templates this2).
  split; [exact (incremental_build_eq uses shape templates this this1 lookup Hrun Hclassify)|].
  (* a template of the array, through the three loops *)
  assert (forall tmpl, In tmpl templates ->
            heap (resetByState shape templates this2) tmpl
            = resetFor file shape (heap this2 tmpl)
            /\ templateContent (heap this2 tmpl) = templateContent (heap this tmpl)
            /\ _dataCache (heap this2 tmpl) = _dataCache (heap this tmpl)
            /\ _renderCache (heap this2 tmpl) = _renderCache (heap this tmpl)) as Hthrough.
  { intros tmpl Hin. split.
    - rewrite Hheap3. now destruct (in_dec Nat.eq_dec tmpl templates).
    - rewrite Hheap2. destruct (in_dec Nat.eq_dec tmpl templates) as [_|Hnot]; [|contradiction].
      destruct (doc_classify uses shape templates this this1 lookup Hheap1 tmpl)
        as (Hdoc & Hdata & Hrender).
      destruct (caches_upgraded so (heap this1 tmpl)) as [Hdata' Hrender'].
      rewrite doc_upgraded. repeat split; congruence. }
  split.
  - intros tmpl Hin Hchanged before after. subst before after.
    destruct (Hthrough tmpl Hin) as (-> & Hdoc & Hdata & Hrender).
    rewrite isIncrementalFile_eq in Hchanged. fold file in Hchanged.
    rewrite <- Hdoc in Hchanged. rewrite <- Hdoc, <- Hrender.
    generalize dependent (heap this2 tmpl). intros o Hchanged.
    assert (isRenderableDisabled (resetFor file shape o) = isRenderableDisabled o
            /\ isRenderableOptional (resetFor file shape o) = isRenderableOptional o)
      as [-> ->].
    { unfold isRenderableDisabled, isRenderableOptional. now rewrite override_resetFor. }
    rewrite doc_resetFor. unfold resetFor. rewrite Hchanged.
    destruct (isRenderState o) eqn:Hstate.
    + apply andb_true_iff in Hstate as [Hd Ho].
      apply negb_true_iff in Hd, Ho. rewrite Hd, Ho.
      repeat split; intros []; discriminate.
    + apply isRenderState_false_iff in Hstate.
      repeat split. intros Hd Ho. destruct Hstate; congruence.
  - rewrite Hcount3, Hcount2, Hcount1. f_equal. f_equal.
    apply filter_ext_in. intros tmpl Hin.
    destruct (Hthrough tmpl Hin) as (-> & Hdoc & _).
    unfold countsAsSkipped. rewrite isIncrementalFile_eq, Hdoc. fold file. f_equal.
    unfold isRenderState, isRenderableDisabled, isRenderableOptional.
    rewrite override_resetFor.
    now destruct (Js.strict_eq _ (Js.Bool false)), (Js.strict_eq _ (Js.Str "optional")).
Qed.

Lemma reset_policy_by_final_state_witness :
  exists final,
    _addToTemplateMapIncrementalBuild Sample.uses ShapeTemplate [0; 1; 2]
      (Sample.writer (Js.Str "./another-post.md")) = Ok final
    /\ templateContent (heap final 0) = templateContent (Sample.documents 0)
    /\ _dataCache (heap final 0) = None
    /\ skippedCount final = 2.
Proof.
  destruct (reset_policy_by_final_state Sample.uses ShapeTemplate [0; 1; 2]
              (Sample.writer (Js.Str "./another-post.md")))
    as (final & Hfinal & Hcaches & Hcount).
  - reflexivity.
  - repeat constructor; discriminate.
  - exists final. split; [exact Hfinal|].
    destruct (Hcaches 0) as (Hdoc & Hdata & _); [simpl; auto | reflexivity |].
    split; [exact Hdoc|]. split; [exact Hdata|].
    rewrite Hcount.
    assert (Ok final
            = _addToTemplateMapIncrementalBuild Sample.uses ShapeTemplate [0; 1; 2]
                (Sample.writer (Js.Str "./another-post.md")))
      as Hrun by (symmetry; exact Hfinal).
    vm_compute in Hrun. injection Hrun as ->. reflexivity.
Defined.

(** C4 as stated fails on the skipped count: with [./another-post.md]
    changed, [./post.md] ends at skip and [./index.md] ends optional, and
    the skipped count is 2, not the number of templates at skip, which
    is 1. *)
Lemma skipped_count_includes_optional_templates :
  match _addToTemplateMapIncrementalBuild Sample.uses ShapeTemplate [0; 1; 2]
          (Sample.writer (Js.Str "./another-post.md")) with
  | Ok final =>
      List.map (fun tmpl => _renderableOverride (heap final tmpl)) [0; 1; 2]
      = [Js.Bool false; Js.Undefined; Js.Str "optional"]
      /\ length (List.filter (fun tmpl => isRenderableDisabled (heap final tmpl)) [0; 1; 2]) = 1
      /\ skippedCount final = 2
      /\ skippedCount final
         <> skippedCount (Sample.writer (Js.Str "./another-post.md"))
            + length (List.filter (fun tmpl => isRenderableDisabled (heap final tmpl))
                        [0; 1; 2])
  | Throw _ => False
  end.
Proof. vm_compute. repeat split; discriminate. Qed.

Lemma isFullTemplateFile_loop_In (paths : list string) (path : string) :
  In path paths -> isFullTemplateFile_loop paths (Js.Str path) = true.
Proof.
  induction paths as [|p rest IH]; intros Hin; [destruct Hin|]. simpl.
  destruct (String.eqb p path) eqn:Heq; [reflexivity|].
  apply String.eqb_neq in Heq. destruct Hin as [->|Hin]; [congruence | now apply IH].
Qed.

(** The shape of the changed file: a template of the build that is the
    changed file makes the shape ["template"], unless the file is a
    passthrough copy (in which case no template is built at all). *)
Lemma getFileShape_of_template (eleventyFiles : option (list string -> Js.value -> bool))
    (paths : list string) (path : string) :
  In path paths ->
  Js.truthy (Js.Str path) = true ->
  getFileShape eleventyFiles paths (Js.Str path) <> ShapeCopy ->
  getFileShape eleventyFiles paths (Js.Str path) = ShapeTemplate.
Proof.
  intros Hin Htruthy. unfold getFileShape.
  destruct eleventyFiles as [isPassthroughCopyFile|]; [|reflexivity].
  unfold EleventyFiles.getFileShape, isFullTemplateFile. rewrite Htruthy. simpl.
  destruct (isPassthroughCopyFile paths (Js.Str path)); [congruence|].
  now rewrite (isFullTemplateFile_loop_In paths path Hin).
Qed.

(** The first loop resets every cache of the changed file before its data
    is generated. *)
Lemma resetBeforeData_changed_file (this : t) (shape : FileShape) (tmpl : nat) :
  isIncrementalFile this shape tmpl = true ->
  exists this',
    resetBeforeData this shape tmpl = Ok this'
    /\ _dataCache (heap this' tmpl) = None
    /\ _renderCache (heap this' tmpl) = None
    /\ skippedCount this' = skippedCount this.
Proof.
  intros Hfile. unfold resetBeforeData. rewrite Hfile.
  eexists. split; [reflexivity|].
  unfold update. simpl. rewrite fn_lookup_insert. repeat split; reflexivity.
Qed.

End SchedulerFacts.

(** ** The generation pass *)

Module GenerateFacts.

Import TemplateWriter.

Lemma firstLoop_spec (g : Generator) (map : list MapEntry) :
  forall st : Generation,
    usedTemplateContentTooEarlyMap (firstLoop g map st) = usedTemplateContentTooEarlyMap st
    /\ generated (firstLoop g map st) = generated st ++ map
    /\ length (promises (firstLoop g map st)) = length (promises st) + length map.
Proof.
  induction map as [|mapEntry rest IH]; intros st; simpl.
  - rewrite app_nil_r. repeat split. lia.
  - destruct (IH (pushGenerate g FirstPass mapEntry st)) as (-> & -> & ->). simpl.
    rewrite <- app_assoc, length_app. simpl. repeat split. lia.
Qed.

Lemma runReaction_generated (g : Generator) (r : Reaction) (st : Generation) :
  generated (runReaction g r st) = generated st
  /\ length (promises (runReaction g r st)) = length (promises st).
Proof.
  destruct r as [promise mapEntry [pages|e] | promise mapEntry [pages|e]]; simpl;
    try (rewrite length_insert; split; reflexivity).
  destruct (isPrematureTemplateContentError g e); simpl;
    rewrite length_insert; split; reflexivity.
Qed.

Lemma runReactions_generated (g : Generator) (queue : list Reaction) :
  forall st : Generation,
    generated (runReactions g queue st) = generated st
    /\ length (promises (runReactions g queue st)) = length (promises st).
Proof.
  induction queue as [|r rest IH]; intros st; simpl; [auto|].
  destruct (IH (runReaction g r st)) as [-> ->]. apply runReaction_generated.
Qed.

(** When the second loop starts, no callback of the first loop has run:
    the array it walks is empty, whatever the renders will do. *)
Lemma second_loop_is_empty (g : Generator) (map : list MapEntry) :
  usedTemplateContentTooEarlyMap (firstLoop g map emptyGeneration) = []
  /\ generateTemplates_loops g map = firstLoop g map emptyGeneration.
Proof.
  destruct (firstLoop_spec g map emptyGeneration) as (Hearly & _).
  unfold generateTemplates_loops. rewrite Hearly. split; reflexivity.
Qed.

(** Every entry of the map is rendered once and no entry a second time,
    and the array returned holds one promise per entry of the map. *)
Lemma generateTemplates_single_pass (g : Generator) (map : list MapEntry) :
  generated (generateTemplates g map) = map
  /\ length (promises (generateTemplates g map)) = length map.
Proof.
  unfold generateTemplates.
  destruct (second_loop_is_empty g map) as [_ ->].
  destruct (firstLoop_spec g map emptyGeneration) as (_ & Hgenerated & Hpromises).
  match goal with
  | |- context [runReactions g ?q ?st] =>
      destruct (runReactions_generated g q st) as [-> ->]
  end.
  simpl. now rewrite Hgenerated, Hpromises.
Qed.

(** C8 at a failing input. The only entry of the map fails with a premature
    template content error: the entry is collected, but it has been
    rendered once only, no second-pass promise exists, and the one promise
    returned is fulfilled with [undefined] instead of being rendered again
    or rejected. *)
Theorem premature_entry_is_not_rendered_again :
  let st := generateTemplates Sample.prematureGenerator [Sample.indexEntry] in
  usedTemplateContentTooEarlyMap st = [Sample.indexEntry]
  /\ generated st = [Sample.indexEntry]
  /\ promises st = [Some (Fulfilled None)].
Proof. vm_compute. repeat split. Qed.

End GenerateFacts.

(** ** Sets *)

Module SetFacts.

Section elements.

Context {A : Type} `{EqDecision A}.

Lemma add_elem (s : JsSet.t) (x : A) : x ∈ s -> JsSet.add s x = s.
Proof. intros Hin. unfold JsSet.add. now rewrite bool_decide_eq_true_2. Qed.

Lemma add_fresh (s : JsSet.t) (x : A) : x ∉ s -> JsSet.add s x = s ++ [x].
Proof. intros Hin. unfold JsSet.add. now rewrite bool_decide_eq_false_2. Qed.

Lemma addAll_cons (s : JsSet.t) (x : A) (xs : list A) :
  JsSet.addAll s (x :: xs) = JsSet.addAll (JsSet.add s x) xs.
Proof. reflexivity. Qed.

Lemma elem_of_add (s : JsSet.t) (x y : A) : y ∈ JsSet.add s x <-> y ∈ s \/ y = x.
Proof.
  destruct (decide (x ∈ s)) as [Hin|Hin].
  - rewrite add_elem by exact Hin. split; [auto|]. intros [H | ->]; assumption.
  - rewrite add_fresh by exact Hin. rewrite elem_of_app, list_elem_of_singleton. tauto.
Qed.

Lemma NoDup_add (s : JsSet.t) (x : A) : NoDup s -> NoDup (JsSet.add s x).
Proof.
  intros Hs. destruct (decide (x ∈ s)) as [Hin|Hin].
  - now rewrite add_elem.
  - rewrite add_fresh by exact Hin. apply list.NoDup_app. split; [exact Hs|].
    split; [|apply NoDup_singleton].
    intros y Hy Hy'. apply list_elem_of_singleton in Hy'. now subst.
Qed.

Lemma elem_of_addAll (xs : list A) : forall (s : JsSet.t) (y : A),
  y ∈ JsSet.addAll s xs <-> y ∈ s \/ y ∈ xs.
Proof.
  induction xs as [|x rest IH]; intros s y.
  - simpl. rewrite elem_of_nil. tauto.
  - rewrite addAll_cons, IH, elem_of_add, elem_of_cons. tauto.
Qed.

Lemma NoDup_addAll (xs : list A) : forall s : JsSet.t, NoDup s -> NoDup (JsSet.addAll s xs).
Proof.
  induction xs as [|x rest IH]; intros s Hs; [exact Hs|].
  rewrite addAll_cons. apply IH. now apply NoDup_add.
Qed.

Lemma addAll_app (xs ys : list A) (s : JsSet.t) :
  JsSet.addAll s (xs ++ ys) = JsSet.addAll (JsSet.addAll s xs) ys.
Proof. unfold JsSet.addAll. apply fold_left_app. Qed.

(** Adding elements that are new and distinct appends them. *)
Lemma addAll_fresh (xs : list A) : forall s : JsSet.t,
  NoDup xs -> (forall x, x ∈ xs -> x ∉ s) -> JsSet.addAll s xs = s ++ xs.
Proof.
  induction xs as [|x rest IH]; intros s Hnd Hfresh.
  - simpl. now rewrite app_nil_r.
  - apply list.NoDup_cons in Hnd as [Hx Hnd].
    rewrite addAll_cons, add_fresh by (apply Hfresh; left).
    rewrite IH, <- app_assoc; [reflexivity | exact Hnd |].
    intros y Hy. rewrite elem_of_app, list_elem_of_singleton.
    intros [H | ->]; [|contradiction]. apply (Hfresh y); [now right | exact H].
Qed.

Lemma length_add (s : JsSet.t) (x : A) : length (JsSet.add s x) <= S (length s).
Proof.
  destruct (decide (x ∈ s)) as [Hin|Hin].
  - rewrite add_elem by exact Hin. lia.
  - rewrite add_fresh by exact Hin. rewrite length_app. simpl. lia.
Qed.

Lemma length_addAll (xs : list A) : forall s : JsSet.t,
  length (JsSet.addAll s xs) <= length s + length xs.
Proof.
  induction xs as [|x rest IH]; intros s; [simpl; lia|].
  rewrite addAll_cons. pose proof (IH (JsSet.add s x)). pose proof (length_add s x).
  simpl. lia.
Qed.

Lemma length_addAll_full (xs : list A) : forall s : JsSet.t,
  length (JsSet.addAll s xs) = length s + length xs ->
  NoDup xs /\ forall x, x ∈ xs -> x ∉ s.
Proof.
  induction xs as [|x rest IH]; intros s Hlen.
  - split; [apply NoDup_nil_2|]. intros x Hx. now apply elem_of_nil in Hx.
  - rewrite addAll_cons in Hlen. simpl in Hlen.
    pose proof (length_addAll rest (JsSet.add s x)) as Hle.
    destruct (decide (x ∈ s)) as [Hin|Hin].
    + rewrite add_elem in Hlen, Hle by exact Hin. lia.
    + rewrite add_fresh in Hlen by exact Hin.
      destruct (IH (s ++ [x])) as [Hnd Hfresh].
      { rewrite Hlen, length_app. simpl. lia. }
      split.
      * apply list.NoDup_cons. split; [|exact Hnd].
        intros Hx. apply (Hfresh x Hx). apply elem_of_app. right. now left.
      * intros y Hy. apply elem_of_cons in Hy as [-> | Hy]; [exact Hin|].
        intros Hs. apply (Hfresh y Hy). apply elem_of_app. now left.
Qed.

(** The size of [new Set(xs)] is the length of [xs] exactly when [xs]
    repeats no element. *)
Lemma size_fromList (xs : list A) :
  JsSet.size (JsSet.fromList xs) = length xs <-> NoDup xs.
Proof.
  unfold JsSet.size, JsSet.fromList, JsSet.empty. split.
  - intros Hlen. now apply (length_addAll_full xs []).
  - intros Hnd. rewrite addAll_fresh; [reflexivity | exact Hnd |].
    intros x _ Hx. now apply elem_of_nil in Hx.
Qed.

Lemma NoDup_List_filter (f : A -> bool) (l : list A) :
  NoDup l -> NoDup (List.filter f l).
Proof.
  induction l as [|x l IH]; intros Hnd; [exact Hnd|].
  apply list.NoDup_cons in Hnd as [Hx Hnd]. simpl.
  destruct (f x); [|now apply IH].
  apply list.NoDup_cons. split; [|now apply IH].
  rewrite list_elem_of_In, filter_In, <- list_elem_of_In. tauto.
Qed.

End elements.

End SetFacts.

(** ** Reading, resetting and the caches of TemplateContent *)

Module ContentFacts.

Import TemplateContent.

(** X13. [read()] is memoised: a second call returns what the first call
    settled to, a rejection included, and changes nothing any more,
    whatever has happened to the file in the meantime. *)
Theorem read_is_memoised (host : Host) (this : t) (w : Statics) :
  let first := read host this w in
  forall host' : Host, read host' first.1.2 first.2 = first.
Proof.
  intros first host'. subst first. unfold read at 2 3 4.
  destruct (readingPromise this) as [settled|] eqn:Hpromise.
  - simpl. unfold read. now rewrite Hpromise.
  - destruct (ensureInputContent host this w) as [this1 w1].
    destruct (readContent host this1 w1) as [[settled this2] w2]. reflexivity.
Qed.

Lemma getInputContent_frame (host : Host) (this : t) (w : Statics) :
  let this' := (getInputContent host this w).1.2 in
  inputPath this' = inputPath this
  /\ eleventyConfig this' = eleventyConfig this
  /\ _frontMatter this' = _frontMatter this
  /\ frontMatterOverride this' = frontMatterOverride this
  /\ readingPromise this' = readingPromise this
  /\ inputContent this' = inputContent this.
Proof.
  unfold getInputContent, getTemplateRender.
  destruct (_templateRender this) as [tr|] eqn:Htr; simpl.
  - destruct (needsToReadFileContents (engine_of tr)); simpl; [|repeat split].
    destruct (getVirtualTemplateDefinition this); [repeat split|].
    match goal with |- context [if ?c then _ else _] => destruct c end; [|repeat split].
    destruct (readFile host (inputPath this)); repeat split.
  - destruct (newTemplateRender host (inputPath this) (eleventyConfig this)) as [tr|e];
      simpl; [|repeat split].
    destruct (needsToReadFileContents (engine_of tr)); simpl; [|repeat split].
    unfold getVirtualTemplateDefinition. simpl.
    destruct (virtualTemplates (eleventyConfig this) !! _); [repeat split|].
    match goal with |- context [if ?c then _ else _] => destruct c end; [|repeat split].
    simpl. destruct (readFile host (inputPath this)); repeat split.
Qed.

Lemma ensureInputContent_frame (host : Host) (this : t) (w : Statics) :
  let this' := (ensureInputContent host this w).1 in
  inputPath this' = inputPath this
  /\ eleventyConfig this' = eleventyConfig this
  /\ _frontMatter this' = _frontMatter this
  /\ frontMatterOverride this' = frontMatterOverride this.
Proof.
  unfold ensureInputContent. destruct (inputContentMissing this); [|repeat split].
  pose proof (getInputContent_frame host this w) as H.
  destruct (getInputContent host this w) as [[settled this1] w1]. simpl in *.
  tauto.
Qed.

(** X14. [resetCaches(types)] changes the instance only when the [read]
    kind is reset (or no kinds are given): then the next [read()] asks for
    the input content again and passes it to the parser again, and
    memoises the new outcome. The front matter remembered for the
    [frontMatter] getter survives every reset
    ([delete this.frontMatter] names the accessor, not the field). *)
Theorem resetCaches_forgets_what_was_read
    (host : Host) (this : t) (w : Statics) (types : option ResetTypesArg) :
  (reset_read (getResetTypes types) = false -> resetCaches this types = this)
  /\ (reset_read (getResetTypes types) = true ->
      forall content,
        (getInputContent host (resetCaches this types) w).1.1 = Ok content ->
        Js.truthy content = true \/ content = Js.Str "" ->
        let result := read host (resetCaches this types) w in
        matterCalls result.2 = matterCalls w ++ [content]
        /\ readingPromise result.1.2 = Some result.1.1)
  /\ get_frontMatter (resetCaches this types) = get_frontMatter this.
Proof.
  split; [|split].
  - intros Hkind. unfold resetCaches. now rewrite Hkind.
  - intros Hkind content Hcontent Hparsed result. subst result.
    set (this0 := resetCaches this types) in *.
    assert (readingPromise this0 = None /\ inputContentMissing this0 = true)
      as [Hpromise Hmissing].
    { subst this0. unfold resetCaches. rewrite Hkind. split; reflexivity. }
    unfold read. rewrite Hpromise. unfold ensureInputContent. rewrite Hmissing.
    pose proof (ReadFacts.getInputContent_matterCalls host this0 w) as Hcalls.
    destruct (getInputContent host this0 w) as [[settled this1] w1]. simpl in Hcontent, Hcalls.
    subst settled.
    pose proof (ReadFacts.readContent_parses host
                  (set_inputContent this1 (ContentPromise (Ok content))) w1 content
                  eq_refl Hparsed) as Hparse.
    destruct (readContent host (set_inputContent this1 (ContentPromise (Ok content))) w1)
      as [[settled this2] w2]. simpl in *.
    split; [now rewrite Hparse, Hcalls | reflexivity].
  - unfold resetCaches. destruct (reset_read (getResetTypes types)); reflexivity.
Qed.

(** X15. After a first [read()] of a template without a front-matter
    override: when the content was parsed, the [frontMatter] getter
    returns what [read()] resolved to; when there was no content, [read()]
    resolves to the default object but the getter does not see it: it
    returns the front matter of an earlier read if there is one, and
    throws otherwise. *)
Theorem frontMatter_getter_after_read
    (host : Host) (this : t) (w : Statics) (content : Js.value) :
  readingPromise this = None ->
  frontMatterOverride this = None ->
  awaitInputContent (ensureInputContent host this w).1 = Ok content ->
  let result := read host this w in
  (Js.truthy content = true \/ content = Js.Str "" ->
   forall fm, result.1.1 = Ok fm -> get_frontMatter result.1.2 = Ok fm)
  /\ (Js.truthy content = false -> content <> Js.Str "" ->
      result.1.1 = Ok emptyFrontMatter
      /\ get_frontMatter result.1.2
         = match _frontMatter this with
           | Some earlier => Ok earlier
           | None => Throw monkeyPatched
           end).
Proof.
  intros Hfresh Hover Hawait result. subst result. unfold read. rewrite Hfresh.
  pose proof (ensureInputContent_frame host this w) as (_ & _ & Hfm & Hover1).
  destruct (ensureInputContent host this w) as [this1 w1]. simpl in *.
  rewrite Hover in Hover1. split.
  - intros Hcontent fm.
    unfold readContent. rewrite Hawait.
    assert (Js.truthy content || Js.strict_eq content (Js.Str "") = true) as ->.
    { destruct Hcontent as [-> | ->]; reflexivity. }
    destruct (matter host content _ (inputPath this1)) as [parsed|e]; simpl; [|discriminate].
    intros [= <-]. unfold get_frontMatter. simpl. now rewrite Hover1.
  - intros Hfalsy Hne.
    rewrite (ReadFacts.readContent_falsy host this1 w1 content Hawait Hfalsy Hne). simpl.
    split; [reflexivity|]. unfold get_frontMatter. simpl. now rewrite Hover1, Hfm.
Qed.

Lemma frontMatter_getter_after_read_witness :
  get_frontMatter
    (read Sample.host (Sample.template "./post.md" (Sample.config "1" ∅)) Sample.statics).1.2
  = Ok {| data := []; content := "parsed"; excerpt := "" |}.
Proof.
  destruct (frontMatter_getter_after_read Sample.host
              (Sample.template "./post.md" (Sample.config "1" ∅)) Sample.statics
              (Js.Str "# Hello") eq_refl eq_refl) as [Hparsed _].
  - vm_compute. reflexivity.
  - apply Hparsed; [now left|]. vm_compute. reflexivity.
Defined.

(** X16. With the template cache on, the content of a template that is
    read from the file system is read once: the call leaves it in the
    input cache, and a later call returns it from there without looking at
    the file, also when the file has changed. *)
Theorem getInputContent_reads_a_file_once
    (host : Host) (this this1 : t) (tr : TemplateRender) (w w1 : Statics)
    (content : Js.value) :
  _templateRender this = Some tr ->
  needsToReadFileContents (engine_of tr) = true ->
  getVirtualTemplateDefinition this = None ->
  useTemplateCache (eleventyConfig this) = true ->
  getInputContent host this w = (Ok content, this1, w1) ->
  this1 = this
  /\ getCached host (inputPath this) w1 = content
  /\ forall host' : Host,
       absolutePath host' = absolutePath host ->
       getInputContent host' this1 w1 = (Ok content, this1, w1).
Proof.
  intros Htr Hneeds Hvirtual Hcache Hrun.
  unfold getInputContent, getTemplateRender in Hrun. rewrite Htr in Hrun. simpl in Hrun.
  rewrite Hneeds, Hvirtual, Hcache in Hrun. simpl in Hrun.
  assert (this1 = this /\ getCached host (inputPath this) w1 = content
          /\ (Js.truthy content = true \/ Js.strict_eq content (Js.Str "") = true))
    as (-> & Hcached & Hkind).
  { destruct (negb (Js.truthy (getCached host (inputPath this) w))
              && negb (Js.strict_eq (getCached host (inputPath this) w) (Js.Str "")))
      eqn:Hmiss.
    - destruct (readFile host (inputPath this)) as [c|e]; [|discriminate].
      injection Hrun as <- <- <-. split; [reflexivity|]. split.
      + unfold getCached, cache. simpl. now rewrite lookup_insert_eq.
      + simpl. destruct (String.eqb c ""); auto.
    - injection Hrun as <- <- <-. split; [reflexivity|]. split; [reflexivity|].
      apply andb_false_iff in Hmiss as [H | H]; apply negb_false_iff in H; auto. }
  split; [reflexivity|]. split; [exact Hcached|].
  intros host' Hpaths.
  unfold getInputContent, getTemplateRender. rewrite Htr. simpl.
  rewrite Hneeds, Hvirtual, Hcache. simpl.
  assert (getCached host' (inputPath this) w1 = content) as ->.
  { unfold getCached in *. now rewrite Hpaths. }
  destruct Hkind as [-> | ->]; [reflexivity|]. now rewrite andb_false_r.
Qed.

Lemma getInputContent_reads_a_file_once_witness :
  let this := Sample.template "./post.md" (Sample.config "1" ∅) in
  let cached := cache Sample.host "./post.md" (Js.Str "# Hello") Sample.statics in
  readFile Sample.hostAfterEdit "./post.md" = Ok "# Changed"
  /\ getInputContent Sample.hostAfterEdit this cached = (Ok (Js.Str "# Hello"), this, cached).
Proof.
  intros this cached. split; [reflexivity|].
  assert (getVirtualTemplateDefinition this = None) as Hvirtual by (vm_compute; reflexivity).
  assert (getInputContent Sample.host this Sample.statics = (Ok (Js.Str "# Hello"), this, cached))
    as Hrun by (vm_compute; reflexivity).
  destruct (getInputContent_reads_a_file_once Sample.host this this Sample.render
              Sample.statics cached (Js.Str "# Hello") eq_refl eq_refl Hvirtual eq_refl Hrun)
    as (_ & _ & Hagain).
  apply Hagain. reflexivity.
Defined.

Lemma inputPathMap_resourceModified (host : Host) (dot : string -> string)
    (path p : string) (w : Statics) :
  inputPathMap p (on_resourceModified host dot path w)
  = if decide (p = dot path) then ∅ else inputPathMap p w.
Proof.
  unfold on_resourceModified, inputPathMap. simpl.
  destruct (_compileCache w !! dot path) as [m|] eqn:Hm; simpl.
  - destruct (decide (p = dot path)) as [->|Hne].
    + now rewrite lookup_insert_eq.
    + now rewrite lookup_insert_ne by congruence.
  - destruct (decide (p = dot path)) as [->|Hne]; [now rewrite Hm | reflexivity].
Qed.

Lemma promises_resourceModified (host : Host) (dot : string -> string) (path : string)
    (w : Statics) :
  promises (on_resourceModified host dot path w) = promises w
  /\ compileCacheHit (on_resourceModified host dot path w) = compileCacheHit w
  /\ compileCacheMiss (on_resourceModified host dot path w) = compileCacheMiss w.
Proof.
  unfold on_resourceModified. simpl. destruct (_compileCache w !! dot path); repeat split.
Qed.

(** X17. The [eleventy.resourceModified] event for [path] removes from the
    input cache exactly the entries of the paths with the absolute path of
    [path], and empties the compile cache of exactly one input path,
    [addLeadingDotSlash(path)]: the maps of the other input paths are
    untouched, no outer key appears or disappears, and no promise or
    counter changes. *)
Theorem resourceModified_invalidates_one_path
    (host : Host) (addLeadingDotSlash : string -> string) (path : string) (w : Statics) :
  let w' := on_resourceModified host addLeadingDotSlash path w in
  (forall p, getCached host p w'
             = if decide (absolutePath host p = absolutePath host path)
               then Js.Undefined else getCached host p w)
  /\ (forall p key, cacheGet p key w'
                    = if decide (p = addLeadingDotSlash path) then None else cacheGet p key w)
  /\ (forall p, is_Some (_compileCache w' !! p) <-> is_Some (_compileCache w !! p))
  /\ promises w' = promises w
  /\ compileCacheHit w' = compileCacheHit w
  /\ compileCacheMiss w' = compileCacheMiss w.
Proof.
  intros w'. subst w'. split; [|split; [|split]].
  - intros p.
    assert (_inputCache (on_resourceModified host addLeadingDotSlash path w)
            = delete (absolutePath host path) (_inputCache w)) as Hinput.
    { unfold on_resourceModified, deleteFromInputCache. simpl.
      now destruct (_compileCache w !! addLeadingDotSlash path). }
    unfold getCached. rewrite Hinput.
    destruct (decide (absolutePath host p = absolutePath host path)) as [->|Hne].
    + now rewrite lookup_delete_eq.
    + now rewrite lookup_delete_ne by congruence.
  - intros p key. unfold cacheGet. rewrite inputPathMap_resourceModified.
    destruct (decide (p = addLeadingDotSlash path)); [apply lookup_empty | reflexivity].
  - intros p. unfold on_resourceModified. simpl.
    destruct (_compileCache w !! addLeadingDotSlash path) as [m|] eqn:Hm; simpl; [|tauto].
    destruct (decide (p = addLeadingDotSlash path)) as [->|Hne].
    + rewrite lookup_insert_eq, Hm. split; eauto.
    + rewrite lookup_insert_ne by congruence. tauto.
  - apply promises_resourceModified.
Qed.

Lemma cacheGet_compileCacheReset (p key : string) (w : Statics) :
  cacheGet p key (on_compileCacheReset w) = None.
Proof. unfold cacheGet, inputPathMap, on_compileCacheReset. simpl. now rewrite lookup_empty. Qed.

Lemma ensureMap_counters (path : string) (w : Statics) :
  compileCacheHit (ensureMap path w) = compileCacheHit w
  /\ compileCacheMiss (ensureMap path w) = compileCacheMiss w.
Proof. unfold ensureMap. destruct (_compileCache w !! path); split; reflexivity. Qed.

(** X18. A compilation that may use the cache misses after the
    [eleventy.compileCacheReset] event, and after the
    [eleventy.resourceModified] event for a path whose normalized form is
    the input path of the template: it counts a miss and stores a new
    placeholder. A template whose input path is not the normalized form
    of the modified path still gets its cached promise. *)
Theorem compile_misses_after_invalidation
    (host : Host) (addLeadingDotSlash : string -> string) (path : string)
    (this : t) (eng : Engine) (str : string) (w : Statics) :
  engine this = Ok eng ->
  useTemplateCache (eleventyConfig this) = true ->
  cacheable eng = true ->
  keyTruthy (cacheKey this eng str) = true ->
  let missed (before : Statics) :=
    exists after,
      compile_try this str before
      = (Ok (AwaitCompiledTemplate (Some (length (promises w)))), after)
      /\ compileCacheMiss after = S (compileCacheMiss w)
      /\ compileCacheHit after = compileCacheHit w
      /\ cacheGet (inputPath this) (cacheKey this eng str) after = Some (length (promises w)) in
  (inputPath this = addLeadingDotSlash path ->
   missed (on_resourceModified host addLeadingDotSlash path w))
  /\ missed (on_compileCacheReset w)
  /\ (inputPath this <> addLeadingDotSlash path ->
      usesCache this eng str = true ->
      forall promise,
        cacheGet (inputPath this) (cacheKey this eng str) w = Some promise ->
        (compile_try this str (on_resourceModified host addLeadingDotSlash path w)).1
        = Ok (ReturnCached promise)).
Proof.
  intros Heng Hcfg Hcacheable Hkey missed. subst missed. cbv beta.
  split; [|split].
  - intros Hpath.
    destruct (promises_resourceModified host addLeadingDotSlash path w) as (Hp & Hh & Hm).
    eexists. split.
    + rewrite (CompileFacts.compile_try_miss this eng str _ Heng Hcfg Hcacheable Hkey).
      * rewrite Hp. reflexivity.
      * unfold cacheGet. rewrite inputPathMap_resourceModified.
        destruct (decide (inputPath this = addLeadingDotSlash path)); [|contradiction].
        apply lookup_empty.
    + simpl. destruct (ensureMap_counters (inputPath this)
                         (on_resourceModified host addLeadingDotSlash path w)) as [Hh' Hm'].
      rewrite Hh', Hm', Hh, Hm. split; [reflexivity|]. split; [reflexivity|].
      apply CompileFacts.cacheGet_cacheSet.
  - eexists. split.
    + rewrite (CompileFacts.compile_try_miss this eng str _ Heng Hcfg Hcacheable Hkey
                 (cacheGet_compileCacheReset _ _ w)).
      reflexivity.
    + simpl. destruct (ensureMap_counters (inputPath this) (on_compileCacheReset w))
        as [Hh' Hm'].
      rewrite Hh', Hm'. split; [reflexivity|]. split; [reflexivity|].
      apply CompileFacts.cacheGet_cacheSet.
  - intros Hpath Huses promise Hcached.
    rewrite (CompileFacts.compile_try_hit this eng str _ promise Heng Hcfg Hcacheable Hkey Huses);
      [reflexivity|].
    unfold cacheGet. rewrite inputPathMap_resourceModified.
    destruct (decide (inputPath this = addLeadingDotSlash path)); [contradiction|].
    exact Hcached.
Qed.

Lemma compile_misses_after_invalidation_witness :
  exists after,
    compile_try (Sample.template "./post.md" (Sample.config "1" ∅)) "# Hello"
      (on_compileCacheReset Sample.statics)
    = (Ok (AwaitCompiledTemplate (Some 0)), after)
    /\ compileCacheMiss after = 1.
Proof.
  destruct (compile_misses_after_invalidation Sample.host
              (TemplateWriter.addLeadingDotSlash Sample.uses) "post.md"
              (Sample.template "./post.md" (Sample.config "1" ∅)) Sample.liquid "# Hello"
              Sample.statics eq_refl eq_refl eq_refl eq_refl)
    as (_ & (after & Hmiss & Hcount & _) & _).
  exists after. split; [exact Hmiss | exact Hcount].
Defined.

Lemma append_cons (c : ascii) (s1 s2 : string) :
  String c s1 +:+ s2 = String c (s1 +:+ s2).
Proof. reflexivity. Qed.

Lemma prefix_append (p rest : string) : String.prefix p (p +:+ rest) = true.
Proof.
  induction p as [|c p IH]; [now destruct rest|].
  rewrite append_cons. simpl. destruct (ascii_dec c c); [exact IH | contradiction].
Qed.

Lemma prefix_append_false (p q : string) : forall s,
  String.prefix p s = false -> String.prefix (p +:+ q) s = false.
Proof.
  induction p as [|c p IH]; intros s Hp.
  - destruct s; discriminate.
  - rewrite append_cons. destruct s as [|c' s]; [reflexivity|]. simpl in *.
    destruct (ascii_dec c c'); [now apply IH | reflexivity].
Qed.

Lemma substring_all (s : string) : String.substring 0 (String.length s) s = s.
Proof. induction s as [|c s IH]; simpl; [reflexivity | now rewrite IH]. Qed.

Lemma slice_append (p rest : string) : slice (p +:+ rest) (String.length p) = rest.
Proof.
  unfold slice. rewrite CompileFacts.length_append.
  replace (String.length p + String.length rest - String.length p)
    with (String.length rest) by lia.
  induction p as [|c p IH]; [apply substring_all|].
  rewrite append_cons. simpl. exact IH.
Qed.

Lemma length_append_char (s : string) (c : ascii) :
  String.length (s +:+ String c EmptyString) = S (String.length s).
Proof. rewrite CompileFacts.length_append. simpl. lia. Qed.

(** X19. The excerpt handling of [read()]. Without the excerpt option, or
    with an empty excerpt, the parsed front matter is returned as it is.
    Otherwise the excerpt is stored in the data under the alias, and the
    separator is cut out of the content: a content that is the excerpt,
    the separator, a line end (the one of the operating system, or
    a newline) and a rest becomes the trimmed excerpt, a newline and the
    rest; with no line end after the separator it becomes the excerpt
    and the rest; a content that does not start with the excerpt and the
    separator stays. *)
Theorem applyExcerpt_removes_the_separator
    (host : Host) (options : FrontMatterOptions) (fm : FrontMatter) :
  let excerptString := excerpt fm +:+ orString (excerpt_separator options) "---" in
  let result := applyExcerpt host options fm in
  (opt_excerpt options = false \/ excerpt fm = "" -> result = fm)
  /\ (opt_excerpt options = true -> excerpt fm <> "" ->
      (forall rest,
         content fm = (excerptString +:+ EOL host) +:+ rest ->
         content result = trim host (excerpt fm) +:+ newline +:+ rest)
      /\ (forall rest,
            content fm = (excerptString +:+ newline) +:+ rest ->
            String.prefix (excerptString +:+ EOL host) (content fm) = false ->
            content result = trim host (excerpt fm) +:+ newline +:+ rest)
      /\ (forall rest,
            content fm = excerptString +:+ rest ->
            String.prefix (excerptString +:+ EOL host) (content fm) = false ->
            String.prefix (excerptString +:+ newline) (content fm) = false ->
            content result = excerpt fm +:+ rest)
      /\ (String.prefix excerptString (content fm) = false ->
          content result = content fm)
      /\ data result
         = lodashSet host (data fm) (orString (excerpt_alias options) "page.excerpt")
             (excerpt fm)
      /\ excerpt result = excerpt fm).
Proof.
  intros excerptString result. subst result. unfold applyExcerpt. fold excerptString.
  split.
  - intros [-> | ->]; [reflexivity|]. now rewrite andb_false_r.
  - intros -> Hexcerpt.
    assert (String.eqb (excerpt fm) "" = false) as -> by now apply String.eqb_neq.
    simpl. repeat split.
    + intros rest Hcontent. rewrite Hcontent, prefix_append, slice_append. reflexivity.
    + intros rest Hcontent Heol. rewrite Heol, Hcontent, prefix_append.
      unfold newline at 3. rewrite (length_append_char excerptString "1").
      rewrite <- (length_append_char excerptString (ascii_of_nat 10)).
      fold newline. now rewrite slice_append.
    + intros rest Hcontent Heol Hnl. rewrite Heol, Hnl, Hcontent, prefix_append, slice_append.
      reflexivity.
    + intros Hnone.
      now rewrite (prefix_append_false excerptString (EOL host) _ Hnone),
        (prefix_append_false excerptString newline _ Hnone), Hnone.
Qed.

Lemma compile_catch_promises (this : t) (str : string) (e : error) (w : Statics) :
  promises (compile_catch this str e w).2 = promises w.
Proof.
  unfold compile_catch, _getCompileCache.
  destruct (engine this) as [eng|e']; simpl; [|apply CompileFacts.promises_ensureMap].
  destruct (cacheable eng && keyTruthy (cacheKey this eng str)); simpl;
    apply CompileFacts.promises_ensureMap.
Qed.

Lemma compile_try_promises (this : t) (str : string) (w : Statics) :
  (exists res, (compile_try this str w).1 = Ok (AwaitCompiledTemplate (Some res))
               /\ res = length (promises w)
               /\ promises (compile_try this str w).2 = promises w ++ [Pending])
  \/ ((forall res, (compile_try this str w).1 <> Ok (AwaitCompiledTemplate (Some res)))
      /\ promises (compile_try this str w).2 = promises w).
Proof.
  unfold compile_try.
  destruct (useTemplateCache (eleventyConfig this)); [|right; split; [discriminate | reflexivity]].
  unfold _getCompileCache.
  destruct (engine this) as [eng|e] eqn:Heng.
  - destruct (cacheable eng && keyTruthy (cacheKey this eng str)).
    + destruct (if usesCache this eng str then _ else _) as [promise|].
      * right. split; [discriminate|]. simpl. apply CompileFacts.promises_ensureMap.
      * left. eexists. simpl. rewrite CompileFacts.promises_ensureMap. repeat split.
    + right. split; [discriminate|]. simpl. apply CompileFacts.promises_ensureMap.
  - right.
    pose proof (compile_catch_promises this str e (ensureMap (inputPath this) w)) as H.
    destruct (compile_catch this str e (ensureMap (inputPath this) w)) as [e' w'].
    simpl in *. split; [discriminate|]. now rewrite H, CompileFacts.promises_ensureMap.
Qed.

Lemma compile_start_promises (host : Host) (this : t) (str : string) (bypassMarkdown : bool)
    (engineOverride : Js.value) (w : Statics) :
  let started := compile_start host this str bypassMarkdown engineOverride w in
  (exists res, started.1.1 = Ok (AwaitCompiledTemplate (Some res))
               /\ res = length (promises w)
               /\ promises started.2 = promises w ++ [Pending])
  \/ ((forall res, started.1.1 <> Ok (AwaitCompiledTemplate (Some res)))
      /\ promises started.2 = promises w).
Proof.
  unfold compile_start.
  destruct (getTemplateRender host this) as [[tr this0]|e];
    [|right; split; [discriminate | reflexivity]].
  destruct (applyEngineOverride host tr bypassMarkdown engineOverride) as [tr1|e];
    [|right; split; [discriminate | reflexivity]].
  destruct (bypassMarkdown && negb (needsCompilation (engine_of tr1) str));
    [right; split; [discriminate | reflexivity]|].
  pose proof (compile_try_promises (set_templateRender this0 tr1) str w) as H.
  destruct (compile_try (set_templateRender this0 tr1) str w) as [r w1]. exact H.
Qed.

Lemma resolve_promises (promise : nat) (fn : CompiledFn) (w : Statics) (r : nat) :
  r <> promise -> promises (resolve promise fn w) !! r = promises w !! r.
Proof.
  intros Hne. unfold resolve. destruct (promises w !! promise) as [[|]|]; try reflexivity.
  simpl. now rewrite list_lookup_insert_ne by congruence.
Qed.

Lemma compile_finish_promises (this : t) (str : string) (res : option nat)
    (compiled : except CompiledFn) (w : Statics) (r : nat) :
  res <> Some r \/ (exists e, compiled = Throw e) ->
  promises (compile_finish this str res compiled w).2 !! r = promises w !! r.
Proof.
  intros Hr. unfold compile_finish. destruct compiled as [fn|e].
  - destruct Hr as [Hr | [e He]]; [|discriminate].
    destruct res as [promise|]; [|reflexivity]. simpl.
    destruct (useTemplateCache (eleventyConfig this)); [|reflexivity].
    apply resolve_promises. congruence.
  - pose proof (compile_catch_promises this str e w) as H.
    destruct (compile_catch this str e w) as [e' w']. simpl in *. now rewrite H.
Qed.

Lemma getInputContent_promises (host : Host) (this : t) (w : Statics) :
  promises (getInputContent host this w).2 = promises w.
Proof.
  unfold getInputContent.
  destruct (getTemplateRender host this) as [[tr this']|e]; [|reflexivity].
  destruct (needsToReadFileContents (engine_of tr)); [|reflexivity]. simpl.
  destruct (getVirtualTemplateDefinition this'); [reflexivity|].
  match goal with |- context [if ?c then _ else _] => destruct c end; [|reflexivity].
  destruct (readFile host (inputPath this')); [|reflexivity].
  simpl. now destruct (useTemplateCache (eleventyConfig this')).
Qed.

Lemma read_promises (host : Host) (this : t) (w : Statics) :
  promises (read host this w).2 = promises w.
Proof.
  unfold read. destruct (readingPromise this); [reflexivity|].
  unfold ensureInputContent.
  assert (forall this1 w1, promises (readContent host this1 w1).2 = promises w1) as Hread.
  { intros this1 w1. unfold readContent.
    destruct (awaitInputContent this1) as [content|e]; [|reflexivity].
    destruct (Js.truthy content || Js.strict_eq content (Js.Str "")); [|reflexivity].
    now destruct (matter host content _ _). }
  destruct (inputContentMissing this).
  - pose proof (getInputContent_promises host this w) as Hget.
    destruct (getInputContent host this w) as [[settled this1] w1]. simpl in Hget.
    specialize (Hread (set_inputContent this1 (ContentPromise settled)) w1).
    destruct (readContent host _ w1) as [[s this2] w2]. simpl in *. congruence.
  - specialize (Hread this w). destruct (readContent host this w) as [[s this2] w2].
    exact Hread.
Qed.

(** A placeholder that no call in flight owns stays as it is. *)
Lemma step_keeps_orphan (host : Host) (dot : string -> string)
    (s s' : Statics * list Request) (r : nat) (state : PromiseState) :
  step host dot s s' ->
  promises s.1 !! r = Some state -> r ∉ placeholders s.2 ->
  promises s'.1 !! r = Some state /\ r ∉ placeholders s'.2.
Proof.
  intros Hstep Hr Hfree. destruct Hstep; simpl in *.
  - pose proof (compile_start_promises host this str bypassMarkdown engineOverride w) as H.
    fold started in H. cbv zeta in H.
    destruct H as [(res & Hres & -> & Hp) | [Hnone Hp]].
    + rewrite Hp, Hres. simpl. split.
      * now apply lookup_app_l_Some.
      * unfold placeholders. simpl. apply not_elem_of_cons. split; [|exact Hfree].
        apply lookup_lt_Some in Hr. lia.
    + rewrite Hp. split; [exact Hr|].
      destruct (started.1.1) as [[fn|promise|[res|]]|e]; simpl; try exact Hfree.
      destruct (Hnone res eq_refl).
  - unfold placeholders in *. rewrite omap_app in Hfree. simpl in Hfree.
    rewrite omap_app. split.
    + rewrite compile_finish_promises; [exact Hr|]. left.
      intros Hres. rewrite Hres in Hfree. apply Hfree.
      apply elem_of_app. right. now left.
    + intros Hin. apply Hfree. apply elem_of_app in Hin as [Hin | Hin];
        apply elem_of_app; [now left | right].
      destruct (request_res request); [now right | exact Hin].
  - now rewrite read_promises.
  - now rewrite getInputContent_promises.
  - auto.
  - auto.
  - destruct (promises_resourceModified host dot path w) as [-> _]. auto.
  - auto.
Qed.

Lemma steps_keep_orphan (host : Host) (dot : string -> string)
    (s s' : Statics * list Request) (r : nat) (state : PromiseState) :
  rtc (step host dot) s s' ->
  promises s.1 !! r = Some state -> r ∉ placeholders s.2 ->
  promises s'.1 !! r = Some state.
Proof.
  induction 1 as [s|s s1 s' Hstep _ IH]; intros Hr Hfree; [exact Hr|].
  destruct (step_keeps_orphan host dot s s1 r state Hstep Hr Hfree) as [Hr1 Hfree1].
  now apply IH.
Qed.

Lemma step_wellFormed (host : Host) (dot : string -> string)
    (s s' : Statics * list Request) :
  step host dot s s' -> wellFormed s -> wellFormed s'.
Proof.
  intros Hstep [Hnd Hpending]. destruct Hstep; unfold wellFormed in *; simpl in *.
  - pose proof (compile_start_promises host this str bypassMarkdown engineOverride w) as H.
    fold started in H. cbv zeta in H.
    destruct H as [(res & Hres & -> & Hp) | [Hnone Hp]].
    + rewrite Hp, Hres. unfold placeholders. simpl. split.
      * apply list.NoDup_cons. split; [|exact Hnd].
        intros Hin. apply Hpending, lookup_lt_Some in Hin. lia.
      * intros r Hin. apply elem_of_cons in Hin as [-> | Hin].
        -- now rewrite lookup_app_r, Nat.sub_diag by lia.
        -- apply lookup_app_l_Some. now apply Hpending.
    + rewrite Hp.
      destruct (started.1.1) as [[fn|promise|[res|]]|e]; simpl; try (split; assumption).
      destruct (Hnone res eq_refl).
  - unfold placeholders in *. rewrite omap_app in *. simpl in *.
    assert (NoDup (omap request_res before ++ omap request_res after)
            /\ forall r, r ∈ omap request_res before ++ omap request_res after ->
                         request_res request <> Some r) as [Hnd' Hother].
    { destruct (request_res request) as [p|].
      - apply list.NoDup_app in Hnd as (Hb & Hdisj & Ha).
        apply list.NoDup_cons in Ha as [Hp Ha]. split.
        + apply list.NoDup_app. split; [exact Hb|]. split; [|exact Ha].
          intros x Hx Hx'. apply (Hdisj x Hx). now right.
        + intros r Hin [= ->]. apply elem_of_app in Hin as [Hin | Hin]; [|contradiction].
          apply (Hdisj r Hin). now left.
      - split; [exact Hnd | discriminate]. }
    split; [exact Hnd'|]. intros r Hin.
    rewrite compile_finish_promises by (left; now apply Hother).
    apply Hpending. apply elem_of_app in Hin as [Hin | Hin]; apply elem_of_app;
      [now left | right].
    destruct (request_res request); [now right | exact Hin].
  - rewrite read_promises. auto.
  - rewrite getInputContent_promises. auto.
  - auto.
  - auto.
  - destruct (promises_resourceModified host dot path w) as [-> _]. auto.
  - auto.
Qed.

Lemma steps_wellFormed (host : Host) (dot : string -> string)
    (s s' : Statics * list Request) :
  rtc (step host dot) s s' -> wellFormed s -> wellFormed s'.
Proof.
  induction 1 as [s|s s1 s' Hstep _ IH]; intros Hwf; [exact Hwf|].
  apply IH. now apply (step_wellFormed host dot s s1).
Qed.

(** X20. The placeholder promise of a compilation that fails is never
    settled. Starting with no call in flight, let calls of [compile] run
    and resume in any order, with reads and cache events in between; when
    a call that stored a placeholder resumes with a failed compilation,
    its promise is pending, the call throws, and whatever happens
    afterwards the promise stays pending: a caller that was handed it
    from the cache waits for ever. *)
Theorem placeholder_of_a_failed_compile_is_never_settled
    (host : Host) (addLeadingDotSlash : string -> string)
    (w0 w : Statics) (before after : list Request) (request : Request)
    (res : nat) (e : error) (final : Statics * list Request) :
  rtc (step host addLeadingDotSlash) (w0, []) (w, before ++ request :: after) ->
  request_res request = Some res ->
  let failed :=
    compile_finish (request_this request) (request_str request) (Some res) (Throw e) w in
  rtc (step host addLeadingDotSlash) (failed.2, before ++ after) final ->
  promises w !! res = Some Pending
  /\ (exists reason, failed.1 = Throw reason)
  /\ promises final.1 !! res = Some Pending.
Proof.
  intros Hrun Hres failed Hlater.
  assert (wellFormed (w0, [])) as Hwf0.
  { split; [apply NoDup_nil_2|]. intros r Hin. now apply elem_of_nil in Hin. }
  pose proof (steps_wellFormed host addLeadingDotSlash _ _ Hrun Hwf0) as [Hnd Hpending].
  simpl in Hnd, Hpending. unfold placeholders in Hnd, Hpending.
  rewrite omap_app in Hnd, Hpending. simpl in Hnd, Hpending. rewrite Hres in Hnd, Hpending.
  assert (promises w !! res = Some Pending) as Hp.
  { apply Hpending. apply elem_of_app. right. now left. }
  split; [exact Hp|]. split.
  { subst failed. unfold compile_finish.
    destruct (compile_catch _ _ e w) as [e' w']. now exists e'. }
  apply (steps_keep_orphan host addLeadingDotSlash _ _ res Pending Hlater).
  - subst failed. cbn [fst]. rewrite compile_finish_promises; [exact Hp | right; eauto].
  - simpl. unfold placeholders. rewrite omap_app.
    apply list.NoDup_app in Hnd as (Hb & Hdisj & Ha).
    apply list.NoDup_cons in Ha as [Ha1 Ha].
    intros Hin. apply elem_of_app in Hin as [Hin | Hin]; [|contradiction].
    apply (Hdisj res Hin). now left.
Qed.

Lemma placeholder_of_a_failed_compile_is_never_settled_witness :
  let this := Sample.template "./post.md" (Sample.config "1" ∅) in
  let started := compile_start Sample.host this "# Hello" false Js.Undefined Sample.statics in
  let failed :=
    compile_finish started.1.2 "# Hello" (Some 0) (Throw Sample.brokenError) started.2 in
  let again := compile_start Sample.host this "# Hello" false Js.Undefined failed.2 in
  started.1.1 = Ok (AwaitCompiledTemplate (Some 0))
  /\ promises again.2 !! 0 = Some Pending.
Proof.
  intros this started failed again.
  assert (started.1.1 = Ok (AwaitCompiledTemplate (Some 0))) as Hstarted
    by (vm_compute; reflexivity).
  split; [exact Hstarted|].
  pose proof (step_compile_start Sample.host (TemplateWriter.addLeadingDotSlash Sample.uses)
                this "# Hello" false Js.Undefined Sample.statics []) as Hstart.
  cbv zeta in Hstart. fold started in Hstart. rewrite Hstarted in Hstart.
  pose proof (step_compile_start Sample.host (TemplateWriter.addLeadingDotSlash Sample.uses)
                this "# Hello" false Js.Undefined failed.2 []) as Hagain.
  cbv zeta in Hagain. fold again in Hagain.
  apply (placeholder_of_a_failed_compile_is_never_settled Sample.host
           (TemplateWriter.addLeadingDotSlash Sample.uses) Sample.statics started.2 [] []
           {| request_this := started.1.2; request_str := "# Hello"; request_res := Some 0 |}
           0 Sample.brokenError (again.2, inFlightAfter again.1.1 again.1.2 "# Hello" [])).
  - apply rtc_once. exact Hstart.
  - reflexivity.
  - apply rtc_once. exact Hagain.
Defined.

(** X21. With the template cache switched off in the configuration, a
    compilation that succeeds leaves the static state alone (no
    placeholder, no cache entry, no count of a hit or a miss) and never
    answers from the cache. *)
Theorem compile_without_template_cache
    (host : Host) (this : t) (str : string) (bypassMarkdown : bool)
    (engineOverride : Js.value) (fn : CompiledFn) (w : Statics) :
  useTemplateCache (eleventyConfig this) = false ->
  let result := compile host this str bypassMarkdown engineOverride (Ok fn) w in
  result.2 = w
  /\ forall r, result.1.1 = Ok r -> r = Compiled fn \/ r = Compiled (ReturnsStr str).
Proof.
  intros Hoff result. subst result. unfold compile, compile_start.
  assert (forall (tr : TemplateRender) (this0 : t),
            getTemplateRender host this = Ok (tr, this0) ->
            eleventyConfig this0 = eleventyConfig this) as Hconfig.
  { intros tr this0. unfold getTemplateRender.
    destruct (_templateRender this) as [tr'|]; [now intros [= _ <-]|].
    destruct (newTemplateRender host _ _); [|discriminate]. now intros [= _ <-]. }
  destruct (getTemplateRender host this) as [[tr this0]|e] eqn:Hrender;
    [|split; [reflexivity | discriminate]].
  specialize (Hconfig tr this0 eq_refl).
  destruct (applyEngineOverride host tr bypassMarkdown engineOverride) as [tr1|e];
    [|split; [reflexivity | discriminate]].
  destruct (bypassMarkdown && negb (needsCompilation (engine_of tr1) str)).
  - split; [reflexivity|]. intros r [= <-]. now right.
  - assert (compile_try (set_templateRender this0 tr1) str w
            = (Ok (AwaitCompiledTemplate None), w)) as ->.
    { unfold compile_try. change (eleventyConfig (set_templateRender this0 tr1))
        with (eleventyConfig this0). now rewrite Hconfig, Hoff. }
    unfold compile_finish. split; [reflexivity|]. intros r [= <-]. now left.
Qed.

Lemma compile_without_template_cache_witness :
  (compile Sample.host (new "./post.md" Sample.uncached) "# Hello" false Js.Undefined
     (Ok (EngineFn 0)) Sample.statics).2 = Sample.statics.
Proof.
  apply (compile_without_template_cache Sample.host (new "./post.md" Sample.uncached)
           "# Hello" false Js.Undefined (EngineFn 0) Sample.statics eq_refl).
Defined.

End ContentFacts.

(** ** The shape of a file and the ignore globs *)

Module FilesFacts.

Import EleventyFiles.

Lemma isFullTemplateFile_loop_true (paths : list string) (filePath : Js.value) :
  isFullTemplateFile_loop paths filePath = true
  <-> exists path, In path paths /\ filePath = Js.Str path.
Proof.
  induction paths as [|p rest IH]; cbn [isFullTemplateFile_loop In].
  - split; [discriminate | intros (? & [] & _)].
  - destruct (Js.strict_eq (Js.Str p) filePath) eqn:Heq.
    + split; [|reflexivity]. intros _. exists p. split; [now left|].
      destruct filePath; try discriminate. simpl in Heq.
      apply String.eqb_eq in Heq. now subst.
    + rewrite IH. split.
      * intros (path & Hin & ->). exists path. auto.
      * intros (path & [<- | Hin] & ->).
        -- simpl in Heq. rewrite String.eqb_refl in Heq. discriminate.
        -- exists path. auto.
Qed.

(** X9. The shape of a changed file: ["copy"] exactly for a truthy path
    that the passthrough manager takes as a passthrough copy file;
    ["template"] exactly for a non-empty string that is one of the paths
    and is no passthrough copy file (so the copy test comes first);
    [undefined] for every falsy path, whatever the passthrough manager
    says. *)
Theorem getFileShape_cases
    (isPassthroughCopyFile : list string -> Js.value -> bool)
    (paths : list string) (filePath : Js.value) :
  let shape := getFileShape isPassthroughCopyFile paths filePath in
  (shape = ShapeCopy
   <-> Js.truthy filePath = true /\ isPassthroughCopyFile paths filePath = true)
  /\ (shape = ShapeTemplate
      <-> isPassthroughCopyFile paths filePath = false
          /\ exists path, path <> "" /\ In path paths /\ filePath = Js.Str path)
  /\ (Js.truthy filePath = false -> shape = ShapeUndefined).
Proof.
  intros shape. subst shape. unfold getFileShape, isFullTemplateFile.
  destruct (Js.truthy filePath) eqn:Htruthy; simpl.
  - destruct (isPassthroughCopyFile paths filePath) eqn:Hcopy.
    + split; [tauto|]. split; [|discriminate].
      split; [discriminate | intros [H _]; discriminate].
    + destruct (isFullTemplateFile_loop paths filePath) eqn:Hloop.
      * split; [split; [discriminate | intros [_ H]; discriminate]|].
        split; [|discriminate].
        apply isFullTemplateFile_loop_true in Hloop as (path & Hin & ->).
        split; [|reflexivity]. intros _. split; [reflexivity|]. exists path.
        split; [|auto]. intros ->. discriminate.
      * split; [split; [discriminate | intros [_ H]; discriminate]|].
        split; [|discriminate].
        split; [discriminate|]. intros (_ & path & _ & Hin & ->).
        assert (isFullTemplateFile_loop paths (Js.Str path) = true) as H
          by (apply isFullTemplateFile_loop_true; eauto).
        congruence.
  - split; [split; [discriminate | intros [H _]; discriminate]|].
    split; [|reflexivity].
    split; [discriminate|]. intros (_ & path & Hne & _ & ->).
    simpl in Htruthy. apply negb_false_iff, String.eqb_eq in Htruthy. contradiction.
Qed.

Lemma splitLines_nonempty (s : string) : splitLines s <> [].
Proof.
  induction s as [|c s IH]; simpl; [discriminate|].
  destruct (Ascii.eqb c _); [discriminate|].
  destruct (splitLines s); [contradiction | discriminate].
Qed.

(** The lines of two texts joined by a newline are the lines of the one
    followed by the lines of the other. *)
Lemma splitLines_append (a b : string) :
  splitLines (a +:+ TemplateContent.newline +:+ b) = splitLines a ++ splitLines b.
Proof.
  induction a as [|c a IH].
  - reflexivity.
  - change (String c a +:+ TemplateContent.newline +:+ b)
      with (String c (a +:+ TemplateContent.newline +:+ b)).
    simpl. rewrite IH. destruct (Ascii.eqb c _); [reflexivity|].
    pose proof (splitLines_nonempty a) as Hne.
    destruct (splitLines a) as [|line lines]; [contradiction | reflexivity].
Qed.

Lemma lines_of_empty (env : IgnoreEnv) :
  env_trim env "" = "" ->
  List.filter keepsLine (List.map (env_trim env) (splitLines "")) = [].
Proof. intros Htrim. simpl. now rewrite Htrim. Qed.

(** X10. The globs of an ignore file are found line by line: the content
    of two ignore files joined by a newline gives the globs of the first
    followed by the globs of the second (an empty file gives none). The
    hypothesis says that trimming the empty string gives the empty
    string. *)
Theorem normalizeIgnoreContent_of_joined_files
    (env : IgnoreEnv) (dir a b : string) :
  env_trim env "" = "" ->
  normalizeIgnoreContent env dir (a +:+ TemplateContent.newline +:+ b)
  = normalizeIgnoreContent env dir a ++ normalizeIgnoreContent env dir b.
Proof.
  intros Htrim.
  assert (forall s, normalizeIgnoreContent env dir s
                    = List.map (ignoreGlob env dir)
                        (List.filter keepsLine (List.map (env_trim env) (splitLines s))))
    as Hany.
  { intros s. unfold normalizeIgnoreContent. destruct (String.eqb s "") eqn:Hs; [|reflexivity].
    apply String.eqb_eq in Hs. subst s. now rewrite (lines_of_empty env Htrim). }
  rewrite !Hany, splitLines_append, map_app, filter_app, map_app. reflexivity.
Qed.

Lemma normalizeIgnoreContent_of_joined_files_witness :
  normalizeIgnoreContent Sample.ignoreEnv "."
    ("node_modules" +:+ TemplateContent.newline +:+ "# drafts" +:+ TemplateContent.newline
       +:+ "!README.md" +:+ TemplateContent.newline +:+ "_drafts")
  = ["./node_modules/**"; "./_drafts"].
Proof.
  rewrite (normalizeIgnoreContent_of_joined_files Sample.ignoreEnv "." "node_modules"
             ("# drafts" +:+ TemplateContent.newline +:+ "!README.md"
                +:+ TemplateContent.newline +:+ "_drafts") eq_refl).
  vm_compute. reflexivity.
Defined.

(** X11. The ignore globs are the union of the file ignores, the extra
    ignores and the normalized ignores of the configuration, each once:
    no glob is listed twice, a glob is listed exactly when one of the
    three sources has it, the globs stand in that order when the sources
    share nothing, and an ignore of the configuration that starts with
    ["**/"] is listed as it is. *)
Theorem getIgnoreGlobs_is_a_union
    (normalizePath : string -> string -> string) (localPathRoot : option string)
    (fileIgnores extraIgnores configIgnores : list string) :
  let normalized :=
    List.map (normalizeIgnoreEntry normalizePath localPathRoot) configIgnores in
  let globs :=
    getIgnoreGlobs normalizePath localPathRoot fileIgnores extraIgnores configIgnores in
  NoDup globs
  /\ (forall glob, In glob globs
                   <-> In glob fileIgnores \/ In glob extraIgnores \/ In glob normalized)
  /\ (NoDup (fileIgnores ++ extraIgnores ++ normalized) ->
      globs = fileIgnores ++ extraIgnores ++ normalized)
  /\ (forall entry, In entry configIgnores -> String.prefix "**/" entry = true ->
      In entry globs).
Proof.
  intros normalized globs. subst globs. unfold getIgnoreGlobs, JsSet.toArray. fold normalized.
  rewrite <- !SetFacts.addAll_app.
  assert (forall glob,
            In glob (JsSet.addAll JsSet.empty (fileIgnores ++ extraIgnores ++ normalized))
            <-> In glob fileIgnores \/ In glob extraIgnores \/ In glob normalized) as Hin.
  { intros glob. rewrite <- list_elem_of_In, SetFacts.elem_of_addAll, !elem_of_app.
    unfold JsSet.empty. rewrite elem_of_nil, !list_elem_of_In. tauto. }
  split; [|split; [exact Hin|split]].
  - apply SetFacts.NoDup_addAll. apply NoDup_nil_2.
  - intros Hnd. rewrite SetFacts.addAll_fresh.
    + reflexivity.
    + exact Hnd.
    + intros x _ Hx. unfold JsSet.empty in Hx. now apply elem_of_nil in Hx.
  - intros entry Hentry Hprefix. apply Hin. right. right.
    apply in_map_iff. exists entry. split; [|exact Hentry].
    unfold normalizeIgnoreEntry. now rewrite Hprefix.
Qed.

(** X12. The globs for the includes, layouts and data directories: one
    glob, [TemplateGlob.map(entry + "**")], for each distinct directory
    among the three that is not the empty string; the input directory is
    never among them, and a directory named twice is listed once. *)
Theorem getIncludesAndDataDirs_never_ignores_the_input
    (globMap : string -> string) (dirs : Dirs) :
  exists entries,
    getIncludesAndDataDirs globMap dirs
    = List.map (fun entry => globMap (entry +:+ "**")) entries
    /\ NoDup entries
    /\ forall entry,
         In entry entries
         <-> (entry = dirs_includes dirs \/ dirs_layouts dirs = Some entry
              \/ entry = dirs_data dirs)
             /\ entry <> "" /\ entry <> dirs_input dirs.
Proof.
  unfold getIncludesAndDataDirs, JsSet.toArray.
  set (rawPaths := JsSet.add _ (dirs_data dirs)).
  exists (List.filter
            (fun entry => negb (String.eqb entry "")
                          && negb (String.eqb entry (dirs_input dirs))) rawPaths).
  split; [reflexivity|]. split.
  - apply SetFacts.NoDup_List_filter. subst rawPaths. apply SetFacts.NoDup_add.
    destruct (dirs_layouts dirs) as [l|].
    + destruct (negb (String.eqb l "")); repeat apply SetFacts.NoDup_add; apply NoDup_nil_2.
    + apply SetFacts.NoDup_add, NoDup_nil_2.
  - intros entry. rewrite filter_In, andb_true_iff, !negb_true_iff, !String.eqb_neq.
    subst rawPaths. rewrite <- list_elem_of_In, SetFacts.elem_of_add.
    destruct (dirs_layouts dirs) as [l|].
    + destruct (String.eqb l "") eqn:Hl; simpl.
      * apply String.eqb_eq in Hl. subst l.
        rewrite SetFacts.elem_of_add. unfold JsSet.empty. rewrite elem_of_nil.
        split; [tauto|]. intros [[H | [[= <-] | H]] [H1 H2]]; tauto.
      * rewrite !SetFacts.elem_of_add. unfold JsSet.empty. rewrite elem_of_nil.
        split.
        -- intros [[[[[] | H] | H] | H] [H1 H2]]; subst; tauto.
        -- intros [[H | [[= <-] | H]] [H1 H2]]; tauto.
    + rewrite SetFacts.elem_of_add. unfold JsSet.empty. rewrite elem_of_nil.
      split; [tauto|]. intros [[H | [H | H]] [H1 H2]]; try discriminate; tauto.
Qed.

End FilesFacts.

(** ** The writer: paths, the full build and the generation pass *)

Module WriterFacts.

Import EleventyFiles TemplateWriter.

Lemma promises_runReaction_first (g : Generator) (i : nat) (e : MapEntry)
    (outcome : except (list Page)) (st : Generation) :
  promises (runReaction g (FirstPass i e outcome) st)
  = <[i := Some (firstPassSettled g e outcome)]> (promises st).
Proof.
  destruct outcome as [pages|err]; simpl; [reflexivity|].
  now destruct (isPrematureTemplateContentError g err).
Qed.

(** The jobs the first loop leaves behind, and the pending promises. *)
Lemma firstLoop_queue (g : Generator) (map : list MapEntry) :
  forall st : Generation,
    length (generated st) = length (promises st) ->
    reactions (firstLoop g map st)
    = reactions st
        ++ imap (fun k e => FirstPass (length (promises st) + k) e
                              (generateMapEntry g (length (promises st) + k) e)) map
    /\ promises (firstLoop g map st) = promises st ++ replicate (length map) None.
Proof.
  induction map as [|e rest IH]; intros st Hlen; simpl.
  - now rewrite !app_nil_r.
  - destruct (IH (pushGenerate g FirstPass e st)) as [-> ->].
    { simpl. rewrite !length_app. simpl. lia. }
    simpl. rewrite Hlen, !length_app, <- !app_assoc. simpl.
    rewrite Nat.add_0_r. split.
    + do 2 f_equal. apply imap_ext. intros k x _. simpl.
      now replace (length (promises st) + 1 + k) with (length (promises st) + S k) by lia.
    + reflexivity.
Qed.

Lemma runReactions_first (g : Generator) (l : list MapEntry) :
  forall (off : nat) (st : Generation) (j : nat),
    off + length l <= length (promises st) ->
    promises (runReactions g
                (imap (fun k e => FirstPass (off + k) e (generateMapEntry g (off + k) e)) l) st)
      !! j
    = match l !! (j - off) with
      | Some e =>
          if decide (off <= j)
          then Some (Some (firstPassSettled g e (generateMapEntry g j e)))
          else promises st !! j
      | None => promises st !! j
      end.
Proof.
  induction l as [|e rest IH]; intros off st j Hlen.
  - simpl. reflexivity.
  - simpl in Hlen. rewrite imap_cons. cbn [runReactions].
    rewrite (imap_ext _ (fun k e0 => FirstPass (S off + k) e0 (generateMapEntry g (S off + k) e0))).
    2: { intros k x _. simpl. now replace (off + S k) with (S (off + k)) by lia. }
    rewrite IH.
    2: { rewrite promises_runReaction_first, length_insert. lia. }
    rewrite promises_runReaction_first, Nat.add_0_r.
    destruct (decide (off <= j)) as [Hle|Hnle].
    + destruct (decide (j = off)) as [->|Hne].
      * rewrite Nat.sub_diag. simpl.
        replace (off - S off) with 0 by lia.
        destruct (decide (S off <= off)); [lia|].
        destruct (rest !! 0); rewrite list_lookup_insert_eq by lia; reflexivity.
      * replace (j - off) with (S (j - S off)) by lia. simpl.
        destruct (rest !! (j - S off)).
        -- destruct (decide (S off <= j)); [reflexivity | lia].
        -- now rewrite list_lookup_insert_ne by lia.
    + replace (j - off) with 0 by lia. replace (j - S off) with 0 by lia. simpl.
      destruct (rest !! 0).
      * destruct (decide (S off <= j)); [lia|]. now rewrite list_lookup_insert_ne by lia.
      * now rewrite list_lookup_insert_ne by lia.
Qed.

(** The array of promises once every job has run: one promise for each
    entry, settled by the outcome of the first render of the entry. *)
Lemma generateTemplates_promises (g : Generator) (map : list MapEntry) :
  promises (generateTemplates g map)
  = imap (fun i e => Some (firstPassSettled g e (generateMapEntry g i e))) map.
Proof.
  unfold generateTemplates.
  destruct (GenerateFacts.second_loop_is_empty g map) as [_ ->].
  destruct (firstLoop_queue g map emptyGeneration eq_refl) as [Hq Hp].
  simpl in Hq, Hp. rewrite Hq.
  apply list_eq. intros j.
  rewrite (runReactions_first g map 0); [|simpl; rewrite Hp, length_replicate; lia].
  simpl. rewrite Nat.sub_0_r, list_lookup_imap.
  destruct (map !! j) as [e|] eqn:Hj; simpl.
  - destruct (decide (0 <= j)); [reflexivity | lia].
  - rewrite Hp. apply lookup_ge_None_2. rewrite length_replicate.
    now apply lookup_ge_None_1.
Qed.

Lemma runReaction_tooEarly (g : Generator) (i : nat) (e : MapEntry)
    (outcome : except (list Page)) (st : Generation) :
  usedTemplateContentTooEarlyMap (runReaction g (FirstPass i e outcome) st)
  = usedTemplateContentTooEarlyMap st
      ++ match outcome with
         | Throw err => if isPrematureTemplateContentError g err then [e] else []
         | Ok _ => []
         end.
Proof.
  destruct outcome as [pages|err]; simpl; [now rewrite app_nil_r|].
  destruct (isPrematureTemplateContentError g err); simpl; [reflexivity|].
  now rewrite app_nil_r.
Qed.

Lemma runReactions_tooEarly (g : Generator) (l : list MapEntry) :
  forall (F : nat -> MapEntry -> nat * except (list Page)) (st : Generation),
    usedTemplateContentTooEarlyMap
      (runReactions g (imap (fun k e => FirstPass (F k e).1 e (F k e).2) l) st)
    = usedTemplateContentTooEarlyMap st
        ++ List.concat
             (imap (fun k e =>
                      match (F k e).2 with
                      | Throw err => if isPrematureTemplateContentError g err then [e] else []
                      | Ok _ => []
                      end) l).
Proof.
  induction l as [|e rest IH]; intros F st.
  - simpl. now rewrite app_nil_r.
  - rewrite !imap_cons. cbn [runReactions List.concat].
    rewrite (IH (fun k => F (S k))), runReaction_tooEarly, <- app_assoc. reflexivity.
Qed.

Lemma generateTemplates_tooEarly (g : Generator) (map : list MapEntry) :
  usedTemplateContentTooEarlyMap (generateTemplates g map)
  = List.concat
      (imap (fun i e =>
               match generateMapEntry g i e with
               | Throw err => if isPrematureTemplateContentError g err then [e] else []
               | Ok _ => []
               end) map).
Proof.
  unfold generateTemplates.
  destruct (GenerateFacts.second_loop_is_empty g map) as [Hearly ->].
  destruct (firstLoop_queue g map emptyGeneration eq_refl) as [Hq Hp].
  simpl in Hq. rewrite Hq.
  rewrite (runReactions_tooEarly g map (fun k e => (k, generateMapEntry g k e))).
  simpl. now rewrite Hearly.
Qed.

(** X1. For every template map, once the jobs of [generateTemplates]
    have run: the promise of an entry is fulfilled with the pages of the
    entry when its render succeeded; it is fulfilled with [undefined],
    and the entry is collected in [usedTemplateContentTooEarlyMap], when
    the render failed with a premature template content error; it is
    rejected with an [EleventyTemplateError] that names the output paths
    and the input path and wraps the cause when the render failed
    otherwise. Every entry is rendered once, and there is one promise for
    each entry. *)
Theorem generateTemplates_settles_each_entry (g : Generator) (map : list MapEntry)
    (i : nat) (mapEntry : MapEntry) :
  map !! i = Some mapEntry ->
  let promise := promises (generateTemplates g map) !! i in
  (forall pages, generateMapEntry g i mapEntry = Ok pages ->
     promise = Some (Some (Fulfilled (Some pages))))
  /\ (forall e, generateMapEntry g i mapEntry = Throw e ->
        isPrematureTemplateContentError g e = true ->
        promise = Some (Some (Fulfilled None))
        /\ In mapEntry (usedTemplateContentTooEarlyMap (generateTemplates g map)))
  /\ (forall e, generateMapEntry g i mapEntry = Throw e ->
        isPrematureTemplateContentError g e = false ->
        promise
        = Some (Some (Rejected
            (EleventyTemplateError
               ("Having trouble writing to "
                  +:+ (dquote +:+ String.concat (dquote +:+ ", " +:+ dquote)
                                    (List.map outputPath (_pages mapEntry)) +:+ dquote)
                  +:+ " from " +:+ dquote +:+ mapEntry_inputPath mapEntry +:+ dquote) e))))
  /\ generated (generateTemplates g map) = map
  /\ length (promises (generateTemplates g map)) = length map.
Proof.
  intros Hi promise. subst promise.
  rewrite generateTemplates_promises, list_lookup_imap, Hi. simpl.
  split; [|split; [|split]].
  - intros pages ->. reflexivity.
  - intros e He Hpre. rewrite He. simpl. rewrite Hpre. split; [reflexivity|].
    rewrite generateTemplates_tooEarly. apply in_concat.
    exists [mapEntry]. split; [|now left].
    apply list_elem_of_In, list_elem_of_lookup. exists i.
    rewrite list_lookup_imap, Hi. simpl. now rewrite He, Hpre.
  - intros e -> Hpre. simpl. now rewrite Hpre.
  - split; [apply GenerateFacts.generateTemplates_single_pass | apply length_imap].
Qed.

Lemma generateTemplates_settles_each_entry_witness :
  promises (generateTemplates Sample.mixedGenerator [Sample.postEntry; Sample.indexEntry]) !! 1
  = Some (Some (Fulfilled None)).
Proof.
  destruct (generateTemplates_settles_each_entry Sample.mixedGenerator
              [Sample.postEntry; Sample.indexEntry] 1 Sample.indexEntry eq_refl)
    as (_ & Hpremature & _).
  apply (Hpremature Sample.prematureError); reflexivity.
Defined.

Lemma filterBoolean_app (l1 l2 : list (option Page)) :
  filterBoolean (l1 ++ l2) = filterBoolean l1 ++ filterBoolean l2.
Proof. apply omap_app. Qed.

Lemma filterBoolean_pages (pages : list Page) :
  filterBoolean (List.map Some pages) = pages.
Proof.
  induction pages as [|p rest IH]; [reflexivity|].
  change (p :: filterBoolean (List.map Some rest) = p :: rest). now rewrite IH.
Qed.

Lemma firstPassSettled_Rejected (g : Generator) (mapEntry : MapEntry)
    (outcome : except (list Page)) (reason : error) :
  firstPassSettled g mapEntry outcome = Rejected reason <->
  exists cause,
    outcome = Throw cause /\ isPrematureTemplateContentError g cause = false
    /\ reason = EleventyTemplateError (firstPassMessage mapEntry) cause.
Proof.
  unfold firstPassSettled. split.
  - destruct outcome as [pages|cause]; [discriminate|].
    destruct (isPrematureTemplateContentError g cause) eqn:Hpre; [discriminate|].
    intros Hr. injection Hr as <-. eauto.
  - intros (cause & -> & Hpre & ->). now rewrite Hpre.
Qed.

Lemma firstRejected_None (settledAt : nat -> nat) (promises : list (option Settled)) :
  forall i,
    (forall k e, promises !! k <> Some (Some (Rejected e))) ->
    firstRejected settledAt i promises = None.
Proof.
  induction promises as [|promise rest IH]; intros i Hnone; [reflexivity|].
  cbn [firstRejected]. rewrite (IH (S i)) by (intros k e; apply (Hnone (S k) e)).
  destruct promise as [[value|e]|]; [reflexivity| |reflexivity].
  now destruct (Hnone 0 e).
Qed.

Lemma firstRejected_is_Some (settledAt : nat -> nat) (promises : list (option Settled)) :
  forall (i k : nat) (e : error),
    promises !! k = Some (Some (Rejected e)) ->
    exists time reason, firstRejected settledAt i promises = Some (time, reason).
Proof.
  induction promises as [|promise rest IH]; intros i k e Hk; [discriminate|].
  cbn [firstRejected]. destruct k as [|k].
  - simpl in Hk. injection Hk as ->.
    destruct (firstRejected settledAt (S i) rest) as [[t r]|]; [|eauto].
    destruct (t <? settledAt i)%nat; eauto.
  - destruct (IH (S i) k e Hk) as (t & r & ->).
    destruct promise as [[value|r0]|]; eauto.
    destruct (t <? settledAt i)%nat; eauto.
Qed.

Lemma firstRejected_Some (settledAt : nat -> nat) (promises : list (option Settled)) :
  forall i time e,
    firstRejected settledAt i promises = Some (time, e) ->
    exists k,
      promises !! k = Some (Some (Rejected e)) /\ time = settledAt (i + k)
      /\ forall k' e', promises !! k' = Some (Some (Rejected e')) ->
                       time <= settledAt (i + k').
Proof.
  induction promises as [|promise rest IH]; intros i time e Hfirst; [discriminate|].
  cbn [firstRejected] in Hfirst.
  assert (forall k, i + S k = S i + k) as Hshift by (intros; lia).
  destruct promise as [[value|e0]|].
  - destruct (IH (S i) time e Hfirst) as (k & Hk & -> & Hmin). exists (S k).
    split; [exact Hk|]. split; [now rewrite Hshift|].
    intros [|k'] e' Hk'; [discriminate|]. rewrite Hshift. eauto.
  - destruct (firstRejected settledAt (S i) rest) as [[time' e']|] eqn:Hrest.
    + destruct (IH (S i) time' e' Hrest) as (k & Hk & -> & Hmin).
      destruct (settledAt (S i + k) <? settledAt i)%nat eqn:Hlt.
      * injection Hfirst as <- <-. exists (S k).
        split; [exact Hk|]. split; [now rewrite Hshift|].
        apply Nat.ltb_lt in Hlt.
        intros [|k'] e'' Hk'; [rewrite Nat.add_0_r; simpl in *; lia|]. rewrite Hshift. eauto.
      * injection Hfirst as <- <-. exists 0. rewrite Nat.add_0_r.
        split; [reflexivity|]. split; [reflexivity|].
        apply Nat.ltb_ge in Hlt.
        intros [|k'] e'' Hk'; [rewrite Nat.add_0_r; simpl in *; lia|].
        rewrite Hshift. specialize (Hmin k' e'' Hk'). simpl in *. lia.
    + injection Hfirst as <- <-. exists 0. rewrite Nat.add_0_r.
      split; [reflexivity|]. split; [reflexivity|].
      intros [|k'] e'' Hk'; [rewrite Nat.add_0_r; simpl in *; lia|].
      destruct (firstRejected_is_Some settledAt rest (S i) k' e'' Hk') as (t & r & Hsome).
      rewrite Hsome in Hrest. discriminate.
  - destruct (IH (S i) time e Hfirst) as (k & Hk & -> & Hmin). exists (S k).
    split; [exact Hk|]. split; [now rewrite Hshift|].
    intros [|k'] e' Hk'; [discriminate|]. rewrite Hshift. eauto.
Qed.

Lemma fulfilledValues_imap (g : Generator) (l : list MapEntry) :
  forall F : nat -> MapEntry -> except (list Page),
    (forall i e err, l !! i = Some e -> F i e = Throw err ->
                     isPrematureTemplateContentError g err = true) ->
    fulfilledValues (imap (fun i e => Some (firstPassSettled g e (F i e))) l)
    = Some (imap (fun i e => match F i e with Ok pages => Some pages | Throw _ => None end) l).
Proof.
  induction l as [|e rest IH]; intros F Hpre; [reflexivity|].
  rewrite !imap_cons.
  specialize (IH (fun i => F (S i)) (fun i e' err Hi => Hpre (S i) e' err Hi)).
  assert (exists value,
            firstPassSettled g e (F 0 e) = Fulfilled value
            /\ value = match F 0 e with Ok pages => Some pages | Throw _ => None end)
    as (value & -> & ->).
  { destruct (F 0 e) as [pages|err] eqn:Hout; simpl; [eauto|].
    rewrite (Hpre 0 e err eq_refl Hout). eauto. }
  cbn [fulfilledValues]. unfold compose. now rewrite IH.
Qed.

Lemma promiseAll_fulfilled (g : Generator) (settledAt : nat -> nat) (l : list MapEntry)
    (F : nat -> MapEntry -> except (list Page)) :
  (forall i e err, l !! i = Some e -> F i e = Throw err ->
                   isPrematureTemplateContentError g err = true) ->
  promiseAll settledAt (imap (fun i e => Some (firstPassSettled g e (F i e))) l)
  = Some (Ok (imap (fun i e => match F i e with Ok pages => Some pages | Throw _ => None end) l)).
Proof.
  intros Hpre. unfold promiseAll. rewrite firstRejected_None.
  - now rewrite (fulfilledValues_imap g l F Hpre).
  - intros k reason Hk. rewrite list_lookup_imap in Hk.
    destruct (l !! k) as [e|] eqn:Hentry; [|discriminate].
    simpl in Hk. injection Hk as Hk.
    apply firstPassSettled_Rejected in Hk as (cause & Hout & Hfalse & _).
    rewrite (Hpre k e cause Hentry Hout) in Hfalse. discriminate.
Qed.

Lemma flat_filter (l : list MapEntry) :
  forall F : nat -> MapEntry -> except (list Page),
    filterBoolean
      (flat (imap (fun i e => match F i e with Ok pages => Some pages | Throw _ => None end) l))
    = List.concat (imap (fun i e => match F i e with Ok pages => pages | Throw _ => [] end) l).
Proof.
  induction l as [|e rest IH]; intros F; [reflexivity|].
  rewrite !imap_cons. unfold compose. specialize (IH (fun i => F (S i))).
  unfold flat in *. cbn [List.flat_map List.concat].
  rewrite filterBoolean_app, IH.
  destruct (F 0 e) as [pages|err]; [now rewrite filterBoolean_pages | reflexivity].
Qed.

(** X2. When every render that fails fails with a premature template
    content error, [writeTemplates()] (and [getJSON()]) is fulfilled, and
    its [templates] are the pages of the entries whose render succeeded,
    in the order of the map: an entry that failed that way contributes
    nothing and raises nothing. This is so whatever the order in which
    the renders settle. *)
Theorem writeTemplates_drops_premature_entries (g : Generator) (settledAt : nat -> nat)
    (map : list MapEntry) :
  (forall i mapEntry e, map !! i = Some mapEntry ->
     generateMapEntry g i mapEntry = Throw e ->
     isPrematureTemplateContentError g e = true) ->
  writeTemplates g settledAt map
  = Some (Ok (List.concat
                (imap (fun i mapEntry =>
                         match generateMapEntry g i mapEntry with
                         | Ok pages => pages
                         | Throw _ => []
                         end) map))).
Proof.
  intros Hpre. unfold writeTemplates.
  rewrite generateTemplates_promises, (promiseAll_fulfilled g settledAt map _ Hpre).
  now rewrite flat_filter.
Qed.

Lemma writeTemplates_drops_premature_entries_witness :
  writeTemplates Sample.mixedGenerator (fun i => i) [Sample.postEntry; Sample.indexEntry]
  = Some (Ok [{| outputPath := "./_site/post/index.html" |}]).
Proof.
  rewrite (writeTemplates_drops_premature_entries Sample.mixedGenerator (fun i => i)
             [Sample.postEntry; Sample.indexEntry]).
  - reflexivity.
  - intros [|[|i]] mapEntry e Hentry Hfail; simpl in Hentry; [| |discriminate];
      injection Hentry as <-; simpl in Hfail; [discriminate|].
    injection Hfail as <-. reflexivity.
Defined.

Lemma promiseAll_rejected (g : Generator) (settledAt : nat -> nat) (l : list MapEntry)
    (F : nat -> MapEntry -> except (list Page)) (i : nat) (e : MapEntry) (err : error) :
  l !! i = Some e -> F i e = Throw err ->
  isPrematureTemplateContentError g err = false ->
  exists j e' err',
    l !! j = Some e' /\ F j e' = Throw err'
    /\ isPrematureTemplateContentError g err' = false
    /\ (forall k other reason,
          l !! k = Some other -> F k other = Throw reason ->
          isPrematureTemplateContentError g reason = false ->
          settledAt j <= settledAt k)
    /\ promiseAll settledAt (imap (fun i e => Some (firstPassSettled g e (F i e))) l)
       = Some (Throw (EleventyTemplateError (firstPassMessage e') err')).
Proof.
  intros Hi Hout Hpre.
  set (promises := imap (fun i e => Some (firstPassSettled g e (F i e))) l).
  assert (forall k other reason,
            l !! k = Some other -> F k other = Throw reason ->
            isPrematureTemplateContentError g reason = false ->
            promises !! k
            = Some (Some (Rejected (EleventyTemplateError (firstPassMessage other) reason))))
    as Hrejected.
  { intros k other reason Hk Hfail Hfalse. subst promises.
    rewrite list_lookup_imap, Hk. simpl. do 2 f_equal.
    apply firstPassSettled_Rejected. eauto. }
  destruct (firstRejected_is_Some settledAt promises 0 i _ (Hrejected i e err Hi Hout Hpre))
    as (time & reason & Hfirst).
  destruct (firstRejected_Some settledAt promises 0 time reason Hfirst)
    as (j & Hj & -> & Hmin).
  subst promises. rewrite list_lookup_imap in Hj.
  destruct (l !! j) as [e'|] eqn:Hentry; [|discriminate].
  simpl in Hj. injection Hj as Hj.
  apply firstPassSettled_Rejected in Hj as (err' & Hout' & Hpre' & ->).
  exists j, e', err'. split; [exact Hentry|]. split; [exact Hout'|]. split; [exact Hpre'|].
  split.
  - intros k other reason Hk Hfail Hfalse.
    exact (Hmin k _ (Hrejected k other reason Hk Hfail Hfalse)).
  - unfold promiseAll. now rewrite Hfirst.
Qed.

(** X3. When the render of some entry fails with an error that is no
    premature template content error, [writeTemplates()] (and
    [getJSON()]) is rejected, with the [EleventyTemplateError] of such an
    entry: the error names the output paths and the input path of the
    entry and wraps the error of its render. Of several entries that fail
    this way it is one whose render settled first, wherever it stands in
    the map. *)
Theorem writeTemplates_rejects_on_other_failures (g : Generator) (settledAt : nat -> nat)
    (map : list MapEntry) (i : nat) (mapEntry : MapEntry) (e : error) :
  map !! i = Some mapEntry ->
  generateMapEntry g i mapEntry = Throw e ->
  isPrematureTemplateContentError g e = false ->
  exists j failed cause,
    map !! j = Some failed
    /\ generateMapEntry g j failed = Throw cause
    /\ isPrematureTemplateContentError g cause = false
    /\ (forall k other reason,
          map !! k = Some other -> generateMapEntry g k other = Throw reason ->
          isPrematureTemplateContentError g reason = false ->
          settledAt j <= settledAt k)
    /\ writeTemplates g settledAt map
       = Some (Throw (EleventyTemplateError
            ("Having trouble writing to "
               +:+ (dquote +:+ String.concat (dquote +:+ ", " +:+ dquote)
                                 (List.map outputPath (_pages failed)) +:+ dquote)
               +:+ " from " +:+ dquote +:+ mapEntry_inputPath failed +:+ dquote) cause)).
Proof.
  intros Hi Hout Hpre. unfold writeTemplates. rewrite generateTemplates_promises.
  destruct (promiseAll_rejected g settledAt map _ i mapEntry e Hi Hout Hpre)
    as (j & failed & cause & Hj & Hout' & Hpre' & Hmin & ->).
  exists j, failed, cause. repeat split; auto.
Qed.

(** Two documents fail; the render of the second settles first. *)
Lemma writeTemplates_rejects_on_other_failures_witness :
  writeTemplates Sample.failingGenerator (fun i => 1 - i)
    [Sample.brokenEntry; Sample.alsoBrokenEntry]
  = Some (Throw (EleventyTemplateError
       ("Having trouble writing to " +:+ dquote +:+ "./_site/also-broken/index.html" +:+ dquote
          +:+ " from " +:+ dquote +:+ "./also-broken.md" +:+ dquote)
       Sample.alsoBrokenError)).
Proof.
  destruct (writeTemplates_rejects_on_other_failures Sample.failingGenerator (fun i => 1 - i)
              [Sample.brokenEntry; Sample.alsoBrokenEntry] 0
              Sample.brokenEntry Sample.brokenError eq_refl eq_refl eq_refl)
    as (j & failed & cause & Hj & Hfail & _ & Hmin & Hrejected).
  destruct j as [|[|j]]; simpl in Hj; [| |discriminate].
  - specialize (Hmin 1 Sample.alsoBrokenEntry Sample.alsoBrokenError eq_refl eq_refl eq_refl).
    simpl in Hmin. lia.
  - injection Hj as <-. simpl in Hfail. injection Hfail as <-. exact Hrejected.
Defined.

Lemma getTruthy_false (o : JsObject.t) (k : string) :
  JsObject.getTruthy o k = false -> ~ In k o /\ k <> "__proto__".
Proof.
  unfold JsObject.getTruthy. intros H. apply orb_false_iff in H as [Hown Hinh]. split.
  - intros Hin. apply SchedulerFacts.hasOwn_true_iff in Hin. congruence.
  - intros ->. vm_compute in Hinh. discriminate.
Qed.

(** The loop over the paths completes only when no path occurs twice. *)
Lemma findConflict_ok (paths : list string) : forall conflicts : JsObject.t,
  findConflict paths conflicts = Ok tt ->
  NoDup paths /\ forall path, In path paths -> ~ In path conflicts.
Proof.
  induction paths as [|p rest IH]; intros o Hrun.
  - split; [apply NoDup_nil_2 | intros path []].
  - simpl in Hrun. destruct (JsObject.getTruthy o p) eqn:Hp; [discriminate|].
    apply getTruthy_false in Hp as [Hown Hproto].
    destruct (IH _ Hrun) as [Hnd Hfresh]. split.
    + apply list.NoDup_cons. split; [|exact Hnd].
      intros Hin. apply list_elem_of_In in Hin. apply (Hfresh p Hin).
      apply SchedulerFacts.In_set. right. split; [reflexivity | exact Hproto].
    + intros path [<- | Hin]; [exact Hown|].
      intros Ho. apply (Hfresh path Hin). apply SchedulerFacts.In_set. now left.
Qed.

Lemma findConflict_throws (paths : list string) : forall (conflicts : JsObject.t) (e : error),
  findConflict paths conflicts = Throw e ->
  exists path, In path paths /\ e = conflictError path.
Proof.
  induction paths as [|p rest IH]; intros o e Hrun; [discriminate|].
  simpl in Hrun. destruct (JsObject.getTruthy o p).
  - injection Hrun as <-. exists p. split; [now left | reflexivity].
  - destruct (IH _ _ Hrun) as (path & Hin & ->). exists path. split; [now right | reflexivity].
Qed.

Lemma fullVirtualPaths_ok (setup : VirtualTemplates) (keys : list string) :
  forall result, fullVirtualPaths setup keys = Ok result ->
                 result = List.map (dirs_getInputPath setup) keys.
Proof.
  induction keys as [|k rest IH]; intros result Hrun; simpl in Hrun.
  - now injection Hrun as <-.
  - destruct (extensionMap_getKey setup) as [getKey|]; [|discriminate].
    destruct (negb (Js.truthy (getKey (dirs_getInputPath setup k)))); [discriminate|].
    destruct (fullVirtualPaths setup rest) as [r|e]; [|discriminate].
    simpl in Hrun. injection Hrun as <-. simpl. f_equal. now apply IH.
Qed.

Lemma fullVirtualPaths_valid (setup : VirtualTemplates) (getKey : string -> Js.value)
    (keys : list string) :
  extensionMap_getKey setup = Some getKey ->
  (forall key, In key keys -> Js.truthy (getKey (dirs_getInputPath setup key)) = true) ->
  fullVirtualPaths setup keys = Ok (List.map (dirs_getInputPath setup) keys).
Proof.
  intros Hmap. induction keys as [|k rest IH]; intros Hvalid; simpl; [reflexivity|].
  rewrite Hmap, (Hvalid k (or_introl eq_refl)). simpl.
  rewrite IH; [reflexivity|]. intros key Hin. apply Hvalid. now right.
Qed.

(** X4. With virtual templates configured, [getPathsWithVirtualTemplates]
    returns the paths followed by the input paths of the virtual
    templates that are template files, and it never returns a list in
    which a path occurs twice: when the formats of the virtual templates
    are valid it returns exactly when no path occurs twice, and throws
    the conflict error, naming a path of the list, otherwise. *)
Theorem getPathsWithVirtualTemplates_never_repeats_a_path
    (setup : VirtualTemplates) (virtualTemplates : JsObject.t) (paths : list string) :
  config_virtualTemplates setup = Some virtualTemplates ->
  let virtual :=
    List.map (dirs_getInputPath setup)
      (List.filter (dirs_isTemplateFile setup) (JsObject.keys virtualTemplates)) in
  (forall result,
     getPathsWithVirtualTemplates setup paths = Ok result ->
     result = paths ++ virtual /\ NoDup result)
  /\ (forall getKey,
        extensionMap_getKey setup = Some getKey ->
        (forall path, In path virtual -> Js.truthy (getKey path) = true) ->
        (NoDup (paths ++ virtual) ->
         getPathsWithVirtualTemplates setup paths = Ok (paths ++ virtual))
        /\ (~ NoDup (paths ++ virtual) ->
            exists path, In path (paths ++ virtual)
              /\ getPathsWithVirtualTemplates setup paths
                 = Throw (HostError
                     ("A virtual template had the same path as a file on the file system: "
                        +:+ dquote +:+ path +:+ dquote)))).
Proof.
  intros Hconfig virtual. unfold getPathsWithVirtualTemplates. rewrite Hconfig.
  set (keys := List.filter (dirs_isTemplateFile setup) (JsObject.keys virtualTemplates)) in *.
  split.
  - intros result Hrun.
    destruct (fullVirtualPaths setup keys) as [vs|e] eqn:Hvs; [|discriminate].
    apply fullVirtualPaths_ok in Hvs. subst vs. fold virtual in Hrun. simpl in Hrun.
    destruct (length (paths ++ virtual) =? JsSet.size (JsSet.fromList (paths ++ virtual)))%nat
      eqn:Hsize; simpl in Hrun.
    + injection Hrun as <-. split; [reflexivity|].
      apply Nat.eqb_eq in Hsize. now apply SetFacts.size_fromList.
    + destruct (findConflict (paths ++ virtual) JsObject.empty) as [[]|e] eqn:Hloop;
        [|discriminate].
      simpl in Hrun. injection Hrun as <-. split; [reflexivity|].
      now apply findConflict_ok in Hloop.
  - intros getKey Hmap Hvalid.
    rewrite (fullVirtualPaths_valid setup getKey keys Hmap).
    2: { intros key Hin. apply Hvalid. now apply in_map. }
    fold virtual. simpl. split.
    + intros Hnd. apply SetFacts.size_fromList in Hnd. rewrite Hnd, Nat.eqb_refl. reflexivity.
    + intros Hdup.
      destruct (length (paths ++ virtual) =? JsSet.size (JsSet.fromList (paths ++ virtual)))%nat
        eqn:Hsize.
      { apply Nat.eqb_eq in Hsize. destruct Hdup. now apply SetFacts.size_fromList. }
      simpl. destruct (findConflict (paths ++ virtual) JsObject.empty) as [[]|e] eqn:Hloop.
      * apply findConflict_ok in Hloop. tauto.
      * apply findConflict_throws in Hloop as (path & Hin & ->). exists path. auto.
Qed.

Lemma getPathsWithVirtualTemplates_never_repeats_a_path_witness :
  getPathsWithVirtualTemplates Sample.virtualSetup ["./index.md"]
  = Ok ["./index.md"; "./virtual.md"]
  /\ exists path,
       getPathsWithVirtualTemplates Sample.virtualSetup ["./index.md"; "./virtual.md"]
       = Throw (conflictError path).
Proof.
  split.
  - destruct (getPathsWithVirtualTemplates_never_repeats_a_path Sample.virtualSetup
                ["virtual.md"; "_includes/base.liquid"] ["./index.md"] eq_refl)
      as [_ Hvalid].
    destruct (Hvalid (fun _ => Js.Str "md") eq_refl (fun _ _ => eq_refl)) as [Hok _].
    apply Hok. simpl. apply NoDup_cons_2; [|apply NoDup_singleton].
    intros Hin. apply list_elem_of_singleton in Hin. discriminate.
  - destruct (getPathsWithVirtualTemplates_never_repeats_a_path Sample.virtualSetup
                ["virtual.md"; "_includes/base.liquid"] ["./index.md"; "./virtual.md"] eq_refl)
      as [_ Hvalid].
    destruct (Hvalid (fun _ => Js.Str "md") eq_refl (fun _ _ => eq_refl)) as [_ Hconflict].
    destruct Hconflict as (path & _ & Hthrown).
    + simpl. intros Hnd. apply list.NoDup_cons in Hnd as [_ Hnd].
      apply list.NoDup_cons in Hnd as [Hin _]. apply Hin. now left.
    + exists path. exact Hthrown.
Defined.

Lemma filterPaths_spec (hasEngine : string -> bool) (shape : FileShape) (paths : list string) :
  forall this : t,
    let result := filterPaths hasEngine shape paths this in
    heap result.2 = heap this
    /\ incrementalFile result.2 = incrementalFile this
    /\ isRunInitialBuild result.2 = isRunInitialBuild this
    /\ (isCopyShape shape = true ->
        result.1 = []
        /\ skippedCount result.2
           = skippedCount this + length (List.filter hasEngine paths))
    /\ (isCopyShape shape = false ->
        result.1 = List.filter hasEngine paths
        /\ skippedCount result.2 = skippedCount this).
Proof.
  induction paths as [|path rest IH]; intros this; simpl.
  - repeat split; lia.
  - destruct (hasEngine path); simpl.
    + destruct (isCopyShape shape) eqn:Hcopy.
      * destruct (IH (incrementSkippedCount this)) as (Hh & Hf & Hr & Hc & _).
        destruct (Hc eq_refl) as [Hkept Hcount].
        repeat split; try assumption; try discriminate. rewrite Hcount. simpl. lia.
      * destruct (IH this) as (Hh & Hf & Hr & _ & Hn).
        destruct (Hn eq_refl) as [Hkept Hcount].
        destruct (filterPaths hasEngine shape rest this) as [kept this']. simpl in *.
        repeat split; try assumption; try discriminate. now rewrite Hkept.
    + apply IH.
Qed.

(** X5. The filter of [_addToTemplateMap]: when the changed file is a
    passthrough copy file no path is kept, and the skipped count goes up
    by the number of paths that have a template engine; for every other
    shape the paths with an engine are kept, in order, and nothing is
    counted. The templates themselves are not touched. *)
Theorem filterPaths_skips_every_template_for_a_copied_file
    (hasEngine : string -> bool) (shape : FileShape) (paths : list string) (this : t) :
  let result := filterPaths hasEngine shape paths this in
  (shape = ShapeCopy ->
     result.1 = []
     /\ skippedCount result.2 = skippedCount this + length (List.filter hasEngine paths))
  /\ (shape <> ShapeCopy ->
      result.1 = List.filter hasEngine paths
      /\ skippedCount result.2 = skippedCount this)
  /\ heap result.2 = heap this.
Proof.
  intros result. subst result.
  destruct (filterPaths_spec hasEngine shape paths this) as (Hh & _ & _ & Hc & Hn).
  split; [|split; [|exact Hh]].
  - intros ->. now apply Hc.
  - intros Hne. apply Hn. destruct shape; [congruence | reflexivity | reflexivity].
Qed.

Lemma disableAll_spec (templates : list nat) : forall this : t,
  sameWriter this (disableAll templates this)
  /\ forall r, heap (disableAll templates this) r
               = if in_dec Nat.eq_dec r templates
                 then setRenderableOverride (heap this r) (Js.Bool false)
                 else heap this r.
Proof.
  induction templates as [|tmpl rest IH]; intros this.
  - simpl. unfold sameWriter. auto.
  - simpl disableAll.
    set (this1 := update this tmpl (fun o => setRenderableOverride o (Js.Bool false))).
    destruct (IH this1) as [Hsame Hheap]. split; [exact Hsame|].
    intros r. rewrite Hheap.
    apply (SchedulerFacts.visit_step (fun o => setRenderableOverride o (Js.Bool false))
             (heap this) (heap this1) tmpl r rest).
    + reflexivity.
    + intros r'. subst this1. now rewrite SchedulerFacts.heap_update.
Qed.

(** X6. In an incremental build whose initial build is ignored
    ([--ignore-initial]), what follows the first loop (lines 256-262)
    disables the render of every template, the changed file included, and
    does nothing else. [this] is the state at line 256, after the first
    loop has reset the caches of the changed file and of the templates it
    is relevant to ([resetBeforeData]): from there on no cache is reset,
    no dry-run flag is set, nothing is counted as skipped, and the
    templates outside the build are left alone. *)
Theorem ignore_initial_build_disables_every_template
    (uses : Uses) (shape : FileShape) (templates : list nat) (this : t) :
  isRunInitialBuild this = false ->
  exists final,
    _addToTemplateMapIncrementalBuild uses shape templates this = Ok final
    /\ skippedCount final = skippedCount this
    /\ (forall tmpl, In tmpl templates ->
          isRenderableDisabled (heap final tmpl) = true
          /\ templateContent (heap final tmpl) = templateContent (heap this tmpl)
          /\ _dataCache (heap final tmpl) = _dataCache (heap this tmpl)
          /\ _renderCache (heap final tmpl) = _renderCache (heap this tmpl)
          /\ isDryRunViaIncremental (heap final tmpl) = isDryRunViaIncremental (heap this tmpl))
    /\ (forall r, ~ In r templates -> heap final r = heap this r).
Proof.
  intros Hrun. exists (disableAll templates this).
  unfold _addToTemplateMapIncrementalBuild. rewrite Hrun. simpl.
  destruct (disableAll_spec templates this) as [(_ & _ & Hcount) Hheap].
  split; [reflexivity|]. split; [exact Hcount|]. split.
  - intros tmpl Hin. rewrite Hheap.
    destruct (in_dec Nat.eq_dec tmpl templates) as [_|Hnot]; [|contradiction].
    repeat split.
  - intros r Hnot. rewrite Hheap.
    destruct (in_dec Nat.eq_dec r templates) as [Hin|_]; [contradiction | reflexivity].
Qed.

(** The watcher after [./post.md] has changed: the first loop resets the
    caches of that template only, and then every template is disabled. *)
Lemma ignore_initial_build_disables_every_template_witness :
  exists atLine256 final,
    (do this <- resetBeforeData Sample.watcher ShapeTemplate 0;
     do this <- resetBeforeData this ShapeTemplate 1;
     resetBeforeData this ShapeTemplate 2) = Ok atLine256
    /\ _addToTemplateMapIncrementalBuild Sample.uses ShapeTemplate [0; 1; 2] atLine256
       = Ok final
    /\ isRenderableDisabled (heap final 0) = true
    /\ _renderCache (heap final 0) = None
    /\ isRenderableDisabled (heap final 1) = true
    /\ _renderCache (heap final 1) = Some "<p>cached</p>".
Proof.
  set (atLine256 := update Sample.watcher 0 (fun o => resetCaches o None)).
  destruct (ignore_initial_build_disables_every_template Sample.uses ShapeTemplate [0; 1; 2]
              atLine256 eq_refl) as (final & Hrun & _ & Htemplates & _).
  exists atLine256, final. split; [vm_compute; reflexivity|]. split; [exact Hrun|].
  destruct (Htemplates 0 (or_introl eq_refl)) as (Hdisabled0 & _ & _ & Hrender0 & _).
  destruct (Htemplates 1 (or_intror (or_introl eq_refl))) as (Hdisabled1 & _ & _ & Hrender1 & _).
  split; [exact Hdisabled0|]. split; [rewrite Hrender0; reflexivity|].
  split; [exact Hdisabled1|]. rewrite Hrender1. reflexivity.
Defined.





(** X8. The reset of the first loop of the incremental build, before the
    data of a template is generated: the changed file, and a template the
    changed file is relevant to, have every cache reset, the read cache
    included; any other template is left as it is; the renderable
    override, the other templates and the skipped count never change. *)
Theorem resetBeforeData_cases (this : t) (shape : FileShape) (tmpl : nat) :
  initialized (heap this tmpl) ->
  exists this',
    resetBeforeData this shape tmpl = Ok this'
    /\ skippedCount this' = skippedCount this
    /\ (forall r, r <> tmpl -> heap this' r = heap this r)
    /\ _renderableOverride (heap this' tmpl) = _renderableOverride (heap this tmpl)
    /\ (isIncrementalFile this shape tmpl = true \/ isRelevant this shape tmpl = Ok true ->
        _dataCache (heap this' tmpl) = None
        /\ _renderCache (heap this' tmpl) = None
        /\ TemplateContent.readingPromise (templateContent (heap this' tmpl)) = None
        /\ TemplateContent.inputContent (templateContent (heap this' tmpl)) = None)
    /\ (isIncrementalFile this shape tmpl = false -> isRelevant this shape tmpl = Ok false ->
        heap this' tmpl = heap this tmpl).
Proof.
  intros Hinit. unfold resetBeforeData.
  destruct (SchedulerFacts.relevantTo_total (incrementalFile this) shape (heap this tmpl) Hinit)
    as [relevant Hrelevant].
  rewrite <- SchedulerFacts.isRelevant_eq in Hrelevant.
  assert (forall r, r <> tmpl ->
            heap (update this tmpl (fun o => resetCaches o None)) r = heap this r) as Hframe.
  { intros r Hne. rewrite SchedulerFacts.heap_update.
    destruct (decide (tmpl = r)); [congruence | reflexivity]. }
  assert (heap (update this tmpl (fun o => resetCaches o None)) tmpl
          = resetCaches (heap this tmpl) None) as Hself.
  { rewrite SchedulerFacts.heap_update. destruct (decide (tmpl = tmpl)); [reflexivity | congruence]. }
  destruct (isIncrementalFile this shape tmpl) eqn:Hfile.
  - eexists. split; [reflexivity|]. split; [reflexivity|]. split; [exact Hframe|].
    rewrite Hself. repeat split. discriminate.
  - rewrite Hrelevant. simpl. destruct relevant.
    + eexists. split; [reflexivity|]. split; [reflexivity|]. split; [exact Hframe|].
      rewrite Hself. repeat split. intros _. discriminate.
    + exists this. split; [reflexivity|]. split; [reflexivity|]. split; [auto|].
      split; [reflexivity|]. split; [|auto].
      intros [H | H]; discriminate.
Qed.

Lemma resetBeforeData_cases_witness :
  exists this',
    resetBeforeData (Sample.writer (Js.Str "./post.md")) ShapeTemplate 0 = Ok this'
    /\ _renderCache (heap this' 0) = None
    /\ heap this' 1 = Sample.documents 1.
Proof.
  destruct (resetBeforeData_cases (Sample.writer (Js.Str "./post.md")) ShapeTemplate 0)
    as (this' & Hrun & _ & Hothers & _ & Hreset & _).
  - discriminate.
  - exists this'. split; [exact Hrun|]. split.
    + apply Hreset. now left.
    + apply Hothers. discriminate.
Defined.

End WriterFacts.

(** ** Version identifiers *)

Module CompatibilityFacts.

Import Compatibility.

Lemma stripPrefix_Some (p s rest : string) : stripPrefix p s = Some rest <-> s = p +:+ rest.
Proof.
  revert s. induction p as [|c p IH]; intros s; simpl.
  - split; [intros [= ->]; reflexivity | intros ->; reflexivity].
  - destruct s as [|c' s].
    + split; [discriminate|]. intros H. discriminate.
    + destruct (Ascii.eqb c c') eqn:Hc.
      * apply Ascii.eqb_eq in Hc. subst c'. rewrite IH.
        change (String c p +:+ rest) with (String c (p +:+ rest)).
        split; [intros ->; reflexivity | intros [= ->]; reflexivity].
      * apply Ascii.eqb_neq in Hc. split; [discriminate|].
        change (String c p +:+ rest) with (String c (p +:+ rest)).
        intros [= -> _]. contradiction.
Qed.

Lemma matchCanary_Some (s rest : string) :
  matchCanary s = Some rest -> s = "-canary" +:+ rest /\ atWordBoundary rest = true.
Proof.
  unfold matchCanary. destruct (stripPrefix "-canary" s) as [r|] eqn:Hs; [|discriminate].
  destruct (atWordBoundary r) eqn:Hb; [|discriminate].
  intros [= <-]. split; [now apply stripPrefix_Some | exact Hb].
Qed.

(** The two equations of the scan. *)
Lemma normalize_match (rest : string) :
  atWordBoundary rest = true ->
  normalizeIdentifier ("-canary" +:+ rest) = "-alpha" +:+ normalizeIdentifier rest.
Proof.
  intros Hb. unfold normalizeIdentifier.
  change ("-canary" +:+ rest)
    with (String "-" (String "c" (String "a" (String "n" (String "a" (String "r"
            (String "y" rest))))))).
  cbn [replaceCanary]. unfold matchCanary. cbn [stripPrefix Ascii.eqb Bool.eqb].
  now rewrite Hb.
Qed.

Lemma normalize_other (c : ascii) (rest : string) :
  matchCanary (String c rest) = None ->
  normalizeIdentifier (String c rest) = String c (normalizeIdentifier rest).
Proof. intros H. unfold normalizeIdentifier. cbn [replaceCanary]. now rewrite H. Qed.

Lemma matchCanary_dash (c : ascii) (rest x : string) :
  matchCanary (String c rest) = Some x -> c = "-"%char.
Proof.
  intros H. apply matchCanary_Some in H as [H _].
  change ("-canary" +:+ x) with (String "-" ("canary" +:+ x)) in H. congruence.
Qed.

Lemma normalize_cases (s : string) :
  match s with
  | EmptyString => normalizeIdentifier s = EmptyString
  | String c rest =>
      (exists r, matchCanary s = Some r /\ s = "-canary" +:+ r /\ atWordBoundary r = true
                 /\ c = "-"%char
                 /\ normalizeIdentifier s = "-alpha" +:+ normalizeIdentifier r)
      \/ (matchCanary s = None
          /\ normalizeIdentifier s = String c (normalizeIdentifier rest))
  end.
Proof.
  destruct s as [|c rest]; [reflexivity|].
  destruct (matchCanary (String c rest)) as [r|] eqn:Hm.
  - left. exists r. pose proof (matchCanary_dash _ _ _ Hm) as Hc.
    apply matchCanary_Some in Hm as [Hs Hb]. rewrite Hs.
    repeat split; try assumption. now apply normalize_match.
  - right. split; [reflexivity | now apply normalize_other].
Qed.

(** The scan keeps the first character. *)
Lemma normalize_head (s : string) :
  match s, normalizeIdentifier s with
  | EmptyString, EmptyString => True
  | String c _, String c' _ => c = c'
  | _, _ => False
  end.
Proof.
  pose proof (normalize_cases s) as H. destruct s as [|c rest]; [now rewrite H|].
  destruct H as [(r & _ & _ & _ & -> & ->) | [_ ->]]; reflexivity.
Qed.

Lemma boundary_normalize (s : string) :
  atWordBoundary (normalizeIdentifier s) = atWordBoundary s.
Proof.
  pose proof (normalize_head s) as H.
  destruct s as [|c rest], (normalizeIdentifier _) as [|c' rest']; try contradiction;
    [reflexivity|]. now subst.
Qed.

(** A normalized identifier that starts with characters other than the
    hyphen comes from an identifier that starts with them. *)
Lemma unprefix (p : string) : forall s x,
  Forall (fun c => c <> "-"%char) (list_ascii_of_string p) ->
  normalizeIdentifier s = p +:+ x ->
  exists y, s = p +:+ y /\ normalizeIdentifier y = x.
Proof.
  induction p as [|c p IH]; intros s x Hp Hn.
  - exists s. split; [reflexivity | exact Hn].
  - simpl in Hp. apply Forall_cons_iff in Hp as [Hc Hp].
    rewrite ContentFacts.append_cons in Hn.
    pose proof (normalize_cases s) as Hs. destruct s as [|c0 rest].
    + rewrite Hs in Hn. discriminate.
    + destruct Hs as [(r & _ & _ & _ & _ & Hr) | [_ Hr]]; rewrite Hr in Hn.
      * change ("-alpha" +:+ normalizeIdentifier r)
          with (String "-" ("alpha" +:+ normalizeIdentifier r)) in Hn.
        injection Hn as <- _. contradiction.
      * injection Hn as -> Hn. destruct (IH rest x Hp Hn) as (y & -> & Hy).
        exists y. split; [reflexivity | exact Hy].
Qed.

(** No match starts at the first character of a normalized identifier. *)
Lemma matchCanary_normalize (s : string) : matchCanary (normalizeIdentifier s) = None.
Proof.
  destruct (matchCanary (normalizeIdentifier s)) as [x|] eqn:Hm; [|reflexivity]. exfalso.
  apply matchCanary_Some in Hm as [Hn Hb].
  pose proof (normalize_cases s) as Hs. destruct s as [|c rest].
  - rewrite Hs in Hn. discriminate.
  - destruct Hs as [(r & _ & _ & _ & _ & Hr) | [Hnone Hr]]; rewrite Hr in Hn.
    + change ("-alpha" +:+ normalizeIdentifier r)
        with (String "-" (String "a" ("lpha" +:+ normalizeIdentifier r))) in Hn.
      change ("-canary" +:+ x) with (String "-" (String "c" ("anary" +:+ x))) in Hn.
      discriminate.
    + change ("-canary" +:+ x) with (String "-" ("canary" +:+ x)) in Hn.
      injection Hn as -> Hn.
      destruct (unprefix "canary" rest x) as (y & -> & Hy); [|exact Hn|].
      { simpl. repeat constructor; discriminate. }
      subst x. rewrite boundary_normalize in Hb.
      unfold matchCanary in Hnone.
      change (String "-" ("canary" +:+ y)) with ("-canary" +:+ y) in Hnone.
      rewrite (proj2 (stripPrefix_Some "-canary" ("-canary" +:+ y) y) eq_refl), Hb in Hnone.
      discriminate.
Qed.

Lemma normalize_idempotent_upto (n : nat) : forall s,
  String.length s <= n -> normalizeIdentifier (normalizeIdentifier s) = normalizeIdentifier s.
Proof.
  induction n as [|n IH]; intros s Hlen.
  - destruct s; [reflexivity | simpl in Hlen; lia].
  - pose proof (normalize_cases s) as Hs. destruct s as [|c rest]; [reflexivity|].
    destruct Hs as [(r & _ & Hs & _ & _ & Hr) | [_ Hr]]; rewrite Hr.
    + assert (String.length r <= n) as Hr_len.
      { apply (f_equal String.length) in Hs. rewrite CompileFacts.length_append in Hs.
        simpl in Hs, Hlen. lia. }
      change ("-alpha" +:+ normalizeIdentifier r)
        with (String "-" (String "a" (String "l" (String "p" (String "h" (String "a"
                (normalizeIdentifier r))))))).
      rewrite !normalize_other by reflexivity. now rewrite (IH r Hr_len).
    + simpl in Hlen. rewrite normalize_other.
      * rewrite (IH rest); [reflexivity | lia].
      * rewrite <- Hr. apply matchCanary_normalize.
Qed.

Lemma normalize_idempotent (s : string) :
  normalizeIdentifier (normalizeIdentifier s) = normalizeIdentifier s.
Proof. apply (normalize_idempotent_upto (String.length s)). lia. Qed.

Lemma normalize_tail (s : string) (c : ascii) (t : string) :
  normalizeIdentifier s = String c t -> exists s', t = normalizeIdentifier s'.
Proof.
  intros Hn. pose proof (normalize_cases s) as Hs. destruct s as [|c0 rest].
  - rewrite Hs in Hn. discriminate.
  - destruct Hs as [(r & _ & _ & _ & _ & Hr) | [_ Hr]]; rewrite Hr in Hn.
    + exists ("alpha" +:+ r).
      change ("-alpha" +:+ normalizeIdentifier r)
        with (String "-" ("alpha" +:+ normalizeIdentifier r)) in Hn.
      injection Hn as _ <-.
      change ("alpha" +:+ r)
        with (String "a" (String "l" (String "p" (String "h" (String "a" r))))).
      now rewrite !normalize_other by reflexivity.
    + injection Hn as _ <-. now exists rest.
Qed.

(** Every suffix of a normalized identifier is a normalized identifier. *)
Lemma normalize_suffix (a : string) : forall s b,
  normalizeIdentifier s = a +:+ b -> exists s', b = normalizeIdentifier s'.
Proof.
  induction a as [|c a IH]; intros s b Hn.
  - now exists s.
  - rewrite ContentFacts.append_cons in Hn. apply normalize_tail in Hn as (s' & Hs').
    now apply (IH s').
Qed.

(** X22. Normalizing an identifier a second time changes nothing, and a
    normalized identifier has no [-canary] left that ends at a word
    boundary: wherever [-canary] still occurs in it, a word character
    follows. *)
Theorem normalizeIdentifier_leaves_no_canary (identifier : string) :
  normalizeIdentifier (normalizeIdentifier identifier) = normalizeIdentifier identifier
  /\ forall before rest,
       normalizeIdentifier identifier = before +:+ "-canary" +:+ rest ->
       atWordBoundary rest = false.
Proof.
  split; [apply normalize_idempotent|].
  intros before rest Hn. apply normalize_suffix in Hn as (s' & Hs').
  pose proof (matchCanary_normalize s') as Hnone. rewrite <- Hs' in Hnone.
  unfold matchCanary in Hnone.
  rewrite (proj2 (stripPrefix_Some "-canary" ("-canary" +:+ rest) rest) eq_refl) in Hnone.
  now destruct (atWordBoundary rest).
Qed.

(** X23. For the version check a [-canary] prerelease tag and the
    [-alpha] tag in its place are the same, in the version and in the
    range: giving [satisfies] an identifier that has been normalized
    before, on either side, does not change its answer. *)
Theorem satisfies_treats_canary_as_alpha (semver : string -> string -> bool)
    (version compatibleRange : string) :
  satisfies semver (normalizeIdentifier version) compatibleRange
  = satisfies semver version compatibleRange
  /\ satisfies semver version (normalizeIdentifier compatibleRange)
     = satisfies semver version compatibleRange
  /\ satisfies semver "3.0.0-canary.1" compatibleRange
     = satisfies semver "3.0.0-alpha.1" compatibleRange.
Proof.
  unfold satisfies. rewrite !normalize_idempotent. repeat split.
Qed.

End CompatibilityFacts.
